(** * Swimtracker worker: ingestion connector, occupancy store and query API

    A shallow embedding of [worker/src/scraper.ts], [worker/src/api.ts],
    [worker/src/schema.sql] and the cron handler of [worker/src/index.ts],
    followed by the properties of the ingestion-and-query pipeline.  (The
    [fetch] handler of [worker/src/index.ts] is [handleRequest] itself,
    called with the database of the environment.)

    Conventions of the embedding:
    - a JavaScript number is a [JS.number]: NaN, the two infinities, or a
      finite double held as the rational it is.  Every operation rounds
      its result to the nearest double, a tie going to the even
      significand, and overflows to an infinity ([JS.binary64]); the sign
      of zero is not represented;
    - a JavaScript or SQL string is a [string] of the bytes of its UTF-8
      text, compared byte by byte, which is how SQLite's BINARY collation
      orders TEXT;
    - an [async] function returns a [Promise] in its final state; one that
      changes the database returns the new database next to it;
    - the wall clock is an argument: milliseconds since the Unix epoch. *)

From Stdlib Require Import ZArith QArith Qround Qpower Lqa Ascii.
From stdpp Require Import base option list strings gmap sets sorting.

Local Open Scope string_scope.
Local Open Scope list_scope.
Local Open Scope Z_scope.

(** ** Promises *)

(** What an [async] function hands back, seen when nothing more can happen
    to it: still [Pending], [Fulfilled] with a value, or [Rejected] with
    the message of the [Error] thrown. *)
Inductive Promise (A : Type) : Type :=
| Pending
| Fulfilled (a : A)
| Rejected (message : string).
Arguments Pending {A}.
Arguments Fulfilled {A} a.
Arguments Rejected {A} message.

(** [x ← p; k] is [const x = await p; k]: it goes on with the value of a
    fulfilled promise, rethrows a rejection and waits for ever on a
    pending one. *)
#[export] Instance Promise_bind : MBind Promise := fun A B k p =>
  match p with
  | Pending => Pending
  | Fulfilled a => k a
  | Rejected m => Rejected m
  end.

(** ** The JavaScript values the worker computes with *)

Module JS.

(** IEEE doubles: NaN, the infinities, and the finite ones, each held as
    the rational it is.  (A rational that is no double stands for the
    double nearest to it, see [double].) *)
Inductive number : Type :=
| NaN
| NegInf
| Fin (q : Q)
| PosInf.

Definition of_Z (z : Z) : number := Fin (inject_Z z).

(** The same number, up to the representation of the fraction. *)
Definition same (a b : number) : Prop :=
  match a, b with
  | NaN, NaN | NegInf, NegInf | PosInf, PosInf => True
  | Fin p, Fin q => (p == q)%Q
  | _, _ => False
  end.

(** [a < b]: false as soon as an operand is NaN. *)
Definition lt (a b : number) : bool :=
  match a, b with
  | NaN, _ | _, NaN => false
  | _, NegInf => false
  | NegInf, _ => true
  | PosInf, _ => false
  | Fin _, PosInf => true
  | Fin p, Fin q => negb (Qle_bool q p)
  end.

(** [a <= b] *)
Definition le (a b : number) : bool :=
  match a, b with
  | NaN, _ | _, NaN => false
  | NegInf, _ => true
  | _, PosInf => true
  | _, NegInf => false
  | PosInf, _ => false
  | Fin p, Fin q => Qle_bool p q
  end.

(** [a > b] and [a >= b] are [b < a] and [b <= a]. *)
Definition gt (a b : number) : bool := lt b a.
Definition ge (a b : number) : bool := le b a.

(** -1, 0 or 1: the sign of a rational. *)
Definition sgn (q : Q) : Z := Z.sgn (Qnum q).

Definition signed_inf (s : Z) : number :=
  match s with
  | Z0 => NaN
  | Zpos _ => PosInf
  | Zneg _ => NegInf
  end.

(** *** Rounding to a double *)

(** [2 ^ e] for [e >= 0], and 1 below. *)
Definition pow2 (e : Z) : Z := 2 ^ Z.max 0 e.

(** The [e] with [2^e <= n/d < 2^(e+1)], for positive [n] and [d]. *)
Definition exponent (n d : Z) : Z :=
  let e := Z.log2 n - Z.log2 d in
  if d * pow2 e <=? n * pow2 (- e) then e else e - 1.

(** [m * 2^u] *)
Definition scaled (m u : Z) : Q :=
  if 0 <=? u then inject_Z (m * 2 ^ u) else Qmake m (Z.to_pos (2 ^ (- u))).

(** The integer nearest to [num / den], a tie going to the even one. *)
Definition nearest_even (num den : Z) : Z :=
  let k := num / den in
  let r := num mod den in
  if (2 * r <? den) || ((2 * r =? den) && Z.even k) then k else k + 1.

(** The exponent of the last place of the doubles around [n/d]: 52 below
    the exponent of [n/d], and never below -1074. *)
Definition last_place (n d : Z) : Z := Z.max (exponent n d - 52) (-1074).

(** The significand [n/d] is rounded to: the whole number of units of the
    last place nearest to it, a tie going to the even one. *)
Definition significand (n d : Z) : Z :=
  nearest_even (n * pow2 (- last_place n d)) (d * pow2 (last_place n d)).

(** The value [n/d] is rounded to, overflow apart. *)
Definition rounded (n d : Z) : Q :=
  (inject_Z (significand n d) * 2 ^ last_place n d)%Q.

(** The double nearest to [q]: the significand times the unit of the last
    place, and an infinity from 2^1024 on.  A [q] that is a double is
    handed back as it is written. *)
Definition binary64 (q : Q) : number :=
  let n := Z.abs (Qnum q) in
  let d := Zpos (Qden q) in
  if n =? 0 then Fin q
  else
    let u := last_place n d in
    let m := significand n d in
    if Qle_bool (inject_Z (2 ^ 1024)) (scaled m u)
    then (if 0 <? Qnum q then PosInf else NegInf)
    else if (n * pow2 (- u)) mod (d * pow2 u) =? 0 then Fin q
    else Fin (scaled (Z.sgn (Qnum q) * m) u).

(** A number as the double it stands for: a double is itself, and a
    rational that is none, such as the 0.1 of a JSON text, is read as the
    double nearest to it.  The operations below read their operands so. *)
Definition double (a : number) : number :=
  match a with
  | Fin q => binary64 q
  | _ => a
  end.

(** [a * b] *)
Definition mul (a b : number) : number :=
  match double a, double b with
  | NaN, _ | _, NaN => NaN
  | Fin p, Fin q => binary64 (p * q)
  | Fin p, PosInf | PosInf, Fin p => signed_inf (sgn p)
  | Fin p, NegInf | NegInf, Fin p => signed_inf (- sgn p)
  | PosInf, PosInf | NegInf, NegInf => PosInf
  | PosInf, NegInf | NegInf, PosInf => NegInf
  end.

(** [a / b].  A zero divisor counts as +0. *)
Definition div (a b : number) : number :=
  match double a, double b with
  | NaN, _ | _, NaN => NaN
  | Fin p, Fin q =>
      if Qeq_bool q 0 then signed_inf (sgn p) else binary64 (p / q)
  | Fin _, (PosInf | NegInf) => Fin 0
  | PosInf, Fin q => if Qle_bool 0 q then PosInf else NegInf
  | NegInf, Fin q => if Qle_bool 0 q then NegInf else PosInf
  | (PosInf | NegInf), (PosInf | NegInf) => NaN
  end.

(** [a + b] *)
Definition add (a b : number) : number :=
  match double a, double b with
  | NaN, _ | _, NaN => NaN
  | Fin p, Fin q => binary64 (p + q)
  | PosInf, NegInf | NegInf, PosInf => NaN
  | PosInf, _ | _, PosInf => PosInf
  | NegInf, _ | _, NegInf => NegInf
  end.

(** [Math.floor] *)
Definition Math_floor (a : number) : number :=
  match double a with
  | Fin q => of_Z (Qfloor q)
  | other => other
  end.

(** [Math.round]: the nearest integer, a tie going towards +Infinity.
    (The floor is taken of the exact sum, not of a rounded one.) *)
Definition Math_round (a : number) : number :=
  match double a with
  | Fin q => of_Z (Qfloor (q + (1 # 2))%Q)
  | other => other
  end.

(** [Math.min] and [Math.max] of two arguments: NaN if either is. *)
Definition Math_min (a b : number) : number :=
  match a, b with
  | NaN, _ | _, NaN => NaN
  | _, _ => if le a b then a else b
  end.

Definition Math_max (a b : number) : number :=
  match a, b with
  | NaN, _ | _, NaN => NaN
  | _, _ => if le a b then b else a
  end.

(** *** Strings as numbers *)

(** StrWhiteSpaceChar, as UTF-8 takes it: TAB, LF, VT, FF, CR and SP in
    one byte; U+00A0 in two; U+1680, U+2000 to U+200A, U+2028, U+2029,
    U+202F, U+205F, U+3000 and U+FEFF in three. *)
Definition byte (c : ascii) : Z := Z.of_N (N_of_ascii c).

Definition is_whitespace (c : ascii) : bool := Ascii.is_space c.

Definition is_whitespace2 (c1 c2 : ascii) : bool :=
  (byte c1 =? 194) && (byte c2 =? 160).

Definition is_whitespace3 (c1 c2 c3 : ascii) : bool :=
  let a := byte c1 in
  let b := byte c2 in
  let c := byte c3 in
  ((a =? 225) && (b =? 154) && (c =? 128))
  || ((a =? 226) && (b =? 128)
      && (((128 <=? c) && (c <=? 138)) || (c =? 168) || (c =? 169) || (c =? 175)))
  || ((a =? 226) && (b =? 129) && (c =? 159))
  || ((a =? 227) && (b =? 128) && (c =? 128))
  || ((a =? 239) && (b =? 187) && (c =? 191)).

(** [s] without the white space it starts with, or, on a string written
    backwards, the white space the original ends with. *)
Fixpoint skip_whitespace (backwards : bool) (s : string) : string :=
  match s with
  | String c1 r1 =>
      if is_whitespace c1 then skip_whitespace backwards r1
      else
        match r1 with
        | String c2 r2 =>
            if (if backwards then is_whitespace2 c2 c1 else is_whitespace2 c1 c2)
            then skip_whitespace backwards r2
            else
              match r2 with
              | String c3 r3 =>
                  if (if backwards then is_whitespace3 c3 c2 c1
                      else is_whitespace3 c1 c2 c3)
                  then skip_whitespace backwards r3
                  else s
              | EmptyString => s
              end
        | EmptyString => s
        end
  | EmptyString => s
  end.

Definition trim_start (s : string) : string := skip_whitespace false s.

Definition trim (s : string) : string :=
  String.rev (skip_whitespace true (String.rev (trim_start s))).

(** The value of a digit in the given radix, if it is one. *)
Definition digit_value (radix : Z) (c : ascii) : option Z :=
  let n := Z.of_nat (nat_of_ascii c) in
  let v :=
    if (48 <=? n) && (n <=? 57) then Some (n - 48)
    else if (97 <=? n) && (n <=? 122) then Some (n - 87)
    else if (65 <=? n) && (n <=? 90) then Some (n - 55)
    else None in
  match v with
  | Some d => if d <? radix then Some d else None
  | None => None
  end.

(** Reads digits from the front of [s]: the value read on top of [acc],
    how many digits were read, and what follows them. *)
Fixpoint read_digits (radix : Z) (acc : Z) (count : nat) (s : string)
  : Z * nat * string :=
  match s with
  | String c rest =>
      match digit_value radix c with
      | Some d => read_digits radix (acc * radix + d) (S count) rest
      | None => (acc, count, s)
      end
  | EmptyString => (acc, count, s)
  end.

(** An optional sign: 1 or -1, and what follows it. *)
Definition read_sign (s : string) : Z * string :=
  match s with
  | String "-" rest => (-1, rest)
  | String "+" rest => (1, rest)
  | _ => (1, s)
  end.

(** [parseInt(string, 10)]: leading white space, an optional sign, then
    the longest run of decimal digits; whatever follows is ignored, and
    no digit at all gives NaN. *)
Definition parseInt10 (s : string) : number :=
  let '(sign, body) := read_sign (trim_start s) in
  let '(value, count, _) := read_digits 10 0 0 body in
  match count with
  | O => NaN
  | S _ => binary64 (inject_Z (sign * value))
  end.

(** A whole string of digits in [radix] (after the prefix 0x, 0o, 0b). *)
Definition radix_literal (radix : Z) (s : string) : number :=
  match read_digits radix 0 0 s with
  | (value, S _, EmptyString) => binary64 (inject_Z value)
  | _ => NaN
  end.

(** StrUnsignedDecimalLiteral: digits with an optional fraction and an
    optional exponent, all of [s]. *)
Definition decimal_literal (s : string) : option Q :=
  let '(int, n_int, after_int) := read_digits 10 0 0 s in
  let '(mantissa, n_frac, after_frac) :=
    match after_int with
    | String "." rest =>
        let '(m, n, r) := read_digits 10 int 0 rest in (m, n, r)
    | _ => (int, O, after_int)
    end in
  match (n_int + n_frac)%nat with
  | O => None
  | S _ =>
      let scaled e := Some (inject_Z mantissa * Qpower 10 (e - Z.of_nat n_frac))%Q in
      match after_frac with
      | EmptyString => scaled 0
      | String c rest =>
          if Ascii.eqb c "e" || Ascii.eqb c "E" then
            let '(esign, digits) := read_sign rest in
            match read_digits 10 0 0 digits with
            | (e, S _, EmptyString) => scaled (esign * e)
            | _ => None
            end
          else None
      end
  end.

(** StringToNumber: the value [Number] gives a string. *)
Definition StringToNumber (s : string) : number :=
  match trim s with
  | EmptyString => of_Z 0
  | String "0" (String ("x" | "X") digits) => radix_literal 16 digits
  | String "0" (String ("o" | "O") digits) => radix_literal 8 digits
  | String "0" (String ("b" | "B") digits) => radix_literal 2 digits
  | literal =>
      let '(sign, body) := read_sign literal in
      if String.eqb body "Infinity" then signed_inf sign
      else match decimal_literal body with
           | Some q => binary64 (inject_Z sign * q)
           | None => NaN
           end
  end.

(** [a || b] on strings: [b] when [a] is undefined, null or empty. *)
Definition or_else (a : option string) (b : string) : string :=
  match a with
  | Some (String _ _ as s) => s
  | _ => b
  end.

(** A field typed [string | number]. *)
Inductive value : Type :=
| VNumber (n : number)
| VString (s : string).

(** [Number(v)] *)
Definition Number (v : value) : number :=
  match v with
  | VNumber n => n
  | VString s => StringToNumber s
  end.

End JS.

Declare Scope js_scope.
Delimit Scope js_scope with js.
Bind Scope js_scope with JS.number.
Notation "a * b" := (JS.mul a b) : js_scope.
Notation "a / b" := (JS.div a b) : js_scope.
Notation "a + b" := (JS.add a b) : js_scope.
Notation "a <? b" := (JS.lt a b) : js_scope.
Notation "a <=? b" := (JS.le a b) : js_scope.
Notation "a >? b" := (JS.gt a b) : js_scope.
Notation "a >=? b" := (JS.ge a b) : js_scope.
Coercion JS.of_Z : Z >-> JS.number.

(** ** Clock readings and their two texts *)

Module Time.

(** A clock reading: milliseconds since 1970-01-01T00:00:00Z. *)
Definition instant := Z.

Definition ms_per_hour : Z := 3600000.
Definition ms_per_day : Z := 86400000.

Record civil : Type := {
  year : Z; month : Z; day : Z;
  hour : Z; minute : Z; second : Z; millisecond : Z
}.

(** The proleptic Gregorian date of a day number (days since the epoch),
    by the usual era arithmetic on years that start in March. *)
Definition date_of_days (days : Z) : Z * Z * Z :=
  let z := days + 719468 in
  let era := z / 146097 in
  let doe := z - era * 146097 in
  let yoe := (doe - doe / 1460 + doe / 36524 - doe / 146096) / 365 in
  let doy := doe - (365 * yoe + yoe / 4 - yoe / 100) in
  let mp := (5 * doy + 2) / 153 in
  let d := doy - (153 * mp + 2) / 5 + 1 in
  let m := if mp <? 10 then mp + 3 else mp - 9 in
  let y := yoe + era * 400 in
  (if m <=? 2 then y + 1 else y, m, d).

Definition civil_of (t : instant) : civil :=
  let '(y, m, d) := date_of_days (t / ms_per_day) in
  let r := t mod ms_per_day in
  {| year := y; month := m; day := d;
     hour := r / ms_per_hour;
     minute := (r / 60000) mod 60;
     second := (r / 1000) mod 60;
     millisecond := r mod 1000 |}.

(** The last [width] decimal digits of [n], zero padded. *)
Fixpoint digits (width : nat) (n : Z) : string :=
  match width with
  | O => ""
  | S w => digits w (n / 10) +:+ String (ascii_of_nat (48 + Z.to_nat (n mod 10))) ""
  end.

(** [new Date(t).toISOString()]: YYYY-MM-DDTHH:mm:ss.sssZ.  (Years
    outside 0000..9999, which JavaScript writes with six digits and a
    sign, are not represented.) *)
Definition toISOString (t : instant) : string :=
  let c := civil_of t in
  digits 4 (year c) +:+ "-" +:+ digits 2 (month c) +:+ "-" +:+ digits 2 (day c)
  +:+ "T" +:+ digits 2 (hour c) +:+ ":" +:+ digits 2 (minute c)
  +:+ ":" +:+ digits 2 (second c) +:+ "." +:+ digits 3 (millisecond c) +:+ "Z".

(** SQLite's [datetime(t)]: YYYY-MM-DD HH:MM:SS, the fraction of the
    second cut off. *)
Definition datetime (t : instant) : string :=
  let c := civil_of t in
  digits 4 (year c) +:+ "-" +:+ digits 2 (month c) +:+ "-" +:+ digits 2 (day c)
  +:+ " " +:+ digits 2 (hour c) +:+ ":" +:+ digits 2 (minute c)
  +:+ ":" +:+ digits 2 (second c).

End Time.

(** ** The database: [schema.sql] and the statements run against it *)

Module D1.
Import JS.

(** A row of [occupancy].  Every column is NOT NULL, so the numeric ones
    hold finite numbers. *)
Record Row : Type := {
  id : Z;
  timestamp : string;
  pool_id : string;
  pool_name : string;
  current_fill : Q;
  max_capacity : Q;
  occupancy_percent : Q;
  occupancy_level : Q
}.

(** The table, the largest rowid handed out so far (AUTOINCREMENT), and
    the error with which the database currently fails every statement,
    if it does. *)
Record D1Database : Type := {
  occupancy : list Row;
  last_rowid : Z;
  outage : option string
}.

(** The values bound to the seven [?] of the INSERT. *)
Record Insert : Type := {
  bind_timestamp : string;
  bind_pool_id : string;
  bind_pool_name : string;
  bind_current_fill : number;
  bind_max_capacity : number;
  bind_occupancy_percent : number;
  bind_occupancy_level : number
}.

(** A bound number reaches SQLite as a number when it is finite; NaN and
    the infinities travel as JSON [null] and arrive as NULL. *)
Definition sql_number (n : number) : option Q :=
  match n with
  | Fin q => Some q
  | _ => None
  end.

(** One INSERT: the row it adds, or nothing when a NOT NULL column would
    receive NULL. *)
Definition insert_row (rowid : Z) (b : Insert) : option Row :=
  fill ← sql_number (bind_current_fill b);
  capacity ← sql_number (bind_max_capacity b);
  percent ← sql_number (bind_occupancy_percent b);
  level ← sql_number (bind_occupancy_level b);
  Some {| id := rowid;
          timestamp := bind_timestamp b;
          pool_id := bind_pool_id b;
          pool_name := bind_pool_name b;
          current_fill := fill;
          max_capacity := capacity;
          occupancy_percent := percent;
          occupancy_level := level |}.

Fixpoint insert_rows (rowid : Z) (batch : list Insert) : option (list Row) :=
  match batch with
  | [] => Some []
  | b :: rest =>
      row ← insert_row (rowid + 1) b;
      rows ← insert_rows (rowid + 1) rest;
      Some (row :: rows)
  end.

(** [db.batch(batch)] of INSERT statements: one transaction, so either
    every row is added or the table is left as it was. *)
Definition batch (db : D1Database) (statements : list Insert)
  : Promise unit * D1Database :=
  match outage db with
  | Some error => (Rejected error, db)
  | None =>
      match insert_rows (last_rowid db) statements with
      | None => (Rejected "D1_ERROR: NOT NULL constraint failed", db)
      | Some rows =>
          (Fulfilled (),
           {| occupancy := occupancy db ++ rows;
              last_rowid := last_rowid db + Z.of_nat (length statements);
              outage := None |})
      end
  end.

(** [SELECT MAX(timestamp) FROM occupancy]: NULL on an empty table. *)
Definition max_timestamp (table : list Row) : option string :=
  foldr (fun row best =>
           match best with
           | Some t => Some (if bool_decide (String.le t (timestamp row))
                             then timestamp row else t)
           | None => Some (timestamp row)
           end) None table.

Definition by_pool_name (a b : Row) : Prop := String.le (pool_name a) (pool_name b).
Definition by_timestamp (a b : Row) : Prop := String.le (timestamp a) (timestamp b).

#[export] Instance by_pool_name_dec : RelDecision by_pool_name :=
  fun a b => decide (String.le (pool_name a) (pool_name b)).
#[export] Instance by_timestamp_dec : RelDecision by_timestamp :=
  fun a b => decide (String.le (timestamp a) (timestamp b)).

(** [SELECT * FROM occupancy
     WHERE timestamp = (SELECT MAX(timestamp) FROM occupancy)
     ORDER BY pool_name].
    (Rows with equal names come out in the order the sort leaves them;
    SQLite promises no particular one.) *)
Definition select_latest (db : D1Database) : Promise (list Row) :=
  match outage db with
  | Some error => Rejected error
  | None =>
      Fulfilled
        (merge_sort by_pool_name
           (filter (fun row => Some (timestamp row) = max_timestamp (occupancy db))
              (occupancy db)))
  end.

(** [datetime('now', '-' || ? || ' hours')]: the text of the instant that
    many hours before [now]; NULL when the bound value is NULL or the
    modifier does not read as one (a negative value gives two signs). *)
Definition hours_ago (now : Time.instant) (hours : number) : option string :=
  q ← sql_number hours;
  if Qle_bool 0 q
  then Some (Time.datetime (now - Qfloor (q * inject_Z Time.ms_per_hour + (1 # 2))%Q))
  else None.

(** [SELECT * FROM occupancy
     WHERE timestamp >= datetime('now', '-' || ? || ' hours')
       AND (pool_id = ? OR ? IS NULL)
     ORDER BY timestamp ASC].
    Compared with NULL, no row qualifies. *)
Definition select_history (db : D1Database) (now : Time.instant)
    (hours : number) (pool : option string) : Promise (list Row) :=
  match outage db with
  | Some error => Rejected error
  | None =>
      match hours_ago now hours with
      | None => Fulfilled []
      | Some since =>
          Fulfilled
            (merge_sort by_timestamp
               (filter (fun row =>
                          String.le since (timestamp row)
                          ∧ (pool = None ∨ pool = Some (pool_id row)))
                  (occupancy db)))
      end
  end.

(** [datetime('now', '-90 days')] *)
Definition days_ago_90 (now : Time.instant) : string :=
  Time.datetime (now - 90 * Time.ms_per_day).

(** [timestamp < datetime('now', '-90 days')], on TEXT. *)
Definition expired (now : Time.instant) (row : Row) : Prop :=
  String.le (timestamp row) (days_ago_90 now) ∧ timestamp row ≠ days_ago_90 now.

#[export] Instance expired_dec now row : Decision (expired now row).
Proof. unfold expired. apply _. Defined.

(** [DELETE FROM occupancy WHERE timestamp < datetime('now', '-90 days')],
    with [meta.changes], the number of rows deleted. *)
Definition delete_old (db : D1Database) (now : Time.instant)
  : Promise Z * D1Database :=
  match outage db with
  | Some error => (Rejected error, db)
  | None =>
      (Fulfilled (Z.of_nat (length (filter (expired now) (occupancy db)))),
       {| occupancy := filter (fun row => ¬ expired now row) (occupancy db);
          last_rowid := last_rowid db;
          outage := None |})
  end.

End D1.

(** ** [scraper.ts]: the ingestion connector *)

Module Scraper.
Import JS.

(** Pool name mapping, in the order the object literal lists it. *)
Definition POOLS : list (string * string) := [
  ("SSD-4", "Hallenbad City");
  ("SSD-7", "Hallenbad Oerlikon");
  ("SSD-10", "Utoquai");
  ("SSD-6", "Leimbach");
  ("fb012", "Heuried");
  ("BADI-1", "Enge")
].

(** [POOLS[key]] for an own key of the object. *)
Definition POOLS_get (key : string) : option string :=
  (list_to_map POOLS : gmap string string) !! key.

(** [new Set(Object.keys(POOLS))] *)
Definition TRACKED_POOL_IDS : gset string := list_to_set POOLS.*1.

(** Raw data shape from the CrowdMonitor WebSocket API. *)
Record CrowdMonitorEntry : Type := {
  uid : string;
  maxspace : value;
  currentfill : value
}.

(** Processed pool record ready for D1 insertion. *)
Record PoolRecord : Type := {
  timestamp : string;
  pool_id : string;
  pool_name : string;
  current_fill : number;
  max_capacity : number;
  occupancy_percent : number;
  occupancy_level : number
}.

(** [calculateOccupancyLevel(currentFill, maxCapacity)] *)
Definition calculateOccupancyLevel (currentFill maxCapacity : number) : number :=
  if (maxCapacity <=? 0)%js || (currentFill <? 0)%js then of_Z 0
  else
    let ratio := (currentFill / maxCapacity)%js in
    Math_min 4 (Math_floor ((ratio * 100) / 25) + 1)%js.

(** The callback of [.map]: one tracked entry to its record. *)
Definition toRecord (timestamp : string) (entry : CrowdMonitorEntry) : PoolRecord :=
  let currentFill := Number (currentfill entry) in
  let maxCapacity := Number (maxspace entry) in
  {| timestamp := timestamp;
     pool_id := uid entry;
     pool_name := or_else (POOLS_get (uid entry)) (uid entry);
     current_fill := currentFill;
     max_capacity := maxCapacity;
     occupancy_percent :=
       if (maxCapacity >? 0)%js
       then (Math_round ((currentFill / maxCapacity) * 10000) / 100)%js
       else of_Z 0;
     occupancy_level := calculateOccupancyLevel currentFill maxCapacity |}.

(** [data.filter(...).map(...)] *)
Definition toRecords (timestamp : string) (data : list CrowdMonitorEntry)
  : list PoolRecord :=
  map (toRecord timestamp)
    (filter (fun entry => uid entry ∈ TRACKED_POOL_IDS) data).

(** *** The channel *)

(** What [JSON.parse] and the traversal make of a message: an exception
    (text that is not JSON, or JSON of another shape than an array of
    entries), or the entries. *)
Inductive payload : Type :=
| Malformed (error : string)
| Entries (data : list CrowdMonitorEntry).

Inductive ws_event : Type :=
| MessageEvent (data : payload)
| ErrorEvent (description : string)
| CloseEvent.

(** What the provider does with one call: [fetch] fails, or answers
    without upgrading, or upgrades and then delivers events, each at the
    clock reading given, in this order. *)
Inductive upstream : Type :=
| Unreachable (error : string)
| NotUpgraded
| Upgraded (events : list (Time.instant * ws_event)).

(** The promise under construction and the socket it drives. *)
Record Call : Type := {
  outcome : Promise (list PoolRecord);
  closed : bool;
  timeout_armed : bool;
  send_armed : bool;
  sent : list string
}.

(** [resolve] and [reject]: only the first of them counts. *)
Definition settle (result : Promise (list PoolRecord)) (c : Call) : Call :=
  match outcome c with
  | Pending =>
      {| outcome := result; closed := closed c; timeout_armed := timeout_armed c;
         send_armed := send_armed c; sent := sent c |}
  | _ => c
  end.

(** [ws.close()] *)
Definition ws_close (c : Call) : Call :=
  {| outcome := outcome c; closed := true; timeout_armed := timeout_armed c;
     send_armed := send_armed c; sent := sent c |}.

(** [clearTimeout(timeout)] *)
Definition clearTimeout (c : Call) : Call :=
  {| outcome := outcome c; closed := closed c; timeout_armed := false;
     send_armed := send_armed c; sent := sent c |}.

Definition timeout_error : string := "WebSocket timeout after 10s".

(** The 10 s timer fires: [ws.close(); reject(...)]. *)
Definition on_timeout (c : Call) : Call :=
  settle (Rejected timeout_error) (ws_close (clearTimeout c)).

(** The 500 ms timer fires: [ws.send('all')], which throws, inside the
    timer callback, on a socket that is closed. *)
Definition on_send (c : Call) : Call :=
  {| outcome := outcome c; closed := closed c; timeout_armed := timeout_armed c;
     send_armed := false;
     sent := if closed c then sent c else sent c ++ ["all"] |}.

(** The [message] listener, run at clock reading [now]. *)
Definition on_message (now : Time.instant) (data : payload) (c : Call) : Call :=
  let c := clearTimeout c in
  match data with
  | Entries data =>
      let timestamp := Time.toISOString now in
      let records := toRecords timestamp data in
      settle (Fulfilled records) (ws_close c)
  | Malformed err =>
      settle (Rejected err) (ws_close c)
  end.

(** The [error] listener. *)
Definition on_error (description : string) (c : Call) : Call :=
  settle (Rejected ("WebSocket error: " +:+ description)) (clearTimeout c).

Definition dispatch (now : Time.instant) (e : ws_event) (c : Call) : Call :=
  match e with
  | MessageEvent data => on_message now data c
  | ErrorEvent description => on_error description c
  | CloseEvent => c
  end.

(** The timers that are due at [now] fire, the earlier one first. *)
Definition timers (start now : Time.instant) (c : Call) : Call :=
  let c := if send_armed c && (start + 500 <=? now) then on_send c else c in
  if timeout_armed c && (start + 10000 <=? now) then on_timeout c else c.

(** The event loop: before an event is dispatched the timers due by then
    have fired; when the events are over, time passes and the timers
    still armed fire. *)
Fixpoint run (start : Time.instant) (events : list (Time.instant * ws_event))
    (c : Call) : Call :=
  match events with
  | (now, e) :: rest => run start rest (dispatch now e (timers start now c))
  | [] => timers start (start + 10000) c
  end.

(** [fetchFromWebSocket()], called at clock reading [start]. *)
Definition fetchFromWebSocket (start : Time.instant) (up : upstream) : Call :=
  let idle result :=
    {| outcome := result; closed := false; timeout_armed := false;
       send_armed := false; sent := [] |} in
  match up with
  | Unreachable error => idle (Rejected error)
  | NotUpgraded => idle (Rejected "WebSocket upgrade failed")
  | Upgraded events =>
      run start events
        {| outcome := Pending; closed := false; timeout_armed := true;
           send_armed := true; sent := [] |}
  end.

(** *** Storing *)

Inductive log_line : Type :=
| NoPoolData
| Stored (count : Z) (timestamp : string)
| CleanedUp (changes : Z).

(** A call that touches the database: what it returns, the database it
    leaves, and what it wrote with [console.log]. *)
Record Run (A : Type) : Type := {
  returned : Promise A;
  database : D1.D1Database;
  console : list log_line
}.
Arguments returned {A} _.
Arguments database {A} _.
Arguments console {A} _.

(** [stmt.bind(r.timestamp, ..., r.occupancy_level)] *)
Definition bind_record (r : PoolRecord) : D1.Insert :=
  {| D1.bind_timestamp := timestamp r;
     D1.bind_pool_id := pool_id r;
     D1.bind_pool_name := pool_name r;
     D1.bind_current_fill := current_fill r;
     D1.bind_max_capacity := max_capacity r;
     D1.bind_occupancy_percent := occupancy_percent r;
     D1.bind_occupancy_level := occupancy_level r |}.

(** [scrapeAndStore(db)] *)
Definition scrapeAndStore (db : D1.D1Database) (start : Time.instant)
    (up : upstream) : Run Z :=
  match outcome (fetchFromWebSocket start up) with
  | Pending => {| returned := Pending; database := db; console := [] |}
  | Rejected error => {| returned := Rejected error; database := db; console := [] |}
  | Fulfilled records =>
      match records with
      | [] => {| returned := Fulfilled 0; database := db; console := [NoPoolData] |}
      | first :: _ =>
          match D1.batch db (map bind_record records) with
          | (Fulfilled _, db') =>
              {| returned := Fulfilled (Z.of_nat (length records));
                 database := db';
                 console := [Stored (Z.of_nat (length records)) (timestamp first)] |}
          | (Rejected error, db') =>
              {| returned := Rejected error; database := db'; console := [] |}
          | (Pending, db') =>
              {| returned := Pending; database := db'; console := [] |}
          end
      end
  end.

(** [cleanupOldData(db)], called at clock reading [now]. *)
Definition cleanupOldData (db : D1.D1Database) (now : Time.instant) : Run unit :=
  match D1.delete_old db now with
  | (Fulfilled changes, db') =>
      {| returned := Fulfilled ();
         database := db';
         console := if 0 <? changes then [CleanedUp changes] else [] |}
  | (Rejected error, db') =>
      {| returned := Rejected error; database := db'; console := [] |}
  | (Pending, db') =>
      {| returned := Pending; database := db'; console := [] |}
  end.

End Scraper.

(** ** [api.ts]: the query service *)

Module Api.
Import JS.

(** A value handed to [JSON.stringify]; the body of a JSON response is
    the text written for it. *)
#[local] Unset Elimination Schemes.
Inductive json : Type :=
| JNull
| JNumber (q : Q)
| JString (s : string)
| JArray (items : list json)
| JObject (members : list (string * json)).
#[local] Set Elimination Schemes.

Record Response : Type := {
  status : Z;
  headers : list (string * string);
  body : option json
}.

(** The parts of [new URL(request.url)] the router reads. *)
Record URL : Type := {
  pathname : string;
  searchParams : list (string * string)
}.

Record Request : Type := {
  method : string;
  url : URL
}.

(** [searchParams.get(name)]: the first value given for [name]. *)
Fixpoint get (params : list (string * string)) (name : string) : option string :=
  match params with
  | (key, v) :: rest => if String.eqb key name then Some v else get rest name
  | [] => None
  end.

(** CORS headers for all API responses. *)
Definition CORS_HEADERS : list (string * string) := [
  ("Access-Control-Allow-Origin", "*");
  ("Access-Control-Allow-Methods", "GET, OPTIONS");
  ("Access-Control-Allow-Headers", "Content-Type")
].

(** [json(data, status)] *)
Definition json_response (data : json) (status : Z) : Response :=
  {| status := status;
     headers := ("Content-Type", "application/json") :: CORS_HEADERS;
     body := Some data |}.

(** [handleOptions()] *)
Definition handleOptions : Response :=
  {| status := 204; headers := CORS_HEADERS; body := None |}.

(** A result row as the object D1 returns for it. *)
Definition row_object (row : D1.Row) : json :=
  JObject [
    ("id", JNumber (inject_Z (D1.id row)));
    ("timestamp", JString (D1.timestamp row));
    ("pool_id", JString (D1.pool_id row));
    ("pool_name", JString (D1.pool_name row));
    ("current_fill", JNumber (D1.current_fill row));
    ("max_capacity", JNumber (D1.max_capacity row));
    ("occupancy_percent", JNumber (D1.occupancy_percent row));
    ("occupancy_level", JNumber (D1.occupancy_level row))
  ].

(** [handleCurrent(db)] *)
Definition handleCurrent (db : D1.D1Database) : Promise Response :=
  results ← D1.select_latest db;
  Fulfilled (json_response (JArray (map row_object results)) 200).

(** [parseInt(url.searchParams.get('hours') || '24', 10)] *)
Definition hours (u : URL) : number :=
  parseInt10 (or_else (get (searchParams u) "hours") "24").

(** [url.searchParams.get('pool') || null] *)
Definition pool (u : URL) : option string :=
  match get (searchParams u) "pool" with
  | Some (String _ _ as p) => Some p
  | _ => None
  end.

(** [Math.min(Math.max(hours, 1), 168 * 4)] *)
Definition clampedHours (u : URL) : number :=
  Math_min (Math_max (hours u) 1) (of_Z (168 * 4)).

(** [handleHistory(db, url)], called at clock reading [now]. *)
Definition handleHistory (db : D1.D1Database) (u : URL) (now : Time.instant)
  : Promise Response :=
  results ← D1.select_history db now (clampedHours u) (pool u);
  Fulfilled (json_response (JArray (map row_object results)) 200).

(** [handlePools()] *)
Definition handlePools : Response :=
  json_response
    (JArray
       (map (fun '(id, name) =>
               JObject [
                 ("pool_id", JString id);
                 ("pool_name", JString name);
                 ("type", JString (if bool_decide (id ∈ ["SSD-4"; "SSD-6"; "SSD-7"])
                                   then "indoor" else "outdoor"))
               ])
          Scraper.POOLS))
    200.

(** [handleRequest(request, db)], called at clock reading [now]. *)
Definition handleRequest (request : Request) (db : D1.D1Database)
    (now : Time.instant) : Promise Response :=
  if String.eqb (method request) "OPTIONS" then Fulfilled handleOptions
  else if negb (String.eqb (method request) "GET") then
    Fulfilled (json_response (JObject [("error", JString "Method not allowed")]) 405)
  else
    let u := url request in
    if String.eqb (pathname u) "/api/current" then handleCurrent db
    else if String.eqb (pathname u) "/api/history" then handleHistory db u now
    else if String.eqb (pathname u) "/api/pools" then Fulfilled handlePools
    else Fulfilled (json_response (JObject [("error", JString "Not found")]) 404).

End Api.

(** ** The notions the properties are stated with *)

Module Spec.
Import JS.

(** [min(4, floor(percent/25) + 1)], the level of a percentage. *)
Definition level_of_percent (percent : number) : number :=
  Math_min 4 (Math_floor (percent / 25) + 1)%js.

(** A row of the latest capture: no stored timestamp is above its own. *)
Definition latest (table : list D1.Row) (row : D1.Row) : Prop :=
  Forall (fun other => String.le (D1.timestamp other) (D1.timestamp row)) table.

(** While the promise of a call is pending its 10 s timer is armed. *)
Definition armed_while_pending (c : Scraper.Call) : Prop :=
  Scraper.outcome c = Pending -> Scraper.timeout_armed c = true.

(** A call that waits for its 10 s timer, or that the timer has ended. *)
Definition waiting_or_timed_out (c : Scraper.Call) : Prop :=
  (Scraper.outcome c = Pending /\ Scraper.timeout_armed c = true)
  \/ (Scraper.outcome c = Rejected Scraper.timeout_error /\ Scraper.closed c = true).

(** Not above zero: NaN, -Infinity, or a finite number that is at most 0;
    and not below zero. *)
Definition not_positive (a : number) : Prop :=
  match a with
  | Fin q => (q <= 0)%Q
  | PosInf => False
  | _ => True
  end.

Definition not_negative (a : number) : Prop :=
  match a with
  | Fin q => (0 <= q)%Q
  | NegInf => False
  | _ => True
  end.

(** [0 <= a <= b], neither being NaN. *)
Definition in_order (a b : number) : Prop :=
  (0 <=? a)%js = true /\ (a <=? b)%js = true.

(** A rational that is a double. *)
Definition is_double (q : Q) : Prop := binary64 q = Fin q.

(** The fill and the capacity of an entry, coerced to numbers. *)
Definition fill (entry : Scraper.CrowdMonitorEntry) : number :=
  Number (Scraper.currentfill entry).
Definition capacity (entry : Scraper.CrowdMonitorEntry) : number :=
  Number (Scraper.maxspace entry).

End Spec.

(** ** Inputs used in the examples *)

Module Sample.
Import JS.

(** An entry [{uid, maxspace, currentfill}] with whole numbers. *)
Definition entry (id : string) (capacity fill : Z) : Scraper.CrowdMonitorEntry :=
  {| Scraper.uid := id;
     Scraper.maxspace := VNumber capacity;
     Scraper.currentfill := VNumber fill |}.

(** 2024-04-14T12:00:00.000Z *)
Definition noon : Time.instant := 1713096000000.

Definition empty_db : D1.D1Database :=
  {| D1.occupancy := []; D1.last_rowid := 0; D1.outage := None |}.

Definition failing_db : D1.D1Database :=
  {| D1.occupancy := []; D1.last_rowid := 0;
     D1.outage := Some "D1_ERROR: no such table: occupancy" |}.

(** 2024-04-14T00:00:03.000Z, inside the daily cleanup window. *)
Definition midnight : Time.instant := 1713052803000.

(** A row captured at 2024-01-15T00:00:01.000Z. *)
Definition january_row : D1.Row :=
  {| D1.id := 1;
     D1.timestamp := Time.toISOString 1705276801000;
     D1.pool_id := "SSD-4";
     D1.pool_name := "Hallenbad City";
     D1.current_fill := 125;
     D1.max_capacity := 500;
     D1.occupancy_percent := 25;
     D1.occupancy_level := 2 |}.

Definition january_db : D1.D1Database :=
  {| D1.occupancy := [january_row]; D1.last_rowid := 1; D1.outage := None |}.

(** A row captured at 2024-04-14T12:00:00.700Z. *)
Definition april_row : D1.Row :=
  {| D1.id := 1;
     D1.timestamp := Time.toISOString (noon + 700);
     D1.pool_id := "SSD-4";
     D1.pool_name := "Hallenbad City";
     D1.current_fill := 125;
     D1.max_capacity := 500;
     D1.occupancy_percent := 2500 # 100;
     D1.occupancy_level := 2 |}.

Definition april_db : D1.D1Database :=
  {| D1.occupancy := [april_row]; D1.last_rowid := 1; D1.outage := None |}.

Definition GET (path : string) (query : list (string * string)) : Api.Request :=
  {| Api.method := "GET";
     Api.url := {| Api.pathname := path; Api.searchParams := query |} |}.

End Sample.

(** ** [index.ts]: the scheduled handler *)

Module Worker.
Import Scraper.

(** What the handler writes with [console.error]. *)
Inductive error_line : Type :=
| ScrapeFailed (message : string)
| CleanupFailed (message : string).

(** A tick of the cron trigger: the promise handed to [ctx.waitUntil], the
    database it leaves, and what it logged. *)
Record Tick : Type := {
  finished : Promise unit;
  store : D1.D1Database;
  logged : list log_line;
  errors : list error_line
}.

(** [hour === 0 && minute < 5], on [new Date(event.scheduledTime)] in UTC. *)
Definition cleanup_due (scheduledTime : Time.instant) : bool :=
  let hour := Time.hour (Time.civil_of scheduledTime) in
  let minute := Time.minute (Time.civil_of scheduledTime) in
  (hour =? 0) && (minute <? 5).

(** The [try { await cleanupOldData(env.DB) } catch ...] of a tick whose
    scrape has left [db] and logged [lines] and [failures]. *)
Definition cleanup_step (db : D1.D1Database) (now : Time.instant)
    (lines : list log_line) (failures : list error_line) : Tick :=
  let clean := cleanupOldData db now in
  match returned clean with
  | Pending =>
      {| finished := Pending; store := database clean;
         logged := lines ++ console clean; errors := failures |}
  | Fulfilled _ =>
      {| finished := Fulfilled (); store := database clean;
         logged := lines ++ console clean; errors := failures |}
  | Rejected error =>
      {| finished := Fulfilled (); store := database clean;
         logged := lines ++ console clean;
         errors := failures ++ [CleanupFailed error] |}
  end.

(** The function [scheduled] hands to [ctx.waitUntil]: the scrape, called
    at clock reading [start] against what the provider does, then, when
    due, the cleanup, called at clock reading [now]. *)
Definition scheduled (scheduledTime : Time.instant) (db : D1.D1Database)
    (start : Time.instant) (up : upstream) (now : Time.instant) : Tick :=
  let scrape := scrapeAndStore db start up in
  let continue failures :=
    if cleanup_due scheduledTime
    then cleanup_step (database scrape) now (console scrape) failures
    else {| finished := Fulfilled (); store := database scrape;
            logged := console scrape; errors := failures |} in
  match returned scrape with
  | Pending =>
      {| finished := Pending; store := database scrape;
         logged := console scrape; errors := [] |}
  | Fulfilled _ => continue []
  | Rejected error => continue [ScrapeFailed error]
  end.

End Worker.

(** ** The range of a history request *)

Module Query.

(** A row within [h] hours of [now], by the text comparison of the query,
    and of the pool [p] when one is asked for. *)
Definition in_range (now : Time.instant) (h : Z) (p : option string)
    (row : D1.Row) : Prop :=
  String.le (Time.datetime (now - h * Time.ms_per_hour)) (D1.timestamp row)
  /\ (p = None \/ p = Some (D1.pool_id row)).

End Query.

(** ** States of a call *)

Module Channel.
Import Scraper.

(** The connector has closed the socket, or the call has ended on a
    channel error, or it is still waiting with its deadline armed. *)
Definition closed_or_errored (c : Call) : Prop :=
  closed c = true
  \/ (exists description,
        outcome c = Rejected ("WebSocket error: " +:+ description))
  \/ (outcome c = Pending /\ timeout_armed c = true).

(** What the first event that counts makes of the call. *)
Definition verdict (now : Time.instant) (e : ws_event)
  : option (Promise (list PoolRecord)) :=
  match e with
  | MessageEvent (Entries data) =>
      Some (Fulfilled (toRecords (Time.toISOString now) data))
  | MessageEvent (Malformed error) => Some (Rejected error)
  | ErrorEvent description => Some (Rejected ("WebSocket error: " +:+ description))
  | CloseEvent => None
  end.

End Channel.

(** ** The primary key *)

Module Keys.

(** The ids of the table are distinct and none is above the largest rowid
    handed out. *)
Definition well_keyed (db : D1.D1Database) : Prop :=
  NoDup (map D1.id (D1.occupancy db))
  /\ Forall (fun row => D1.id row <= D1.last_rowid db) (D1.occupancy db).

End Keys.

(** ** The calendar, for the order of timestamps *)

Module Calendar.

(** A date as one number, YYYYMMDD. *)
Definition date_code (date : Z * Z * Z) : Z :=
  let '(y, m, d) := date in y * 10000 + m * 100 + d.

(** The date of the day [doe] of the 400-year era that starts on
    0000-03-01. *)
Definition era_date (doe : Z) : Z * Z * Z := Time.date_of_days (doe - 719468).

(** The year of the era of one of its days, and the first day of a year
    of the era, as [date_of_days] computes them. *)
Definition year_of_era (doe : Z) : Z :=
  (doe - doe / 1460 + doe / 36524 - doe / 146096) / 365.

Definition first_day (yoe : Z) : Z := 365 * yoe + yoe / 4 - yoe / 100.

(** The last day of a year of the era; the era ends on a leap day. *)
Definition last_day (yoe : Z) : Z :=
  if yoe =? 399 then 146096 else first_day (yoe + 1) - 1.

(** The month and the day of the month of a day of the year that starts
    in March. *)
Definition month_day (doy : Z) : Z * Z :=
  let mp := (5 * doy + 2) / 153 in
  (if mp <? 10 then mp + 3 else mp - 9, doy - (153 * mp + 2) / 5 + 1).

(** Month and day as MMDD, January and February counting as months of
    the next year. *)
Definition day_code (doy : Z) : Z :=
  let '(m, d) := month_day doy in
  (if m <=? 2 then 10000 else 0) + m * 100 + d.

(** The conversion finds the year of the first and of the last day of a
    year of the era, which has 365 or 366 days. *)
Definition year_ok (yoe : Z) : bool :=
  (year_of_era (first_day yoe) =? yoe) && (year_of_era (last_day yoe) =? yoe)
  && (first_day yoe <=? last_day yoe) && (last_day yoe <=? first_day yoe + 365).

(** A day of the year has a month and a day of the month in range, and
    the next day a later date. *)
Definition day_ok (doy : Z) : bool :=
  let '(m, d) := month_day doy in
  (1 <=? m) && (m <=? 12) && (1 <=? d) && (d <=? 31)
  && (301 <=? day_code doy) && (day_code doy <=? 10229)
  && ((doy =? 365) || (day_code doy <? day_code (doy + 1))).

(** The clock readings of the years 0000 to 9999, which [toISOString]
    and [datetime] write with four digits. *)
Definition four_digit_year (t : Time.instant) : Prop :=
  -62167219200000 <= t <= 253402300799999.

(** The day number of a clock reading. *)
Definition day_number (t : Time.instant) : Z := t / Time.ms_per_day.

End Calendar.

(** * Properties *)

Import JS.

(** ** Numbers *)

Section Numbers.
Implicit Types a b : number.

Lemma lt_not_le a b : (a <? b)%js = true -> (b <=? a)%js = false.
Proof.
  destruct a, b; simpl; try discriminate; try reflexivity.
  intros H. apply negb_true_iff in H. exact H.
Qed.

Lemma le_not_lt a b : (a <=? b)%js = true -> (b <? a)%js = false.
Proof.
  destruct a, b; simpl; try discriminate; try reflexivity.
  intros ->. reflexivity.
Qed.

Lemma lt_Fin (p q : Q) : (Fin p <? Fin q)%js = true <-> (p < q)%Q.
Proof.
  simpl. rewrite negb_true_iff, <- not_true_iff_false, Qle_bool_iff.
  split; [apply Qnot_le_lt | apply Qlt_not_le].
Qed.

Lemma le_Fin (p q : Q) : (Fin p <=? Fin q)%js = true <-> (p <= q)%Q.
Proof. simpl. apply Qle_bool_iff. Qed.

(** Rounding a rational below one half gives an integer that is not
    positive. *)
Lemma round_nonpos (x : Q) : (x < 1 # 2)%Q -> Qfloor (x + (1 # 2)) <= 0.
Proof.
  intros Hx.
  assert (inject_Z (Qfloor (x + (1 # 2))) < inject_Z 1)%Q as Hlt.
  { eapply Qle_lt_trans; [apply Qfloor_le |]. change (inject_Z 1) with 1%Q. lra. }
  rewrite <- Zlt_Qlt in Hlt. lia.
Qed.

(** *** Signs under rounding *)

Lemma scaled_sign (m u : Z) :
  (m <= 0 -> (scaled m u <= 0)%Q) /\ (0 <= m -> (0 <= scaled m u)%Q).
Proof.
  unfold scaled. destruct (0 <=? u) eqn:Hu.
  - apply Z.leb_le in Hu. pose proof (Z.pow_pos_nonneg 2 u ltac:(lia) Hu).
    unfold Qle, inject_Z; cbn [Qnum Qden]. split; nia.
  - unfold Qle; cbn [Qnum Qden]. split; lia.
Qed.

(** Rounding to a double never changes the side of zero. *)
Lemma binary64_signs (q : Q) :
  ((q <= 0)%Q -> Spec.not_positive (binary64 q))
  /\ ((0 <= q)%Q -> Spec.not_negative (binary64 q)).
Proof.
  destruct q as [n d]. unfold binary64; cbn [Qnum Qden].
  destruct (Z.abs n =? 0) eqn:Hzero; [split; intros H; exact H |].
  apply Z.eqb_neq in Hzero.
  assert (0 <= significand (Z.abs n) (Z.pos d)) as Hm.
  { unfold significand. set (u := last_place (Z.abs n) (Z.pos d)).
    assert (forall e, 0 < pow2 e) as Hpow
      by (intros e; apply Z.pow_pos_nonneg; lia).
    assert (0 <= Z.abs n * pow2 (- u) / (Z.pos d * pow2 u)).
    { apply Z.div_pos; [| specialize (Hpow u); nia].
      specialize (Hpow (- u)). nia. }
    unfold nearest_even. destruct (_ || _); lia. }
  set (m := significand (Z.abs n) (Z.pos d)) in *.
  destruct (Qle_bool _ _).
  - destruct (0 <? n) eqn:Hn; [apply Z.ltb_lt in Hn | apply Z.ltb_ge in Hn];
      unfold Qle; cbn; split; intros H; try exact I; lia.
  - destruct (_ =? 0); [split; intros H; exact H |].
    unfold Spec.not_positive, Spec.not_negative, Qle at 1 3; cbn [Qnum Qden].
    rewrite !Z.mul_1_r. split; intros H; apply scaled_sign; nia.
Qed.

Lemma double_signs a :
  (Spec.not_positive a -> Spec.not_positive (double a))
  /\ (Spec.not_negative a -> Spec.not_negative (double a)).
Proof.
  destruct a as [| | q |]; cbn [double]; try (split; intros H; exact H).
  apply binary64_signs.
Qed.

Lemma sgn_sign (q : Q) :
  ((q <= 0)%Q -> sgn q <= 0) /\ ((0 <= q)%Q -> 0 <= sgn q).
Proof.
  destruct q as [n d]. unfold sgn, Qle; cbn [Qnum Qden]. split; lia.
Qed.

Lemma signed_inf_sign (s : Z) :
  (s <= 0 -> Spec.not_positive (signed_inf s))
  /\ (0 <= s -> Spec.not_negative (signed_inf s)).
Proof. destruct s; cbn; split; intros H; try exact I; lia. Qed.

(** A product or a quotient of a number that is not positive by one that
    is not negative is not positive; so is such a number rounded to an
    integer. *)
Lemma mul_signs a b :
  Spec.not_positive a -> Spec.not_negative b -> Spec.not_positive (a * b)%js.
Proof.
  intros Ha Hb. apply double_signs in Ha. apply double_signs in Hb.
  unfold mul. destruct (double a) as [| | p |], (double b) as [| | q |];
    cbn in Ha, Hb |- *; try exact I; try contradiction.
  - apply signed_inf_sign. pose proof (proj2 (sgn_sign q) Hb). lia.
  - apply binary64_signs. nra.
  - apply signed_inf_sign, sgn_sign, Ha.
Qed.

Lemma div_signs a b :
  Spec.not_positive a -> Spec.not_negative b -> Spec.not_positive (a / b)%js.
Proof.
  intros Ha Hb. apply double_signs in Ha. apply double_signs in Hb.
  unfold div. destruct (double a) as [| | p |], (double b) as [| | q |];
    cbn in Ha, Hb |- *; try exact I; try contradiction.
  - apply Qle_bool_iff in Hb. rewrite Hb. exact I.
  - destruct (Qeq_bool q 0) eqn:Hq; [apply signed_inf_sign, sgn_sign, Ha |].
    apply binary64_signs. apply Qeq_bool_neq in Hq.
    unfold Qdiv. rewrite <- (Qmult_0_l (/ q)).
    apply Qmult_le_compat_r; [exact Ha | apply Qinv_le_0_compat, Hb].
  - apply Qle_refl.
Qed.

Lemma Math_round_sign a :
  Spec.not_positive a -> Spec.not_positive (Math_round a).
Proof.
  intros Ha. apply double_signs in Ha.
  unfold Math_round. destruct (double a) as [| | q |]; cbn in Ha |- *;
    try exact I; try contradiction.
  unfold Qle; cbn [Qnum Qden inject_Z]. rewrite !Z.mul_1_r.
  apply round_nonpos. lra.
Qed.

Lemma not_positive_gt a : Spec.not_positive a -> (a >? 0)%js = false.
Proof.
  destruct a as [| | q |]; cbn; try reflexivity; try contradiction.
  intros H. apply negb_false_iff, Qle_bool_iff, H.
Qed.

Lemma lt_0_not_positive a : (a <? 0)%js = true -> Spec.not_positive a.
Proof.
  destruct a as [| | q |]; cbn; try discriminate; try (intros _; exact I).
  intros H. apply negb_true_iff, not_true_iff_false in H.
  rewrite Qle_bool_iff in H. apply Qlt_le_weak, Qnot_le_lt, H.
Qed.

Lemma gt_0_not_negative a : (a >? 0)%js = true -> Spec.not_negative a.
Proof.
  destruct a as [| | q |]; cbn; try discriminate; try (intros _; exact I).
  intros H. apply negb_true_iff, not_true_iff_false in H.
  rewrite Qle_bool_iff in H. apply Qlt_le_weak, Qnot_le_lt, H.
Qed.

(** Strings as doubles.  A decimal text beyond the doubles is Infinity, one
    below them is zero, and 2^53 + 1 is read as 2^53; white space ahead of
    the digits is skipped, the no-break space U+00A0 included. *)
Example strings_as_doubles :
  StringToNumber "1e999" = PosInf
  /\ Spec.not_positive (StringToNumber "1e-400")
  /\ Spec.not_negative (StringToNumber "1e-400")
  /\ StringToNumber "9007199254740993" = of_Z 9007199254740992
  /\ parseInt10 (String "194" (String "160" "24")) = of_Z 24
  /\ parseInt10 " 24h" = of_Z 24.
Proof. vm_compute. repeat split; discriminate. Qed.

End Numbers.

(** ** The derived fields of a record *)

Section DerivedFields.
Import Scraper Spec.
Implicit Types (timestamp : string) (entry : CrowdMonitorEntry).

Lemma percent_unfold timestamp entry :
  occupancy_percent (toRecord timestamp entry)
  = if (capacity entry >? 0)%js
    then (Math_round ((fill entry / capacity entry) * 10000) / 100)%js
    else of_Z 0.
Proof. reflexivity. Qed.

Lemma level_unfold timestamp entry :
  occupancy_level (toRecord timestamp entry)
  = if (capacity entry <=? 0)%js || (fill entry <? 0)%js then of_Z 0
    else level_of_percent ((fill entry / capacity entry) * 100)%js.
Proof. reflexivity. Qed.

(** C1, as amended.  For every entry with capacity > 0 and fill >= 0 the
    level is min(4, floor(p/25) + 1) where p = (fill/capacity) * 100 is
    the percentage before any rounding; for every entry with
    capacity <= 0 or fill < 0 the level is 0. *)
Theorem C1_level_from_unrounded_percentage timestamp entry :
  ((capacity entry >? 0)%js = true -> (fill entry >=? 0)%js = true ->
     occupancy_level (toRecord timestamp entry)
     = level_of_percent ((fill entry / capacity entry) * 100)%js)
  /\ ((capacity entry <=? 0)%js = true \/ (fill entry <? 0)%js = true ->
        occupancy_level (toRecord timestamp entry) = of_Z 0).
Proof.
  rewrite level_unfold. split.
  - intros Hcap Hfill.
    rewrite (lt_not_le _ _ Hcap), (le_not_lt _ _ Hfill). reflexivity.
  - intros [-> | ->]; [reflexivity |]. rewrite orb_true_r. reflexivity.
Qed.

(** C4.  The percentage is round((fill/capacity) * 10000) / 100 when
    capacity > 0, and 0 when capacity <= 0, whatever the fill. *)
Theorem C4_occupancy_percent timestamp entry :
  ((capacity entry >? 0)%js = true ->
     occupancy_percent (toRecord timestamp entry)
     = (Math_round ((fill entry / capacity entry) * 10000) / 100)%js)
  /\ ((capacity entry <=? 0)%js = true ->
        occupancy_percent (toRecord timestamp entry) = of_Z 0).
Proof.
  split.
  - intros Hcap. rewrite percent_unfold, Hcap. reflexivity.
  - intros Hcap. rewrite percent_unfold. unfold gt.
    rewrite (le_not_lt _ _ Hcap). reflexivity.
Qed.

(** C10, as amended.  For every entry with capacity > 0 and fill < 0 the
    percentage is round((fill/capacity) * 10000) / 100, the rule for
    capacity <= 0 not applying; it is never positive (it can be zero);
    the level is 0. *)
Theorem C10_negative_fill timestamp entry :
  (capacity entry >? 0)%js = true -> (fill entry <? 0)%js = true ->
  occupancy_percent (toRecord timestamp entry)
  = (Math_round ((fill entry / capacity entry) * 10000) / 100)%js
  /\ (occupancy_percent (toRecord timestamp entry) >? 0)%js = false
  /\ occupancy_level (toRecord timestamp entry) = of_Z 0.
Proof.
  intros Hcap Hfill. split; [| split].
  - rewrite percent_unfold, Hcap. reflexivity.
  - rewrite percent_unfold, Hcap. apply not_positive_gt.
    apply div_signs; [| discriminate].
    apply Math_round_sign, mul_signs; [| discriminate].
    apply div_signs; [apply lt_0_not_positive, Hfill | apply gt_0_not_negative, Hcap].
  - rewrite level_unfold, Hfill, orb_true_r. reflexivity.
Qed.

(** C1, counterexample.  With fill 1250 and capacity 5001 the stored
    percentage is 25.00, whose level by the formula is 2, while the
    level derived is 1: the ratio itself, 24.995..%, is below 25. *)
Lemma C1_rounded_percent_gives_other_level :
  let entry := Sample.entry "SSD-4" 5001 1250 in
  let record := toRecord (Time.toISOString Sample.noon) entry in
  (capacity entry >? 0)%js = true
  /\ (fill entry >=? 0)%js = true
  /\ occupancy_percent record = Fin (2500 # 100)
  /\ level_of_percent (occupancy_percent record) = of_Z 2
  /\ occupancy_level record = of_Z 1
  /\ occupancy_level record <> level_of_percent (occupancy_percent record).
Proof. vm_compute. repeat split; discriminate. Qed.

Lemma C1_level_from_unrounded_percentage_witness :
  occupancy_level (toRecord "" (Sample.entry "SSD-4" 200 50)) = of_Z 2
  /\ occupancy_level (toRecord "" (Sample.entry "SSD-4" 0 50)) = of_Z 0.
Proof.
  split.
  - rewrite (proj1 (C1_level_from_unrounded_percentage "" (Sample.entry "SSD-4" 200 50)));
      reflexivity.
  - apply (proj2 (C1_level_from_unrounded_percentage "" (Sample.entry "SSD-4" 0 50))).
    left. reflexivity.
Defined.

Lemma C4_occupancy_percent_witness :
  occupancy_percent (toRecord "" (Sample.entry "SSD-4" 200 50)) = Fin (2500 # 100)
  /\ occupancy_percent (toRecord "" (Sample.entry "SSD-4" (-3) 50)) = of_Z 0.
Proof.
  split.
  - rewrite (proj1 (C4_occupancy_percent "" (Sample.entry "SSD-4" 200 50)));
      reflexivity.
  - apply (proj2 (C4_occupancy_percent "" (Sample.entry "SSD-4" (-3) 50))).
    reflexivity.
Defined.

(** C10, counterexample.  With fill -1 and capacity 40000 the percentage
    is round(-0.25) / 100, which is zero: it is not negative. *)
Lemma C10_small_negative_fill_rounds_to_zero :
  let entry := Sample.entry "SSD-4" 40000 (-1) in
  let record := toRecord (Time.toISOString Sample.noon) entry in
  (capacity entry >? 0)%js = true
  /\ (fill entry <? 0)%js = true
  /\ same (occupancy_percent record) (of_Z 0)
  /\ (occupancy_percent record <? 0)%js = false.
Proof. vm_compute. repeat split. Qed.

Lemma C10_negative_fill_witness :
  (occupancy_percent (toRecord "" (Sample.entry "SSD-4" 200 (-50))) >? 0)%js = false
  /\ occupancy_level (toRecord "" (Sample.entry "SSD-4" 200 (-50))) = of_Z 0.
Proof.
  exact (proj2 (C10_negative_fill "" (Sample.entry "SSD-4" 200 (-50)) eq_refl eq_refl)).
Defined.

(** Doubles at work.  With fill 57 and capacity 800 the ratio times 10000
    is 712.4999999999999, which rounds to 712: the percentage is 7.12, not
    the 7.13 of exact arithmetic.  With fill 0.6 and capacity 0.8 the
    ratio times 100 over 25 is 2.9999999999999996: the level is 3, not
    4. *)
Example percent_and_level_in_doubles :
  occupancy_percent (toRecord "" (Sample.entry "SSD-4" 800 57)) = (712 / 100)%js
  /\ occupancy_percent (toRecord "" (Sample.entry "SSD-4" 800 57)) <> (713 / 100)%js
  /\ occupancy_level
       (toRecord "" {| uid := "SSD-4"; maxspace := VString "0.8";
                       currentfill := VString "0.6" |})
     = of_Z 3.
Proof. vm_compute. repeat split. discriminate. Qed.

End DerivedFields.

(** ** The [hours] parameter *)

Section Hours.
Import Api.

Lemma le_of_Z (a b : Z) : (of_Z a <=? of_Z b)%js = (a <=? b)%Z.
Proof. unfold of_Z, le, Qle_bool. simpl. now rewrite !Z.mul_1_r. Qed.

Lemma Math_max_of_Z (a b : Z) : Math_max (of_Z a) (of_Z b) = of_Z (Z.max a b).
Proof.
  change (Math_max (of_Z a) (of_Z b))
    with (if (of_Z a <=? of_Z b)%js then of_Z b else of_Z a).
  rewrite le_of_Z. destruct (Z.leb_spec a b); f_equal; lia.
Qed.

Lemma Math_min_of_Z (a b : Z) : Math_min (of_Z a) (of_Z b) = of_Z (Z.min a b).
Proof.
  change (Math_min (of_Z a) (of_Z b))
    with (if (of_Z a <=? of_Z b)%js then of_Z a else of_Z b).
  rewrite le_of_Z. destruct (Z.leb_spec a b); f_equal; lia.
Qed.

(** [parseInt] gives NaN or the double nearest to a whole number. *)
Lemma parseInt10_cases (s : string) :
  parseInt10 s = NaN \/ exists z : Z, parseInt10 s = binary64 (inject_Z z).
Proof.
  unfold parseInt10.
  destruct (read_sign (trim_start s)) as [sign rest].
  destruct (read_digits 10 0 0 rest) as [[value count] tail].
  destruct count; [left | right; eexists]; reflexivity.
Qed.

(** Two numbers, neither NaN, compare one way or the other. *)
Lemma le_total a b : a <> NaN -> b <> NaN -> (a <=? b)%js = false -> (b <=? a)%js = true.
Proof.
  destruct a as [| | p |], b as [| | q |]; cbn; try congruence.
  intros _ _ H. apply not_true_iff_false in H. rewrite Qle_bool_iff in H.
  apply Qle_bool_iff, Qlt_le_weak, Qnot_le_lt, H.
Qed.

Lemma le_refl a : a <> NaN -> (a <=? a)%js = true.
Proof.
  destruct a as [| | p |]; cbn; try congruence. intros _. apply Qle_bool_iff, Qle_refl.
Qed.

(** Whenever [hours] reads as a number, the value bound to the query is
    that number clamped to [1, 672]. *)
Lemma clampedHours_numeric (u : URL) (z : Z) :
  hours u = of_Z z -> clampedHours u = of_Z (Z.min (Z.max z 1) 672).
Proof.
  intros H. unfold clampedHours. rewrite H.
  now rewrite Math_max_of_Z, Math_min_of_Z.
Qed.

(** A missing or empty [hours] is read as 24. *)
Lemma clampedHours_default (u : URL) :
  get (searchParams u) "hours" = None \/ get (searchParams u) "hours" = Some "" ->
  clampedHours u = of_Z 24.
Proof. unfold clampedHours, hours. intros [-> | ->]; reflexivity. Qed.

(** The value bound is NaN when [parseInt] gives NaN, and a number of
    [1, 672] otherwise. *)
Lemma clampedHours_cases (u : URL) :
  (hours u = NaN /\ clampedHours u = NaN)
  \/ (hours u <> NaN
      /\ (1 <=? clampedHours u)%js = true /\ (clampedHours u <=? 672)%js = true).
Proof.
  unfold clampedHours. change (of_Z (168 * 4)) with (of_Z 672).
  destruct (hours u) as [| | q |] eqn:Hh; [left; split; reflexivity | | |];
    right; (split; [discriminate |]).
  - split; reflexivity.
  - assert (Math_max (Fin q) 1 = if (Fin q <=? 1)%js then of_Z 1 else Fin q) as ->
      by reflexivity.
    destruct (Fin q <=? 1)%js eqn:Hone; [split; reflexivity |].
    assert ((1 <=? Fin q)%js = true) as Hlow
      by (apply le_total; [discriminate | discriminate | exact Hone]).
    assert (Math_min (Fin q) 672 = if (Fin q <=? 672)%js then Fin q else of_Z 672)
      as -> by reflexivity.
    destruct (Fin q <=? 672)%js eqn:Hcap; split; try assumption; reflexivity.
  - split; reflexivity.
Qed.

(** C3, at [hours=abc].  The value is not a number, [parseInt] gives NaN
    and neither [Math.max] nor [Math.min] replaces it: the hours bound to
    the query are NaN, not 24 and not within [1, 672]. *)
Theorem C3_non_numeric_hours_stay_NaN :
  let request := Sample.GET "/api/history" [("hours", "abc")] in
  get (searchParams (url request)) "hours" = Some "abc"
  /\ hours (url request) = NaN
  /\ clampedHours (url request) = NaN
  /\ clampedHours (url request) <> of_Z 24
  /\ (1 <=? clampedHours (url request))%js = false
  /\ (clampedHours (url request) <=? 672)%js = false.
Proof. vm_compute. repeat split; discriminate. Qed.

(** With NaN bound (it reaches SQLite as NULL) the history is empty,
    though the store holds a capture 100 ms old that [hours=24] returns;
    the response is a 200 all the same. *)
Example history_with_non_numeric_hours :
  handleRequest (Sample.GET "/api/history" [("hours", "abc")])
    Sample.april_db (Sample.noon + 800)
  = Fulfilled (json_response (JArray []) 200)
  /\ handleRequest (Sample.GET "/api/history" [("hours", "24")])
       Sample.april_db (Sample.noon + 800)
     = Fulfilled (json_response (JArray [row_object Sample.april_row]) 200).
Proof. vm_compute. split; reflexivity. Qed.

End Hours.

(** ** The store *)

Section Store.
Import D1.
Implicit Types (table : list Row) (db : D1Database) (now : Time.instant).

Lemma filter_iff_in {A} (P Q : A -> Prop)
    `{!forall x, Decision (P x)} `{!forall x, Decision (Q x)} (l : list A) :
  (forall x, x ∈ l -> P x <-> Q x) -> filter P l = filter Q l.
Proof.
  induction l as [| x l IH]; intros Hiff; [reflexivity |].
  rewrite !filter_cons.
  rewrite IH by (intros y Hy; apply Hiff; now right).
  pose proof (Hiff x ltac:(left)) as Hx.
  destruct (decide (P x)), (decide (Q x)); tauto.
Qed.

Lemma max_timestamp_nil table : max_timestamp table = None -> table = [].
Proof.
  destruct table as [| row rest]; [reflexivity |]. simpl.
  destruct (max_timestamp rest); discriminate.
Qed.

(** [MAX(timestamp)] is a stored timestamp, and none is above it. *)
Lemma max_timestamp_spec table (t : string) :
  max_timestamp table = Some t ->
  (exists row, row ∈ table /\ timestamp row = t)
  /\ Forall (fun row => String.le (timestamp row) t) table.
Proof.
  revert t. induction table as [| row rest IH]; intros t; [discriminate |].
  simpl. destruct (max_timestamp rest) as [best |] eqn:Hbest.
  - destruct (IH best eq_refl) as [[r [Hr Hrt]] Hall].
    case_bool_decide as Hle; intros [= <-].
    + split; [exists row; split; [left | reflexivity] |].
      constructor; [reflexivity |].
      eapply Forall_impl; [exact Hall |]. intros x Hx. simpl in Hx.
      etransitivity; eassumption.
    + split; [exists r; split; [now right | exact Hrt] |].
      constructor; [| exact Hall].
      destruct (total String.le best (timestamp row)); [contradiction | assumption].
  - intros [= <-]. apply max_timestamp_nil in Hbest as ->.
    split; [exists row; split; [left | reflexivity] |].
    constructor; [reflexivity | constructor].
Qed.

(** The rows the query selects are the rows of the latest capture. *)
Lemma latest_rows table :
  filter (fun row => Some (timestamp row) = max_timestamp table) table
  = filter (Spec.latest table) table.
Proof.
  apply filter_iff_in. intros row Hrow. unfold Spec.latest. split.
  - intros H. symmetry in H. apply max_timestamp_spec in H as [_ H]. exact H.
  - intros Hall. destruct (max_timestamp table) as [t |] eqn:Hmax.
    + destruct (max_timestamp_spec _ _ Hmax) as [[r [Hr <-]] Hle].
      f_equal. apply (anti_symm String.le).
      * rewrite Forall_forall in Hle. apply Hle, Hrow.
      * rewrite Forall_forall in Hall. apply Hall, Hr.
    + apply max_timestamp_nil in Hmax as ->. inversion Hrow.
Qed.

(** C5.  For every content of the store, GET /api/current returns the
    rows whose timestamp is the maximum stored, each as often as it is
    stored, ordered by [pool_name]; they all carry one timestamp. *)
Theorem C5_latest_snapshot table (rowid : Z) :
  let db := {| occupancy := table; last_rowid := rowid; outage := None |} in
  exists results,
    select_latest db = Fulfilled results
    /\ Api.handleCurrent db
       = Fulfilled (Api.json_response (Api.JArray (map Api.row_object results)) 200)
    /\ results ≡ₚ filter (Spec.latest table) table
    /\ Sorted by_pool_name results
    /\ (forall row, row ∈ results ->
          row ∈ table
          /\ forall other, other ∈ table -> String.le (timestamp other) (timestamp row))
    /\ (forall a b, a ∈ results -> b ∈ results -> timestamp a = timestamp b).
Proof.
  cbn zeta. unfold Api.handleCurrent, select_latest. cbn [outage occupancy].
  eexists. split; [reflexivity |]. split; [reflexivity |].
  assert (forall row,
             row ∈ merge_sort by_pool_name
                     (filter (fun row => Some (timestamp row) = max_timestamp table) table) ->
             Some (timestamp row) = max_timestamp table /\ row ∈ table)
    as Hmem.
  { intros row Hrow. rewrite merge_sort_Permutation in Hrow.
    now apply list_elem_of_filter in Hrow. }
  split; [| split; [| split]].
  - rewrite merge_sort_Permutation, latest_rows. reflexivity.
  - apply Sorted_merge_sort. intros a b. apply (total String.le).
  - intros row Hrow. destruct (Hmem row Hrow) as [Hmax Hin].
    split; [exact Hin |]. intros other Hother.
    symmetry in Hmax. apply max_timestamp_spec in Hmax as [_ Hall].
    rewrite Forall_forall in Hall. apply Hall, Hother.
  - intros a b Ha Hb. destruct (Hmem a Ha) as [Hta _], (Hmem b Hb) as [Htb _].
    congruence.
Qed.

(** What the DELETE does, while the store answers: it keeps the rows
    whose text is not below the cut-off text, and counts the others. *)
Lemma cleanupOldData_spec db now :
  outage db = None ->
  let run := Scraper.cleanupOldData db now in
  let changes := Z.of_nat (length (filter (expired now) (occupancy db))) in
  Scraper.returned run = Fulfilled ()
  /\ occupancy (Scraper.database run) = filter (fun row => ¬ expired now row) (occupancy db)
  /\ Scraper.console run = if 0 <? changes then [Scraper.CleanedUp changes] else [].
Proof.
  intros Hup. unfold Scraper.cleanupOldData, delete_old. rewrite Hup.
  repeat split.
Qed.

Lemma filter_expired_kept now table :
  filter (expired now) (filter (fun row => ¬ expired now row) table) = [].
Proof.
  induction table as [| row rest IH]; [reflexivity |].
  rewrite (filter_cons (fun row => ¬ expired now row)).
  destruct (decide (¬ expired now row)) as [Hkeep | _]; [| exact IH].
  rewrite filter_cons_False by exact Hkeep. exact IH.
Qed.

Lemma filter_kept_kept now table :
  filter (fun row => ¬ expired now row) (filter (fun row => ¬ expired now row) table)
  = filter (fun row => ¬ expired now row) table.
Proof.
  induction table as [| row rest IH]; [reflexivity |].
  rewrite (filter_cons _ row rest).
  destruct (decide (¬ expired now row)) as [Hkeep | _]; [| exact IH].
  rewrite filter_cons_True by exact Hkeep. now rewrite IH.
Qed.

(** Run again at the same clock reading, the cleanup deletes nothing and
    logs nothing. *)
Lemma cleanupOldData_twice db now :
  outage db = None ->
  let once := Scraper.cleanupOldData db now in
  let twice := Scraper.cleanupOldData (Scraper.database once) now in
  Scraper.database twice = Scraper.database once
  /\ Scraper.returned twice = Fulfilled ()
  /\ Scraper.console twice = [].
Proof.
  intros Hup. unfold Scraper.cleanupOldData, delete_old. rewrite Hup. simpl.
  rewrite filter_expired_kept, filter_kept_kept. repeat split.
Qed.

(** Texts with a common beginning compare as what follows it. *)
Lemma compare_common_prefix (p a b : string) :
  String.compare (p +:+ a) (p +:+ b) = String.compare a b.
Proof.
  induction p as [| c p IH]; [reflexivity |].
  change (String.compare (String c (p +:+ a)) (String c (p +:+ b))
          = String.compare a b).
  cbn [String.compare].
  assert (Strings.Ascii.compare c c = Eq) as ->
    by (unfold Strings.Ascii.compare; apply N.compare_refl).
  exact IH.
Qed.

(** No row captured on the calendar day of the cut-off is deleted,
    however early in that day: after the date its text goes on with [T],
    the cut-off text with a space. *)
Lemma same_day_never_expired now (t : Time.instant) (row : Row) :
  timestamp row = Time.toISOString t ->
  t / Time.ms_per_day = (now - 90 * Time.ms_per_day) / Time.ms_per_day ->
  ¬ expired now row.
Proof.
  intros Hrow Hday [Hle _]. revert Hle.
  rewrite Hrow.
  unfold days_ago_90, Time.toISOString, Time.datetime, Time.civil_of.
  rewrite <- Hday.
  destruct (Time.date_of_days (t / Time.ms_per_day)) as [[y m] d].
  cbn [Time.year Time.month Time.day].
  unfold String.le, String.leb.
  rewrite !compare_common_prefix.
  intros H. exact H.
Qed.

(** C7, at a row captured at 00:00:01 of the cut-off day.  With the
    clock at 2024-04-14T00:00:03Z the cut-off is 2024-01-15 00:00:03; the
    row, captured that day at 00:00:01, is two seconds older.  Its text
    has a [T] where the cut-off text has a space, so it does not compare
    below it: the cleanup deletes nothing and logs nothing.  It is the
    same at noon, when the row is twelve hours older than the cut-off. *)
Theorem C7_cleanup_keeps_a_row_older_than_the_cutoff :
  let run := Scraper.cleanupOldData Sample.january_db Sample.midnight in
  1705276801000 < Sample.midnight - 90 * Time.ms_per_day
  /\ timestamp Sample.january_row = "2024-01-15T00:00:01.000Z"
  /\ days_ago_90 Sample.midnight = "2024-01-15 00:00:03"
  /\ ¬ expired Sample.midnight Sample.january_row
  /\ Scraper.returned run = Fulfilled ()
  /\ Scraper.database run = Sample.january_db
  /\ Scraper.console run = []
  /\ 1705276801000 < Sample.noon - 90 * Time.ms_per_day
  /\ days_ago_90 Sample.noon = "2024-01-15 12:00:00"
  /\ Scraper.database (Scraper.cleanupOldData Sample.january_db Sample.noon)
     = Sample.january_db.
Proof.
  repeat split; try reflexivity.
  intros [Hle _]. vm_compute in Hle. exact Hle.
Qed.

End Store.

(** ** The connector *)

Section Connector.
Import Scraper Spec.
Implicit Types (c : Call) (start now : Time.instant)
  (events : list (Time.instant * ws_event)).

(** How each step moves the outcome. *)
Lemma outcome_settle result c :
  outcome (settle result c)
  = match outcome c with Pending => result | settled => settled end.
Proof. unfold settle. destruct (outcome c) eqn:E; simpl; congruence. Qed.

Lemma outcome_timers start now c :
  outcome c <> Pending -> outcome (timers start now c) = outcome c.
Proof.
  intros Hc. unfold timers.
  destruct (send_armed c && (start + 500 <=? now)); simpl;
    destruct (_ && _); try reflexivity;
    unfold on_timeout; rewrite outcome_settle; simpl;
    destruct (outcome c); congruence.
Qed.

Lemma outcome_dispatch now e c :
  outcome c <> Pending -> outcome (dispatch now e c) = outcome c.
Proof.
  intros Hc. destruct e as [[err | data] | description |]; simpl;
    try reflexivity; unfold on_message, on_error;
    rewrite outcome_settle; simpl; destruct (outcome c); congruence.
Qed.

(** A promise that is settled stays as it is. *)
Lemma settled_stays start events c :
  outcome c <> Pending -> outcome (run start events c) = outcome c.
Proof.
  revert c. induction events as [| [now e] rest IH]; intros c Hc; simpl.
  - apply outcome_timers, Hc.
  - rewrite IH.
    + rewrite outcome_dispatch; rewrite outcome_timers; auto.
    + rewrite outcome_dispatch; rewrite outcome_timers; auto.
Qed.

(** The timers leave a pending promise pending, or reject it. *)
Lemma timers_pending start now c :
  outcome c = Pending ->
  outcome (timers start now c) = Pending
  \/ outcome (timers start now c) = Rejected timeout_error.
Proof.
  intros Hc. unfold timers.
  destruct (send_armed c && (start + 500 <=? now)); simpl;
    destruct (_ && _); auto; right;
    unfold on_timeout; rewrite outcome_settle; simpl; now rewrite Hc.
Qed.

(** A call is fulfilled by the first event that is not a [close], which
    is then a message holding entries; the records are those made of
    them at the clock reading of that message. *)
Lemma run_fulfilled start events c records :
  outcome c = Pending ->
  outcome (run start events c) = Fulfilled records ->
  exists before now data after,
    events = before ++ (now, MessageEvent (Entries data)) :: after
    /\ Forall (fun event => event.2 = CloseEvent) before
    /\ records = toRecords (Time.toISOString now) data.
Proof.
  revert c. induction events as [| [now e] rest IH]; intros c Hc; simpl.
  - destruct (timers_pending start (start + 10000) c Hc) as [H | H];
      rewrite H; discriminate.
  - destruct (timers_pending start now c Hc) as [Hpending | Htimeout].
    + destruct e as [[err | data] | description |]; simpl.
      * rewrite settled_stays;
          unfold on_message; rewrite outcome_settle; simpl; rewrite Hpending;
          discriminate.
      * rewrite settled_stays;
          unfold on_message; rewrite outcome_settle; simpl; rewrite Hpending;
          [| discriminate].
        intros [= <-]. exists [], now, data, rest. repeat split. constructor.
      * rewrite settled_stays;
          unfold on_error; rewrite outcome_settle; simpl; rewrite Hpending;
          discriminate.
      * intros Hrun. destruct (IH _ Hpending Hrun) as (before & t & data & after & -> & Hb & ->).
        exists ((now, CloseEvent) :: before), t, data, after.
        repeat split. constructor; [reflexivity | exact Hb].
    + rewrite settled_stays;
        rewrite outcome_dispatch; rewrite Htimeout; discriminate.
Qed.

Lemma fetch_fulfilled start up records :
  outcome (fetchFromWebSocket start up) = Fulfilled records ->
  exists before now data after,
    up = Upgraded (before ++ (now, MessageEvent (Entries data)) :: after)
    /\ Forall (fun event => event.2 = CloseEvent) before
    /\ records = toRecords (Time.toISOString now) data.
Proof.
  destruct up as [error | | events]; simpl; try discriminate.
  intros H. apply run_fulfilled in H; [| reflexivity].
  destruct H as (before & now & data & after & -> & Hb & ->).
  exists before, now, data, after. repeat split. exact Hb.
Qed.

Ltac by_cases c :=
  destruct c as [[| records | message] [|] [|] [|] messages];
  unfold armed_while_pending, timers, dispatch, on_message, on_error,
    on_timeout, on_send, settle, ws_close, clearTimeout;
  cbn;
  repeat match goal with
    | |- context [?a <=? ?b] => destruct (a <=? b); cbn
    | |- context [match ?p with Malformed _ => _ | Entries _ => _ end] =>
        destruct p; cbn
    end;
  try congruence; auto; try solve [intuition congruence].

Lemma timers_armed start now c :
  armed_while_pending c -> armed_while_pending (timers start now c).
Proof. by_cases c. Qed.

Lemma dispatch_armed now e c :
  armed_while_pending c -> armed_while_pending (dispatch now e c).
Proof. destruct e; by_cases c. Qed.

Lemma timers_deadline start c :
  armed_while_pending c -> outcome (timers start (start + 10000) c) <> Pending.
Proof.
  intros Hc. unfold timers. rewrite Z.leb_refl, andb_true_r.
  destruct (send_armed c && (start + 500 <=? start + 10000)); revert Hc;
    by_cases c.
Qed.

Lemma run_settles start events c :
  armed_while_pending c -> outcome (run start events c) <> Pending.
Proof.
  revert c. induction events as [| [now e] rest IH]; intros c Hc; simpl.
  - apply timers_deadline, Hc.
  - apply IH, dispatch_armed, timers_armed, Hc.
Qed.

(** The promise of a call always settles. *)
Lemma fetch_settles start up : outcome (fetchFromWebSocket start up) <> Pending.
Proof.
  destruct up as [error | | events]; simpl; try discriminate.
  apply run_settles. intros _. reflexivity.
Qed.

(** *** What a message becomes *)

Lemma toRecords_pool_ids (timestamp : string) (data : list CrowdMonitorEntry) :
  map pool_id (toRecords timestamp data)
  = filter (fun id => id ∈ TRACKED_POOL_IDS) (map uid data).
Proof.
  unfold toRecords. induction data as [| entry rest IH]; [reflexivity |].
  cbn [map]. rewrite !filter_cons.
  destruct (decide (uid entry ∈ TRACKED_POOL_IDS)); cbn [map]; now rewrite IH.
Qed.

Lemma toRecords_tracked (timestamp : string) (data : list CrowdMonitorEntry) :
  Forall (fun record => pool_id record ∈ TRACKED_POOL_IDS) (toRecords timestamp data).
Proof.
  unfold toRecords. induction data as [| entry rest IH]; [constructor |].
  rewrite filter_cons. destruct (decide (uid entry ∈ TRACKED_POOL_IDS));
    [constructor |]; assumption.
Qed.

Lemma toRecords_timestamp (timestamp : string) (data : list CrowdMonitorEntry) :
  Forall (fun record => Scraper.timestamp record = timestamp) (toRecords timestamp data).
Proof.
  unfold toRecords. induction data as [| entry rest IH]; [constructor |].
  rewrite filter_cons. destruct (decide (uid entry ∈ TRACKED_POOL_IDS));
    [constructor; [reflexivity |] |]; assumption.
Qed.

(** A message with entries that is handled before the deadline, and
    before any other event, fulfils the call. *)
Lemma first_message_fulfils start now data rest :
  now < start + 10000 ->
  outcome (fetchFromWebSocket start
             (Upgraded ((now, MessageEvent (Entries data)) :: rest)))
  = Fulfilled (toRecords (Time.toISOString now) data).
Proof.
  intros Hnow. cbn [fetchFromWebSocket run].
  assert ((start + 10000 <=? now) = false) as Hlate by lia.
  rewrite settled_stays;
    unfold timers; cbn; rewrite Hlate;
    destruct (start + 500 <=? now); cbn; congruence.
Qed.

(** *** What a call stores *)

Lemma insert_rows_columns (rowid : Z) (batch : list D1.Insert) (rows : list D1.Row) :
  D1.insert_rows rowid batch = Some rows ->
  map D1.pool_id rows = map D1.bind_pool_id batch
  /\ map D1.timestamp rows = map D1.bind_timestamp batch.
Proof.
  revert rowid rows. induction batch as [| b rest IH]; intros rowid rows; cbn.
  - intros [= <-]. split; reflexivity.
  - unfold D1.insert_row.
    destruct (D1.sql_number (D1.bind_current_fill b)); [| discriminate].
    destruct (D1.sql_number (D1.bind_max_capacity b)); [| discriminate].
    destruct (D1.sql_number (D1.bind_occupancy_percent b)); [| discriminate].
    destruct (D1.sql_number (D1.bind_occupancy_level b)); [| discriminate].
    cbn. destruct (D1.insert_rows (rowid + 1) rest) as [rows' |] eqn:Hrest;
      [| discriminate].
    cbn. intros [= <-]. destruct (IH _ _ Hrest) as [Hids Hts].
    cbn. now rewrite Hids, Hts.
Qed.

(** A call leaves the table as it was, or adds one row per record of
    the fulfilled promise, with the pool ids and timestamps of the
    records. *)
Lemma scrapeAndStore_rows (db : D1.D1Database) start up :
  let run := scrapeAndStore db start up in
  database run = db
  \/ exists records rows,
       outcome (fetchFromWebSocket start up) = Fulfilled records
       /\ returned run = Fulfilled (Z.of_nat (length records))
       /\ D1.occupancy (database run) = D1.occupancy db ++ rows
       /\ map D1.pool_id rows = map pool_id records
       /\ map D1.timestamp rows = map Scraper.timestamp records.
Proof.
  unfold scrapeAndStore.
  destruct (outcome (fetchFromWebSocket start up)) as [| records | error];
    [left; reflexivity | | left; reflexivity].
  destruct records as [| first others]; [left; reflexivity |].
  unfold D1.batch. destruct (D1.outage db); [left; reflexivity |].
  destruct (D1.insert_rows _ _) as [rows |] eqn:Hrows; [| left; reflexivity].
  right. exists (first :: others), rows.
  apply insert_rows_columns in Hrows as [Hids Hts].
  rewrite map_map in Hids, Hts. repeat split; assumption.
Qed.

(** A call that does not return a count has written nothing. *)
Lemma scrapeAndStore_all_or_nothing (db : D1.D1Database) start up :
  (forall count, returned (scrapeAndStore db start up) <> Fulfilled count) ->
  database (scrapeAndStore db start up) = db.
Proof.
  intros Hnot. destruct (scrapeAndStore_rows db start up) as [H | H]; [exact H |].
  destruct H as (records & rows & _ & Hret & _). now apply Hnot in Hret.
Qed.

(** *** The claims on the connector *)

(** C6.  Whatever the provider does, a row a call adds to the store
    carries a pool id of the catalog; the records of a fulfilled call do;
    and a payload with other ids is no error: handled in time, it
    fulfils the call with the records of its tracked entries, in their
    order, the others left out. *)
Theorem C6_untracked_ids_are_dropped (db : D1.D1Database) start up :
  (forall row, row ∈ D1.occupancy (database (scrapeAndStore db start up)) ->
     row ∈ D1.occupancy db \/ D1.pool_id row ∈ TRACKED_POOL_IDS)
  /\ (forall records, outcome (fetchFromWebSocket start up) = Fulfilled records ->
        Forall (fun record => pool_id record ∈ TRACKED_POOL_IDS) records)
  /\ (forall now data rest,
        up = Upgraded ((now, MessageEvent (Entries data)) :: rest) ->
        now < start + 10000 ->
        exists records,
          outcome (fetchFromWebSocket start up) = Fulfilled records
          /\ map pool_id records
             = filter (fun id => id ∈ TRACKED_POOL_IDS) (map uid data)).
Proof.
  assert (forall records, outcome (fetchFromWebSocket start up) = Fulfilled records ->
            Forall (fun record => pool_id record ∈ TRACKED_POOL_IDS) records) as Htracked.
  { intros records H. apply fetch_fulfilled in H.
    destruct H as (before & now & data & after & _ & _ & ->).
    apply toRecords_tracked. }
  split; [| split; [exact Htracked |]].
  - intros row Hrow.
    destruct (scrapeAndStore_rows db start up) as [Hsame | H].
    + left. now rewrite Hsame in Hrow.
    + destruct H as (records & rows & Hfetch & _ & Hrows & Hids & _).
      rewrite Hrows in Hrow. apply elem_of_app in Hrow as [Hold | Hnew];
        [left; exact Hold | right].
      apply Htracked in Hfetch. rewrite Forall_forall in Hfetch.
      assert (D1.pool_id row ∈ map pool_id records) as Hid
        by (rewrite <- Hids; now apply list_elem_of_fmap_2).
      apply list_elem_of_fmap in Hid as (record & -> & Hrecord).
      apply Hfetch, Hrecord.
  - intros now data rest -> Hnow. eexists. split.
    + apply first_message_fulfils, Hnow.
    + apply toRecords_pool_ids.
Qed.

Lemma C6_untracked_ids_are_dropped_witness :
  exists records,
    outcome (fetchFromWebSocket Sample.noon
               (Upgraded [(Sample.noon + 700,
                           MessageEvent (Entries [Sample.entry "SSD-4" 500 125;
                                                  Sample.entry "SSD-99" 80 20]))]))
    = Fulfilled records
    /\ map pool_id records = ["SSD-4"].
Proof.
  destruct (C6_untracked_ids_are_dropped Sample.empty_db Sample.noon
              (Upgraded [(Sample.noon + 700,
                          MessageEvent (Entries [Sample.entry "SSD-4" 500 125;
                                                 Sample.entry "SSD-99" 80 20]))]))
    as (_ & _ & H).
  destruct (H _ _ _ eq_refl eq_refl) as (records & Hfetch & Hids).
  exists records. split; [exact Hfetch | exact Hids].
Defined.

(** The state of a call that meets nothing but [close] events before
    its deadline. *)
Lemma timers_waiting start now c :
  waiting_or_timed_out c ->
  waiting_or_timed_out (timers start now c)
  /\ (start + 10000 <= now ->
      outcome (timers start now c) = Rejected timeout_error
      /\ closed (timers start now c) = true).
Proof.
  destruct c as [o cl ta sa msgs].
  unfold waiting_or_timed_out, timers, on_timeout, on_send, settle, ws_close,
    clearTimeout; cbn.
  intros [[-> ->] | [-> ->]];
    destruct (start + 500 <=? now), (Z.leb_spec (start + 10000) now);
    repeat match goal with b : bool |- _ => destruct b end;
    cbn; intuition (try congruence; try lia).
Qed.

Lemma dispatch_timed_out now e c :
  outcome c = Rejected timeout_error /\ closed c = true ->
  outcome (dispatch now e c) = Rejected timeout_error
  /\ closed (dispatch now e c) = true.
Proof.
  intros [Hc Hcl]. destruct c as [o cl ta sa msgs]; cbn in *; subst.
  destruct e as [[err | data] | description |]; cbn; auto.
Qed.

Lemma run_times_out start events c :
  (forall now e, (now, e) ∈ events -> now < start + 10000 -> e = CloseEvent) ->
  waiting_or_timed_out c ->
  outcome (run start events c) = Rejected timeout_error
  /\ closed (run start events c) = true.
Proof.
  revert c. induction events as [| [now e] rest IH]; intros c Hquiet Hc; cbn [run].
  - apply timers_waiting; [exact Hc | lia].
  - apply IH; [intros t e' Hin; apply Hquiet; now right |].
    destruct (timers_waiting start now c Hc) as [Hwait Hlate].
    destruct (Z.lt_ge_cases now (start + 10000)) as [Hearly | Hdue].
    + rewrite (Hquiet now e ltac:(left) Hearly). exact Hwait.
    + right. apply dispatch_timed_out, Hlate, Hdue.
Qed.

(** C8, as amended.  A call on an upgraded channel that is delivered
    neither a message nor a channel error before its 10 s deadline is
    rejected with the timeout error, has closed the channel, and leaves
    the store as it was. *)
Theorem C8_timeout_writes_nothing (db : D1.D1Database) start events :
  (forall now e, (now, e) ∈ events -> now < start + 10000 -> e = CloseEvent) ->
  outcome (fetchFromWebSocket start (Upgraded events)) = Rejected timeout_error
  /\ closed (fetchFromWebSocket start (Upgraded events)) = true
  /\ returned (scrapeAndStore db start (Upgraded events)) = Rejected timeout_error
  /\ database (scrapeAndStore db start (Upgraded events)) = db.
Proof.
  intros Hquiet.
  assert (outcome (fetchFromWebSocket start (Upgraded events)) = Rejected timeout_error
          /\ closed (fetchFromWebSocket start (Upgraded events)) = true) as [Hout Hclosed].
  { cbn [fetchFromWebSocket]. apply run_times_out; [exact Hquiet |].
    left. split; reflexivity. }
  repeat split; [exact Hout | exact Hclosed | |];
    unfold scrapeAndStore; rewrite Hout; reflexivity.
Qed.

Lemma C8_timeout_writes_nothing_witness :
  returned (scrapeAndStore Sample.january_db Sample.noon
              (Upgraded [(Sample.noon + 4000, CloseEvent)]))
  = Rejected timeout_error
  /\ database (scrapeAndStore Sample.january_db Sample.noon
                 (Upgraded [(Sample.noon + 4000, CloseEvent)]))
     = Sample.january_db.
Proof.
  destruct (C8_timeout_writes_nothing Sample.january_db Sample.noon
              [(Sample.noon + 4000, CloseEvent)]) as (_ & _ & Hret & Hdb).
  - intros now e Hin _. apply list_elem_of_singleton in Hin. congruence.
  - split; [exact Hret | exact Hdb].
Defined.

(** C8, counterexample.  The channel reports an error three seconds
    into the call and delivers no message at all: the call is rejected
    with the channel error, not the timeout error, and has not closed
    the channel. *)
Lemma C8_channel_error_is_no_timeout :
  let events := [(Sample.noon + 3000, ErrorEvent "[object ErrorEvent]")] in
  let call := fetchFromWebSocket Sample.noon (Upgraded events) in
  Forall (fun event => forall data, event.2 <> MessageEvent data) events
  /\ outcome call = Rejected "WebSocket error: [object ErrorEvent]"
  /\ outcome call <> Rejected timeout_error
  /\ closed call = false.
Proof.
  cbn zeta. repeat split; try reflexivity; [| discriminate].
  constructor; [discriminate | constructor].
Qed.

(** C9.  The records of a fulfilled call all carry one timestamp: the
    clock reading taken when the message that fulfilled the call was
    handled, the first event of the call that is not a [close]; so do
    the rows the call adds to the store. *)
Theorem C9_one_capture_timestamp (db : D1.D1Database) start up records :
  outcome (fetchFromWebSocket start up) = Fulfilled records ->
  exists before now data after,
    up = Upgraded (before ++ (now, MessageEvent (Entries data)) :: after)
    /\ Forall (fun event => event.2 = CloseEvent) before
    /\ Forall (fun record => Scraper.timestamp record = Time.toISOString now) records
    /\ exists rows,
         D1.occupancy (database (scrapeAndStore db start up)) = D1.occupancy db ++ rows
         /\ Forall (fun row => D1.timestamp row = Time.toISOString now) rows.
Proof.
  intros Hfetch.
  destruct (fetch_fulfilled _ _ _ Hfetch) as (before & now & data & after & Hup & Hb & Hrecords).
  exists before, now, data, after.
  assert (Forall (fun record => Scraper.timestamp record = Time.toISOString now) records)
    as Hts by (rewrite Hrecords; apply toRecords_timestamp).
  repeat split; [exact Hup | exact Hb | exact Hts |].
  destruct (scrapeAndStore_rows db start up) as [Hsame | H].
  - exists []. rewrite Hsame, app_nil_r. split; [reflexivity | constructor].
  - destruct H as (records' & rows & Hfetch' & _ & Hrows & _ & Htimes).
    exists rows. split; [exact Hrows |].
    assert (records' = records) as -> by congruence.
    rewrite Forall_forall in Hts. apply Forall_forall. intros row Hrow.
    assert (D1.timestamp row ∈ map Scraper.timestamp records) as Hin
      by (rewrite <- Htimes; now apply list_elem_of_fmap_2).
    apply list_elem_of_fmap in Hin as (record & -> & Hrecord).
    apply Hts, Hrecord.
Qed.

Lemma C9_one_capture_timestamp_witness :
  exists now,
    Forall (fun record => Scraper.timestamp record = Time.toISOString now)
      (toRecords (Time.toISOString (Sample.noon + 700))
         [Sample.entry "SSD-4" 500 125; Sample.entry "fb012" 80 20]).
Proof.
  destruct (C9_one_capture_timestamp Sample.empty_db Sample.noon
              (Upgraded [(Sample.noon + 700,
                          MessageEvent (Entries [Sample.entry "SSD-4" 500 125;
                                                 Sample.entry "fb012" 80 20]))])
              _ eq_refl)
    as (_ & now & _ & _ & _ & _ & Hts & _).
  exists now. exact Hts.
Defined.

End Connector.

(** ** The query service *)

Section QueryService.
Import Api.
Implicit Types (request : Request) (db : D1.D1Database) (now : Time.instant).

(** The two routes that read the store. *)
Lemma handleCurrent_cases db :
  match D1.outage db with
  | Some error => handleCurrent db = Rejected error
  | None => exists rows,
      handleCurrent db = Fulfilled (json_response (JArray (map row_object rows)) 200)
  end.
Proof.
  unfold handleCurrent, D1.select_latest.
  destruct (D1.outage db); [reflexivity | eexists; reflexivity].
Qed.

Lemma handleHistory_cases db (u : URL) now :
  match D1.outage db with
  | Some error => handleHistory db u now = Rejected error
  | None => exists rows,
      handleHistory db u now
      = Fulfilled (json_response (JArray (map row_object rows)) 200)
  end.
Proof.
  unfold handleHistory, D1.select_history.
  destruct (D1.outage db); [reflexivity |].
  destruct (D1.hours_ago now (clampedHours u)); eexists; reflexivity.
Qed.

(** C2, as amended.  The handler always settles.  A response it returns
    carries the three CORS headers, is never a 500, and is either the
    bodiless 204 of the preflight or a JSON document with the JSON
    content type.  When the store fails a read, the handler returns no
    response at all: it is rejected with the store's own error. *)
Theorem C2_responses_and_store_failures request db now :
  handleRequest request db now <> Pending
  /\ (forall response,
        handleRequest request db now = Fulfilled response ->
        (forall header, header ∈ CORS_HEADERS -> header ∈ headers response)
        /\ status response <> 500
        /\ (response = handleOptions
            \/ (exists data, body response = Some data)
               /\ ("Content-Type", "application/json") ∈ headers response))
  /\ (forall error,
        D1.outage db = Some error ->
        method request = "GET" ->
        pathname (url request) = "/api/current"
        \/ pathname (url request) = "/api/history" ->
        handleRequest request db now = Rejected error).
Proof.
  assert (forall data code,
             code <> 500 ->
             (forall header, header ∈ CORS_HEADERS ->
                header ∈ headers (json_response data code))
             /\ status (json_response data code) <> 500
             /\ (json_response data code = handleOptions
                 \/ (exists data', body (json_response data code) = Some data')
                    /\ ("Content-Type", "application/json")
                       ∈ headers (json_response data code))) as Hjson.
  { intros data code Hcode. split; [| split; [exact Hcode | right; split]].
    - intros header Hin. now right.
    - eexists. reflexivity.
    - left. }
  pose proof (handleCurrent_cases db) as Hcurrent.
  pose proof (handleHistory_cases db (url request) now) as Hhistory.
  unfold handleRequest.
  destruct (String.eqb_spec (method request) "OPTIONS") as [Hopt | Hopt].
  { split; [discriminate | split].
    - intros response [= <-]. split; [auto | split; [discriminate | now left]].
    - intros error _ Hget. congruence. }
  destruct (String.eqb_spec (method request) "GET") as [Hget | Hget]; cbn [negb].
  2: { split; [discriminate | split].
       - intros response [= <-]. apply Hjson. discriminate.
       - intros error _ Hget'. contradiction. }
  destruct (String.eqb_spec (pathname (url request)) "/api/current") as [Hp1 | Hp1].
  { destruct (D1.outage db) as [error |].
    - rewrite Hcurrent. split; [discriminate | split].
      + discriminate.
      + intros error' [= <-] _ _. reflexivity.
    - destruct Hcurrent as [rows ->]. split; [discriminate | split].
      + intros response [= <-]. apply Hjson. discriminate.
      + discriminate. }
  destruct (String.eqb_spec (pathname (url request)) "/api/history") as [Hp2 | Hp2].
  { destruct (D1.outage db) as [error |].
    - rewrite Hhistory. split; [discriminate | split].
      + discriminate.
      + intros error' [= <-] _ _. reflexivity.
    - destruct Hhistory as [rows ->]. split; [discriminate | split].
      + intros response [= <-]. apply Hjson. discriminate.
      + discriminate. }
  destruct (String.eqb_spec (pathname (url request)) "/api/pools") as [Hp3 | Hp3].
  { split; [discriminate | split].
    - intros response [= <-]. apply Hjson. discriminate.
    - intros error _ _ [? | ?]; contradiction. }
  split; [discriminate | split].
  - intros response [= <-]. apply Hjson. discriminate.
  - intros error _ _ [? | ?]; contradiction.
Qed.

Lemma C2_responses_and_store_failures_witness :
  handleRequest (Sample.GET "/api/history" [("hours", "48")])
    Sample.failing_db Sample.noon
  = Rejected "D1_ERROR: no such table: occupancy"
  /\ status handlePools <> 500.
Proof.
  destruct (C2_responses_and_store_failures
              (Sample.GET "/api/history" [("hours", "48")])
              Sample.failing_db Sample.noon) as (_ & _ & Hfail).
  destruct (C2_responses_and_store_failures
              (Sample.GET "/api/pools" []) Sample.empty_db Sample.noon)
    as (_ & Hresponse & _).
  split.
  - apply Hfail; [reflexivity | reflexivity | right; reflexivity].
  - apply (Hresponse handlePools eq_refl).
Defined.

(** C2, counterexample.  GET /api/current against a store that fails
    its reads: the handler returns no 500 response, nor any other; the
    promise is rejected and carries the store's error text. *)
Lemma C2_store_failure_is_rethrown :
  let outcome :=
    handleRequest (Sample.GET "/api/current" []) Sample.failing_db Sample.noon in
  outcome = Rejected "D1_ERROR: no such table: occupancy"
  /\ forall response, outcome <> Fulfilled response.
Proof. split; [reflexivity | discriminate]. Qed.

End QueryService.

(** ** From the upstream payload to the current snapshot *)

Section EndToEnd.
Import Scraper Api.

(** One tracked entry with capacity 500 and fill 125, received 700 ms
    into the call: one row is stored, and GET /api/current returns it
    with percent 25.00, level 2 and the display name of the catalog. *)
Example scrape_then_current :
  let stored :=
    scrapeAndStore Sample.empty_db Sample.noon
      (Upgraded [(Sample.noon + 700,
                  MessageEvent (Entries [Sample.entry "SSD-4" 500 125]))]) in
  returned stored = Fulfilled 1
  /\ database stored = Sample.april_db
  /\ console stored = [Stored 1 "2024-04-14T12:00:00.700Z"]
  /\ handleCurrent (database stored)
     = Fulfilled (json_response (JArray [row_object Sample.april_row]) 200).
Proof. vm_compute. repeat split. Qed.

End EndToEnd.


(** ** The scheduled handler *)

Section Scheduler.
Import Scraper Worker.
Implicit Types (db : D1.D1Database) (up : upstream).

(** A call to [scrapeAndStore] always ends. *)
Lemma scrapeAndStore_settles db start up :
  returned (scrapeAndStore db start up) <> Pending.
Proof.
  unfold scrapeAndStore. pose proof (fetch_settles start up) as Hfetch.
  destruct (outcome (fetchFromWebSocket start up)) as [| records | error];
    [contradiction | | discriminate].
  destruct records as [| first others]; [discriminate |].
  unfold D1.batch. destruct (D1.outage db); [discriminate |].
  destruct (D1.insert_rows _ _); discriminate.
Qed.



(** The time of day of a clock reading. *)
Lemma time_of_day (t : Time.instant) :
  Time.hour (Time.civil_of t) = (t mod Time.ms_per_day) / Time.ms_per_hour
  /\ Time.minute (Time.civil_of t) = ((t mod Time.ms_per_day) / 60000) mod 60
  /\ Time.second (Time.civil_of t) = ((t mod Time.ms_per_day) / 1000) mod 60
  /\ Time.millisecond (Time.civil_of t) = (t mod Time.ms_per_day) mod 1000.
Proof.
  unfold Time.civil_of.
  destruct (Time.date_of_days (t / Time.ms_per_day)) as [[y m] d].
  repeat split.
Qed.

(** The cleanup is due in the first five minutes of the UTC day. *)
Lemma cleanup_due_iff (t : Time.instant) :
  cleanup_due t = true <-> t mod 86400000 < 300000.
Proof.
  unfold cleanup_due. destruct (time_of_day t) as (-> & -> & _).
  unfold Time.ms_per_day, Time.ms_per_hour.
  rewrite andb_true_iff, Z.eqb_eq, Z.ltb_lt.
  unfold Time.instant in t.
  pose proof (Z.mod_pos_bound t 86400000 ltac:(lia)) as Hr.
  generalize dependent (t mod 86400000). intros r Hr.
  Z.div_mod_to_equations. lia.
Qed.

(** X2.  With the trigger firing every five minutes, the cleanup runs
    once a day: whatever the first scheduled time, exactly one of any 288
    consecutive ticks is due, the one in the first five minutes after
    midnight UTC. *)
Theorem X2_cleanup_once_a_day (first : Time.instant) :
  exists k, 0 <= k < 288
    /\ cleanup_due (first + k * 300000) = true
    /\ (first + k * 300000) mod 86400000 < 300000
    /\ forall j, 0 <= j < 288 -> cleanup_due (first + j * 300000) = true -> j = k.
Proof.
  pose proof (Z.mod_pos_bound first 86400000 ltac:(lia)) as Hr.
  set (r := first mod 86400000) in *.
  set (k := (86400000 - r + 299999) / 300000 mod 288).
  assert (0 <= k < 288) as Hk by (apply Z.mod_pos_bound; lia).
  assert (forall j, 0 <= j < 288 ->
            (cleanup_due (first + j * 300000) = true <-> j = k)) as Hall.
  { intros j Hj. rewrite cleanup_due_iff.
    assert ((first + j * 300000) mod 86400000
            = (r + j * 300000) mod 86400000) as ->.
    { unfold r. rewrite Z.add_mod_idemp_l by lia. reflexivity. }
    unfold k. clearbody r. Z.div_mod_to_equations. lia. }
  exists k. split; [exact Hk |].
  assert (cleanup_due (first + k * 300000) = true) as Hdue
    by (now apply Hall).
  split; [exact Hdue |]. split; [now apply cleanup_due_iff |].
  intros j Hj Hdue'. now apply Hall.
Qed.

End Scheduler.

(** ** Routing *)

Section Routing.
Import Api.
Implicit Types (request : Request) (db : D1.D1Database) (now : Time.instant).

(** X3.  Only GET /api/current and GET /api/history touch the store: any
    other request is answered at once, with the same response whatever
    the store holds, whether or not it is failing, and whatever the
    time. *)
Theorem X3_other_requests_ignore_the_store request db db' now now' :
  ~ (method request = "GET"
     /\ (pathname (url request) = "/api/current"
         \/ pathname (url request) = "/api/history")) ->
  handleRequest request db now = handleRequest request db' now'
  /\ exists response, handleRequest request db now = Fulfilled response.
Proof.
  intros Hother. unfold handleRequest.
  destruct (String.eqb_spec (method request) "OPTIONS");
    [split; [reflexivity | eexists; reflexivity] |].
  destruct (String.eqb_spec (method request) "GET"); cbn [negb];
    [| split; [reflexivity | eexists; reflexivity]].
  destruct (String.eqb_spec (pathname (url request)) "/api/current"); [tauto |].
  destruct (String.eqb_spec (pathname (url request)) "/api/history"); [tauto |].
  destruct (String.eqb_spec (pathname (url request)) "/api/pools");
    split; reflexivity || (eexists; reflexivity).
Qed.

Lemma X3_other_requests_ignore_the_store_witness :
  handleRequest (Sample.GET "/api/pools" []) Sample.failing_db Sample.noon
  = handleRequest (Sample.GET "/api/pools" []) Sample.april_db Sample.midnight.
Proof.
  apply (X3_other_requests_ignore_the_store
           (Sample.GET "/api/pools" []) Sample.failing_db Sample.april_db
           Sample.noon Sample.midnight).
  intros [_ [H | H]]; discriminate H.
Defined.

(** X4.  The status of a response tells the route taken: 204 for OPTIONS
    on any path, 405 for any other method than GET on any path, 404 for
    GET on a path that is none of the three routes, and 200 for GET on
    one of them.  The method is looked at before the path. *)
Theorem X4_status_by_route request db now response :
  handleRequest request db now = Fulfilled response ->
  (status response = 204 <-> method request = "OPTIONS")
  /\ (status response = 405 <->
        method request <> "OPTIONS" /\ method request <> "GET")
  /\ (status response = 404 <->
        method request = "GET"
        /\ pathname (url request) <> "/api/current"
        /\ pathname (url request) <> "/api/history"
        /\ pathname (url request) <> "/api/pools")
  /\ (status response = 200 <->
        method request = "GET"
        /\ (pathname (url request) = "/api/current"
            \/ pathname (url request) = "/api/history"
            \/ pathname (url request) = "/api/pools")).
Proof.
  unfold handleRequest.
  pose proof (handleCurrent_cases db) as Hcurrent.
  pose proof (handleHistory_cases db (url request) now) as Hhistory.
  destruct (String.eqb_spec (method request) "OPTIONS") as [Hm | Hm].
  { intros [= <-]. rewrite Hm. cbn. intuition (discriminate || congruence). }
  destruct (String.eqb_spec (method request) "GET") as [Hg | Hg]; cbn [negb].
  2: { intros [= <-]. cbn. intuition (discriminate || congruence). }
  destruct (String.eqb_spec (pathname (url request)) "/api/current") as [Hp | Hp1].
  { destruct (D1.outage db); [rewrite Hcurrent; discriminate |].
    destruct Hcurrent as [rows ->]. intros [= <-]. rewrite Hp. cbn.
    intuition (discriminate || congruence). }
  destruct (String.eqb_spec (pathname (url request)) "/api/history") as [Hp | Hp2].
  { destruct (D1.outage db); [rewrite Hhistory; discriminate |].
    destruct Hhistory as [rows ->]. intros [= <-]. rewrite Hp. cbn.
    intuition (discriminate || congruence). }
  destruct (String.eqb_spec (pathname (url request)) "/api/pools") as [Hp | Hp3].
  { intros [= <-]. rewrite Hp. cbn. intuition (discriminate || congruence). }
  intros [= <-]. cbn. intuition (discriminate || congruence).
Qed.

Lemma X4_status_by_route_witness :
  status (json_response (JObject [("error", JString "Method not allowed")]) 405) = 405
  /\ "POST" <> "GET".
Proof.
  destruct (X4_status_by_route
              {| method := "POST";
                 url := {| pathname := "/api/current"; searchParams := [] |} |}
              Sample.failing_db Sample.noon _ eq_refl) as (_ & H405 & _).
  split; [reflexivity |]. apply H405. reflexivity.
Defined.

End Routing.

(** ** The history query *)

Section History.
Import D1 Api Query.
Implicit Types (table : list Row) (now : Time.instant) (u : URL).

(** A whole number of hours is that many times 3600000 ms. *)
Lemma hours_ago_whole now (h : Z) :
  0 <= h ->
  hours_ago now (of_Z h) = Some (Time.datetime (now - h * Time.ms_per_hour)).
Proof.
  intros Hh. unfold hours_ago, of_Z. cbn [sql_number mbind option_bind].
  assert (Qle_bool 0 (inject_Z h) = true) as ->
    by (apply Qle_bool_iff; change 0%Q with (inject_Z 0); now rewrite <- Zle_Qle).
  do 3 f_equal.
  unfold Qfloor, Qplus, Qmult, inject_Z. cbn [Qnum Qden].
  rewrite Pos.mul_1_l, !Z.mul_1_r.
  change (Z.pos (1 * 2)) with 2. Z.div_mod_to_equations. lia.
Qed.

Lemma handleHistory_rows table (rowid : Z) now u (z : Z) :
  hours u = of_Z z ->
  let db := {| occupancy := table; last_rowid := rowid; outage := None |} in
  let h := Z.min (Z.max z 1) 672 in
  handleHistory db u now
  = Fulfilled
      (json_response
         (JArray (map row_object
                    (merge_sort by_timestamp (filter (in_range now h (pool u)) table))))
         200).
Proof.
  intros Hz. cbn zeta. unfold handleHistory, select_history. cbn [outage occupancy].
  rewrite (clampedHours_numeric u z Hz), hours_ago_whole by lia.
  reflexivity.
Qed.

Lemma filter_none {A} (P : A -> Prop) `{!forall x, Decision (P x)} (l : list A) :
  (forall x, x ∈ l -> ~ P x) -> filter P l = [].
Proof.
  induction l as [| x l IH]; intros Hnone; [reflexivity |].
  rewrite filter_cons_False by (apply Hnone; left).
  apply IH. intros y Hy. apply Hnone. now right.
Qed.

(** X5.  While the store answers and [hours] reads as a number, GET
    /api/history is a 200 whose array holds the stored rows whose
    timestamp text is not below the text of the instant [h] hours back,
    [h] being the number clamped to [1, 672], restricted to the pool asked
    for if one is: each as often as stored, in ascending order of
    timestamp. *)
Theorem X5_history_rows table (rowid : Z) now u (z : Z) :
  hours u = of_Z z ->
  let db := {| occupancy := table; last_rowid := rowid; outage := None |} in
  let h := Z.min (Z.max z 1) 672 in
  exists results,
    handleHistory db u now
    = Fulfilled (json_response (JArray (map row_object results)) 200)
    /\ results ≡ₚ filter (in_range now h (pool u)) table
    /\ Sorted by_timestamp results
    /\ (forall row, row ∈ results <-> row ∈ table /\ in_range now h (pool u) row).
Proof.
  intros Hz. cbn zeta. eexists. split; [apply handleHistory_rows, Hz |].
  split; [apply merge_sort_Permutation |].
  split; [apply Sorted_merge_sort; intros a b; apply (total String.le) |].
  intros row. rewrite merge_sort_Permutation, list_elem_of_filter. tauto.
Qed.

Lemma X5_history_rows_witness :
  exists results,
    handleHistory Sample.april_db
      (url (Sample.GET "/api/history" [("hours", "6")])) (Sample.noon + 800)
    = Fulfilled (json_response (JArray (map row_object results)) 200)
    /\ results ≡ₚ [Sample.april_row].
Proof.
  destruct (X5_history_rows [Sample.april_row] 1 (Sample.noon + 800)
              (url (Sample.GET "/api/history" [("hours", "6")])) 6 eq_refl)
    as (results & Hresponse & Hrows & _).
  exists results. split; [exact Hresponse | exact Hrows].
Defined.

(** X6.  A [pool] parameter restricts the history to that pool and does
    nothing else: with the same hours, the rows returned for a pool are
    the rows of that pool among those returned without the parameter; an
    id no row carries gives an empty array, not an error. *)
Theorem X6_history_of_one_pool table (rowid : Z) now u u_all (z : Z) (p : string) :
  hours u = of_Z z -> hours u_all = of_Z z ->
  pool u = Some p -> pool u_all = None ->
  let db := {| occupancy := table; last_rowid := rowid; outage := None |} in
  exists results all,
    handleHistory db u now
    = Fulfilled (json_response (JArray (map row_object results)) 200)
    /\ handleHistory db u_all now
       = Fulfilled (json_response (JArray (map row_object all)) 200)
    /\ results ≡ₚ filter (fun row => pool_id row = p) all
    /\ Forall (fun row => pool_id row = p) results
    /\ ((forall row, row ∈ table -> pool_id row <> p) -> results = []).
Proof.
  intros Hz Hz' Hp Hall. cbn zeta.
  set (h := Z.min (Z.max z 1) 672).
  exists (merge_sort by_timestamp (filter (in_range now h (pool u)) table)),
    (merge_sort by_timestamp (filter (in_range now h (pool u_all)) table)).
  split; [apply handleHistory_rows, Hz |].
  split; [apply handleHistory_rows, Hz' |].
  rewrite Hp, Hall.
  assert (filter (in_range now h (Some p)) table
          = filter (fun row => pool_id row = p) (filter (in_range now h None) table))
    as Hfilter.
  { rewrite list_filter_filter. apply list_filter_iff. intros row.
    unfold in_range. split.
    - intros [Hsince [Hnone | [= ->]]]; [discriminate | tauto].
    - intros [<- [Hsince _]]. tauto. }
  split; [| split].
  - rewrite !merge_sort_Permutation. now rewrite Hfilter.
  - apply Forall_forall. intros row.
    rewrite merge_sort_Permutation, Hfilter, list_elem_of_filter. tauto.
  - intros Hnone.
    rewrite filter_none; [reflexivity |].
    intros row Hrow [_ [Hn | [= Hid]]]; [discriminate |].
    now apply (Hnone row).
Qed.

Lemma X6_history_of_one_pool_witness :
  exists results,
    handleHistory Sample.april_db
      (url (Sample.GET "/api/history" [("pool", "SSD-7")])) (Sample.noon + 800)
    = Fulfilled (json_response (JArray (map row_object results)) 200)
    /\ results = [].
Proof.
  destruct (X6_history_of_one_pool [Sample.april_row] 1 (Sample.noon + 800)
              (url (Sample.GET "/api/history" [("pool", "SSD-7")]))
              (url (Sample.GET "/api/history" []))
              24 "SSD-7" eq_refl eq_refl eq_refl eq_refl)
    as (results & all & Hresponse & _ & _ & _ & Hempty).
  exists results. split; [exact Hresponse |]. apply Hempty.
  intros row Hrow. apply list_elem_of_singleton in Hrow as ->. discriminate.
Defined.

End History.

(** ** More on the connector *)

Section Channel.
Import Scraper Channel.
Implicit Types (c : Call) (start now : Time.instant)
  (events : list (Time.instant * ws_event)).

Ltac call_cases c :=
  destruct c as [[| records | message] [|] [|] [|] messages];
  unfold closed_or_errored, timers, dispatch, on_message, on_error,
    on_timeout, on_send, settle, ws_close, clearTimeout;
  cbn;
  repeat match goal with
    | |- context [?a <=? ?b] => destruct (a <=? b); cbn
    | |- context [match ?p with Malformed _ => _ | Entries _ => _ end] =>
        destruct p; cbn
    end.

Lemma timers_closed_or_errored start now c :
  closed_or_errored c -> closed_or_errored (timers start now c).
Proof.
  call_cases c; intros [H | [[d H] | [H1 H2]]];
    try discriminate; eauto.
Qed.

Lemma dispatch_closed_or_errored now e c :
  closed_or_errored c -> closed_or_errored (dispatch now e c).
Proof.
  destruct e; call_cases c; intros [H | [[d H] | [H1 H2]]];
    try discriminate; eauto.
Qed.

Lemma run_closed_or_errored start events c :
  closed_or_errored c -> closed_or_errored (run start events c).
Proof.
  revert c. induction events as [| [now e] rest IH]; intros c Hc; cbn [run].
  - apply timers_closed_or_errored, Hc.
  - apply IH, dispatch_closed_or_errored, timers_closed_or_errored, Hc.
Qed.

(** X7.  On an upgraded channel a call always settles, and it leaves the
    socket open in one case only: when it has been rejected with a channel
    error.  A call that is fulfilled or that times out has closed the
    socket. *)
Theorem X7_settled_and_closed start events :
  let call := fetchFromWebSocket start (Upgraded events) in
  outcome call <> Pending
  /\ (closed call = true
      \/ exists description,
           outcome call = Rejected ("WebSocket error: " +:+ description))
  /\ (forall records, outcome call = Fulfilled records -> closed call = true)
  /\ (outcome call = Rejected timeout_error -> closed call = true).
Proof.
  cbn zeta.
  pose proof (fetch_settles start (Upgraded events)) as Hsettled.
  assert (closed_or_errored (fetchFromWebSocket start (Upgraded events))) as Hstate.
  { cbn [fetchFromWebSocket]. apply run_closed_or_errored.
    right. right. split; reflexivity. }
  destruct Hstate as [Hclosed | [[d Herr] | [Hpending _]]];
    [| | contradiction].
  - repeat split; auto.
  - rewrite Herr. repeat split; try discriminate; eauto.
Qed.

(** Before the deadline the timers leave the outcome as it is. *)
Lemma timers_early start now c :
  now < start + 10000 -> outcome (timers start now c) = outcome c.
Proof.
  intros Hnow. assert ((start + 10000 <=? now) = false) as Hlate by lia.
  unfold timers. rewrite Hlate.
  destruct (send_armed c && (start + 500 <=? now)); cbn;
    rewrite andb_false_r; reflexivity.
Qed.

Lemma dispatch_verdict now e c result :
  outcome c = Pending -> verdict now e = Some result ->
  outcome (dispatch now e c) = result /\ result <> Pending.
Proof.
  intros Hc. destruct e as [[error | data] | description |]; cbn;
    intros [= <-]; unfold on_message, on_error;
    rewrite outcome_settle; cbn; rewrite Hc; split; (reflexivity || discriminate).
Qed.

Lemma run_first_verdict start before now e after c result :
  outcome c = Pending ->
  Forall (fun event => event.1 < start + 10000 /\ event.2 = CloseEvent) before ->
  now < start + 10000 ->
  verdict now e = Some result ->
  outcome (run start (before ++ (now, e) :: after) c) = result.
Proof.
  intros Hc Hbefore Hnow Hverdict. revert c Hc.
  induction Hbefore as [| [t e'] rest [Ht He'] _ IH]; intros c Hc; cbn [app run].
  - destruct (dispatch_verdict now e (timers start now c) result) as [Hout Hsettled];
      [now rewrite timers_early | exact Hverdict |].
    rewrite settled_stays; congruence.
  - cbn in Ht, He'. subst e'. cbn [dispatch]. apply IH.
    now rewrite timers_early.
Qed.

(** X8.  The first event that is not a [close] decides the call, provided
    it comes before the deadline: entries fulfil it with their records, a
    payload that does not parse rejects it with the parse error, a channel
    error rejects it with the channel error.  Whatever is delivered
    afterwards changes nothing. *)
Theorem X8_first_event_decides start before now e after result :
  Forall (fun event => event.1 < start + 10000 /\ event.2 = CloseEvent) before ->
  now < start + 10000 ->
  verdict now e = Some result ->
  outcome (fetchFromWebSocket start (Upgraded (before ++ (now, e) :: after)))
  = result.
Proof.
  intros Hbefore Hnow Hverdict. cbn [fetchFromWebSocket].
  now apply run_first_verdict.
Qed.

Lemma X8_first_event_decides_witness :
  outcome (fetchFromWebSocket Sample.noon
             (Upgraded ([(Sample.noon + 100, CloseEvent)]
                        ++ (Sample.noon + 900,
                            MessageEvent (Malformed "SyntaxError: Unexpected token"))
                        :: [(Sample.noon + 950,
                             MessageEvent (Entries [Sample.entry "SSD-4" 500 125]))])))
  = Rejected "SyntaxError: Unexpected token".
Proof.
  apply X8_first_event_decides.
  - constructor; [split; reflexivity | constructor].
  - reflexivity.
  - reflexivity.
Defined.

End Channel.

(** ** What reaches the store *)

Section Storing.
Import Scraper Keys.
Implicit Types (db : D1.D1Database) (up : upstream).

(** The rows a batch of INSERTs adds: one per statement, in order, with
    the next rowids and the text columns as bound. *)
Lemma insert_rows_keys (rowid : Z) (batch : list D1.Insert) (rows : list D1.Row) :
  D1.insert_rows rowid batch = Some rows ->
  length rows = length batch
  /\ map D1.id rows = seqZ (rowid + 1) (Z.of_nat (length batch))
  /\ map (fun row => (D1.pool_id row, D1.pool_name row)) rows
     = map (fun b => (D1.bind_pool_id b, D1.bind_pool_name b)) batch.
Proof.
  revert rowid rows. induction batch as [| b rest IH]; intros rowid rows; cbn.
  - intros [= <-]. repeat split.
  - unfold D1.insert_row.
    destruct (D1.sql_number (D1.bind_current_fill b)); [| discriminate].
    destruct (D1.sql_number (D1.bind_max_capacity b)); [| discriminate].
    destruct (D1.sql_number (D1.bind_occupancy_percent b)); [| discriminate].
    destruct (D1.sql_number (D1.bind_occupancy_level b)); [| discriminate].
    cbn. destruct (D1.insert_rows (rowid + 1) rest) as [rows' |] eqn:Hrest;
      [| discriminate].
    cbn. intros [= <-]. destruct (IH _ _ Hrest) as (Hlen & Hids & Hnames).
    cbn. rewrite Hlen, Hids, Hnames. repeat split.
    rewrite (seqZ_cons (rowid + 1)) by lia. do 2 f_equal; lia.
Qed.

Lemma scrapeAndStore_appends db start up :
  let run := scrapeAndStore db start up in
  exists rows,
    D1.occupancy (database run) = D1.occupancy db ++ rows
    /\ map D1.id rows = seqZ (D1.last_rowid db + 1) (Z.of_nat (length rows))
    /\ D1.last_rowid (database run) = D1.last_rowid db + Z.of_nat (length rows)
    /\ D1.outage (database run) = D1.outage db
    /\ (returned run = Fulfilled (Z.of_nat (length rows))
        \/ rows = [] /\ exists error, returned run = Rejected error).
Proof.
  cbn zeta. unfold scrapeAndStore.
  pose proof (fetch_settles start up) as Hfetch.
  assert (forall (result : Promise Z) (o o' : option string),
             o = o' ->
             (result = Fulfilled 0 \/ exists error, result = Rejected error) ->
             exists rows : list D1.Row,
               D1.occupancy db = D1.occupancy db ++ rows
               /\ map D1.id rows = seqZ (D1.last_rowid db + 1) (Z.of_nat (length rows))
               /\ D1.last_rowid db = D1.last_rowid db + Z.of_nat (length rows)
               /\ o = o'
               /\ (result = Fulfilled (Z.of_nat (length rows))
                   \/ rows = [] /\ exists error, result = Rejected error)) as Hnone.
  { intros result o o' Ho Hresult. exists []. rewrite app_nil_r. cbn.
    repeat split; try lia; try assumption; tauto. }
  destruct (outcome (fetchFromWebSocket start up)) as [| records | error];
    [contradiction | | apply Hnone; eauto].
  destruct records as [| first others]; [apply Hnone; eauto |].
  unfold D1.batch. destruct (D1.outage db) eqn:Hup; cbn [returned database];
    [apply Hnone; eauto |].
  destruct (D1.insert_rows _ _) as [rows |] eqn:Hrows; cbn [returned database];
    [| apply Hnone; eauto].
  apply insert_rows_keys in Hrows as (Hlen & Hids & _).
  rewrite length_map in Hlen. exists rows. cbn [D1.occupancy D1.last_rowid D1.outage].
  rewrite length_map in Hids |- *. rewrite Hlen.
  repeat split; [exact Hids | tauto].
Qed.

(** X9.  The store is append-only under [scrapeAndStore]: the rows it held
    stay as they are and in place, the rows added come after them with
    the next rowids, and the count returned is the number of rows added;
    a call that is rejected has added none. *)
Theorem X9_scrape_appends db start up :
  let run := scrapeAndStore db start up in
  exists rows,
    D1.occupancy (database run) = D1.occupancy db ++ rows
    /\ map D1.id rows = seqZ (D1.last_rowid db + 1) (Z.of_nat (length rows))
    /\ D1.last_rowid (database run) = D1.last_rowid db + Z.of_nat (length rows)
    /\ D1.outage (database run) = D1.outage db
    /\ (returned run = Fulfilled (Z.of_nat (length rows))
        \/ rows = [] /\ exists error, returned run = Rejected error).
Proof. apply scrapeAndStore_appends. Qed.

(** Every tracked id has a name in the catalogue, which is not empty. *)
Lemma tracked_has_name (id : string) :
  id ∈ TRACKED_POOL_IDS ->
  exists name, POOLS_get id = Some name /\ (id, name) ∈ POOLS
               /\ or_else (Some name) id = name.
Proof.
  unfold TRACKED_POOL_IDS. rewrite elem_of_list_to_set. cbn.
  rewrite !elem_of_cons, elem_of_nil.
  intros [-> | [-> | [-> | [-> | [-> | [-> | []]]]]]];
    eexists; (split; [vm_compute; reflexivity |]);
    (split; [| reflexivity]); unfold POOLS;
    rewrite !elem_of_cons; tauto.
Qed.

(** X10.  A record never falls back on the id for its name: each carries
    the display name the catalogue gives its pool, and so does every row a
    call adds to the store. *)
Theorem X10_names_come_from_the_catalogue db start up (timestamp : string)
    (data : list CrowdMonitorEntry) :
  Forall (fun record => (pool_id record, pool_name record) ∈ POOLS)
    (toRecords timestamp data)
  /\ (forall row, row ∈ D1.occupancy (database (scrapeAndStore db start up)) ->
        row ∈ D1.occupancy db \/ (D1.pool_id row, D1.pool_name row) ∈ POOLS).
Proof.
  assert (forall ts entries,
             Forall (fun record => (pool_id record, pool_name record) ∈ POOLS)
               (toRecords ts entries)) as Hrecords.
  { intros ts entries. unfold toRecords.
    induction entries as [| entry rest IH]; [constructor |].
    rewrite filter_cons.
    destruct (decide (uid entry ∈ TRACKED_POOL_IDS)) as [Hin |]; [| exact IH].
    constructor; [| exact IH]. cbn.
    destruct (tracked_has_name _ Hin) as (name & -> & Hname & ->). exact Hname. }
  split; [apply Hrecords |].
  intros row. unfold scrapeAndStore.
  destruct (outcome (fetchFromWebSocket start up)) as [| records | error] eqn:Hfetch;
    cbn [database]; auto.
  destruct records as [| first others]; cbn [database]; auto.
  unfold D1.batch. destruct (D1.outage db); cbn [database]; auto.
  destruct (D1.insert_rows _ _) as [rows |] eqn:Hrows; cbn [database]; auto.
  cbn [D1.occupancy]. rewrite elem_of_app. intros [Hold | Hnew]; [now left | right].
  apply insert_rows_keys in Hrows as (_ & _ & Hnames).
  apply fetch_fulfilled in Hfetch as (before & now & entries & after & _ & _ & Heq).
  assert ((D1.pool_id row, D1.pool_name row)
          ∈ map (fun b => (D1.bind_pool_id b, D1.bind_pool_name b))
              (map bind_record (first :: others))) as Hin
    by (rewrite <- Hnames;
        now apply (list_elem_of_fmap_2 (fun r => (D1.pool_id r, D1.pool_name r)))).
  rewrite map_map in Hin.
  apply list_elem_of_fmap in Hin as (record & Hpair & Hrecord).
  cbn in Hpair. rewrite Hpair.
  specialize (Hrecords (Time.toISOString now) entries).
  rewrite <- Heq, Forall_forall in Hrecords. apply Hrecords, Hrecord.
Qed.

(** The primary key through a scrape and through a cleanup. *)
Lemma scrapeAndStore_well_keyed db start up :
  well_keyed db -> well_keyed (database (scrapeAndStore db start up)).
Proof.
  intros [Hdup Hmax]. unfold well_keyed.
  destruct (scrapeAndStore_appends db start up)
    as (rows & -> & Hids & -> & _ & _).
  assert (forall row, row ∈ rows ->
            D1.last_rowid db < D1.id row
            <= D1.last_rowid db + Z.of_nat (length rows)) as Hnew.
  { intros row Hrow.
    assert (D1.id row ∈ map D1.id rows) as Hin by now apply list_elem_of_fmap_2.
    rewrite Hids, elem_of_seqZ in Hin. lia. }
  split.
  - rewrite map_app. apply NoDup_app. split; [exact Hdup |]. split.
    + intros k Hold Hk.
      apply list_elem_of_fmap in Hold as (old & -> & Hold).
      apply list_elem_of_fmap in Hk as (new & Hk & Hnew').
      rewrite Forall_forall in Hmax. specialize (Hmax old Hold).
      specialize (Hnew new Hnew'). lia.
    + rewrite Hids. apply NoDup_seqZ.
  - apply Forall_app. split.
    + eapply Forall_impl; [exact Hmax |]. intros row Hrow. cbn in Hrow. lia.
    + apply Forall_forall. intros row Hrow. specialize (Hnew row Hrow). lia.
Qed.

Lemma cleanupOldData_well_keyed db now :
  well_keyed db -> well_keyed (database (cleanupOldData db now)).
Proof.
  intros [Hdup Hmax]. unfold cleanupOldData, D1.delete_old.
  destruct (D1.outage db); [split; assumption |].
  unfold well_keyed. cbn [database D1.occupancy D1.last_rowid]. split.
  - eapply sublist_NoDup; [exact Hdup |].
    apply fmap_sublist, sublist_filter.
  - rewrite Forall_forall in Hmax |- *. intros row Hrow.
    apply list_elem_of_filter in Hrow as [_ Hrow]. now apply Hmax.
Qed.

Lemma scheduled_store scheduledTime db start up now :
  Worker.store (Worker.scheduled scheduledTime db start up now)
  = if Worker.cleanup_due scheduledTime
    then database (cleanupOldData (database (scrapeAndStore db start up)) now)
    else database (scrapeAndStore db start up).
Proof.
  unfold Worker.scheduled, Worker.cleanup_step.
  destruct (returned (scrapeAndStore db start up)) eqn:Hscrape;
    [now apply scrapeAndStore_settles in Hscrape | |];
    destruct (Worker.cleanup_due scheduledTime); try reflexivity;
    destruct (returned (cleanupOldData _ now)); reflexivity.
Qed.

(** X11.  The ids stay a key: in a table whose ids are distinct and not
    above the largest rowid handed out (the empty table is one), they
    still are after a scrape, after a cleanup, and after a whole tick,
    whatever the provider sends. *)
Theorem X11_ids_stay_distinct scheduledTime db start up now :
  well_keyed db ->
  well_keyed (database (scrapeAndStore db start up))
  /\ well_keyed (database (cleanupOldData db now))
  /\ well_keyed (Worker.store (Worker.scheduled scheduledTime db start up now)).
Proof.
  intros Hdb. split; [now apply scrapeAndStore_well_keyed |].
  split; [now apply cleanupOldData_well_keyed |].
  rewrite scheduled_store. destruct (Worker.cleanup_due scheduledTime).
  - now apply cleanupOldData_well_keyed, scrapeAndStore_well_keyed.
  - now apply scrapeAndStore_well_keyed.
Qed.

Lemma X11_ids_stay_distinct_witness :
  well_keyed
    (Worker.store
       (Worker.scheduled Sample.midnight Sample.empty_db Sample.midnight
          (Upgraded [(Sample.midnight + 700,
                      MessageEvent (Entries [Sample.entry "SSD-4" 500 125]))])
          (Sample.midnight + 900))).
Proof.
  apply X11_ids_stay_distinct. split; constructor.
Defined.

End Storing.

(** ** The cleanup *)

Section Cleanup.
Import Scraper.
Implicit Types (db : D1.D1Database) (now : Time.instant).

Lemma length_filter_split {A} (P : A -> Prop)
    (yes : forall x, Decision (P x)) (no : forall x, Decision (~ P x))
    (l : list A) :
  (length (filter P l) + length (filter (fun x => ~ P x) l))%nat = length l.
Proof.
  induction l as [| x l IH]; [reflexivity |].
  rewrite !filter_cons.
  destruct (decide (P x)), (decide (~ P x)); cbn [length]; try lia; tauto.
Qed.

(** X12.  The cleanup only deletes.  The rows left are rows that were
    there, in their order and unchanged; a row that is gone compared below
    the cut-off text; the number logged is the number of rows gone, and
    nothing is logged when none is.  Against a failing store it is
    rejected and changes nothing. *)
Theorem X12_cleanup_only_deletes db now :
  let run := cleanupOldData db now in
  let before := D1.occupancy db in
  let after := D1.occupancy (database run) in
  let gone := Z.of_nat (length before) - Z.of_nat (length after) in
  after `sublist_of` before
  /\ (forall row, row ∈ before -> row ∈ after \/ D1.expired now row)
  /\ (forall row, row ∈ after -> ~ D1.expired now row \/ D1.outage db <> None)
  /\ D1.last_rowid (database run) = D1.last_rowid db
  /\ D1.outage (database run) = D1.outage db
  /\ match D1.outage db with
     | None =>
         returned run = Fulfilled ()
         /\ console run = if 0 <? gone then [CleanedUp gone] else []
     | Some error =>
         returned run = Rejected error /\ database run = db /\ console run = []
     end.
Proof.
  cbn zeta. unfold cleanupOldData, D1.delete_old.
  destruct (D1.outage db) as [error |] eqn:Hup;
    cbn [returned database console D1.occupancy D1.last_rowid D1.outage].
  - rewrite Hup. repeat split; auto; try (intros row _; right; discriminate).
  - match goal with
    | |- context [Z.of_nat (length (D1.occupancy db)) - Z.of_nat (length ?kept)] =>
        match kept with
        | @filter _ _ _ _ ?no _ =>
            pose proof (length_filter_split (D1.expired now) _ no (D1.occupancy db))
              as Hlen;
            replace (Z.of_nat (length (D1.occupancy db)) - Z.of_nat (length kept))
              with (Z.of_nat (length (filter (D1.expired now) (D1.occupancy db))))
              by lia
        end
    end.
    repeat split.
    + apply sublist_filter.
    + intros row Hrow. destruct (decide (D1.expired now row)); [now right | left].
      now apply list_elem_of_filter.
    + intros row Hrow. left. now apply list_elem_of_filter in Hrow.
Qed.

(** X13.  Run again at the same clock reading, the cleanup finds nothing
    to delete: the second run leaves the database of the first and logs
    nothing, whether the store answers or not. *)
Theorem X13_cleanup_twice db now :
  let once := cleanupOldData db now in
  let twice := cleanupOldData (database once) now in
  database twice = database once
  /\ returned twice = returned once
  /\ console twice = [].
Proof.
  cbn zeta. unfold cleanupOldData, D1.delete_old.
  destruct (D1.outage db) as [error |] eqn:Hup; cbn; rewrite ?Hup; cbn.
  - repeat split.
  - rewrite filter_expired_kept, filter_kept_kept. repeat split.
Qed.

End Cleanup.

(** ** The order of timestamps *)

Section TimestampOrder.
Import Calendar.

(** The 400 years of an era and the 366 days of a year, checked by
    running the conversion on each. *)
Lemma years_checked : forallb year_ok (seqZ 0 400) = true.
Proof. vm_compute. reflexivity. Qed.

Lemma days_checked : forallb day_ok (seqZ 0 366) = true.
Proof. vm_compute. reflexivity. Qed.

Lemma checked_at (ok : Z -> bool) (n i : Z) :
  forallb ok (seqZ 0 n) = true -> 0 <= i < n -> ok i = true.
Proof.
  intros Hall Hi. rewrite forallb_forall in Hall. apply Hall.
  apply list_elem_of_In, elem_of_seqZ. lia.
Qed.

Lemma year_of_era_mono (a b : Z) :
  0 <= a -> a <= b -> b <= 146096 -> year_of_era a <= year_of_era b.
Proof.
  intros Ha Hab Hb. unfold year_of_era.
  apply Z.div_le_mono; [lia |].
  Z.div_mod_to_equations. lia.
Qed.

(** The date of any day is the date of its day of the era, moved by 400
    years for each era. *)
Lemma date_of_days_era (days : Z) :
  Time.date_of_days days
  = let '(y, m, d) := era_date ((days + 719468) mod 146097) in
    (y + 400 * ((days + 719468) / 146097), m, d).
Proof.
  unfold era_date, Time.date_of_days.
  pose proof (Z.mod_pos_bound (days + 719468) 146097 ltac:(lia)) as Hr.
  pose proof (Z.mod_eq (days + 719468) 146097 ltac:(lia)) as Hmod.
  set (z := days + 719468) in *. set (r := z mod 146097) in *.
  replace (r - 719468 + 719468) with r by lia.
  rewrite (Z.div_small r 146097) by lia.
  replace (r - 0 * 146097) with r by lia.
  replace (z - z / 146097 * 146097) with r by lia.
  cbv zeta.
  match goal with |- context [if ?b then _ else _] => destruct b end;
    f_equal; f_equal; lia.
Qed.

(** Within the era the conversion is the year of the era, then the month
    and the day of the day of that year. *)
Lemma era_date_unfold (doe : Z) :
  0 <= doe < 146097 ->
  era_date doe
  = let yoe := year_of_era doe in
    let '(m, d) := month_day (doe - first_day yoe) in
    (if m <=? 2 then yoe + 1 else yoe, m, d).
Proof.
  intros Hdoe. unfold era_date, Time.date_of_days, month_day, year_of_era, first_day.
  replace (doe - 719468 + 719468) with doe by lia.
  rewrite (Z.div_small doe 146097) by lia.
  replace (doe - 0 * 146097) with doe by lia.
  cbv zeta.
  match goal with |- context [if ?b then _ else _] => destruct b end;
    f_equal; f_equal; lia.
Qed.

Lemma year_facts (yoe : Z) :
  0 <= yoe < 400 ->
  year_of_era (first_day yoe) = yoe /\ year_of_era (last_day yoe) = yoe
  /\ first_day yoe <= last_day yoe <= first_day yoe + 365.
Proof.
  intros Hy. pose proof (checked_at year_ok 400 yoe years_checked Hy) as Hok.
  unfold year_ok in Hok. rewrite !andb_true_iff, !Z.eqb_eq, !Z.leb_le in Hok. lia.
Qed.

Lemma first_day_bounds (yoe : Z) :
  0 <= yoe < 400 -> 0 <= first_day yoe /\ last_day yoe <= 146096.
Proof.
  intros Hy. unfold last_day, first_day.
  destruct (Z.eqb_spec yoe 399); Z.div_mod_to_equations; lia.
Qed.

(** Every day of a year of the era is given that year. *)
Lemma year_of_era_within (yoe doe : Z) :
  0 <= yoe < 400 -> first_day yoe <= doe <= last_day yoe ->
  year_of_era doe = yoe.
Proof.
  intros Hy Hdoe. destruct (year_facts yoe Hy) as (Hfirst & Hlast & _).
  destruct (first_day_bounds yoe Hy) as [Hlo Hhi].
  pose proof (year_of_era_mono (first_day yoe) doe ltac:(lia) ltac:(lia) ltac:(lia)).
  pose proof (year_of_era_mono doe (last_day yoe) ltac:(lia) ltac:(lia) ltac:(lia)).
  lia.
Qed.

(** Every day of the era is a day of one of its years. *)
Lemma year_exists (doe : Z) :
  0 <= doe < 146097 ->
  exists yoe, 0 <= yoe < 400 /\ first_day yoe <= doe <= last_day yoe.
Proof.
  intros Hdoe.
  assert (forall n : nat, Z.of_nat n <= 399 -> doe <= last_day (Z.of_nat n) ->
            exists yoe, 0 <= yoe <= Z.of_nat n /\ first_day yoe <= doe <= last_day yoe)
    as Hsearch.
  { induction n as [| n IH]; intros Hn Hlast.
    - exists 0. change (first_day 0) with 0. change (Z.of_nat 0) with 0 in *. lia.
    - destruct (Z.le_gt_cases (first_day (Z.of_nat (S n))) doe) as [Hge | Hlt].
      + exists (Z.of_nat (S n)). lia.
      + destruct IH as (yoe & Hyoe & Hin); [lia | | exists yoe; lia].
        unfold last_day. destruct (Z.eqb_spec (Z.of_nat n) 399); [lia |].
        replace (Z.of_nat n + 1) with (Z.of_nat (S n)) by lia. lia. }
  destruct (Hsearch 399%nat) as (yoe & Hyoe & Hin); [lia | | exists yoe; lia].
  change (last_day (Z.of_nat 399)) with 146096. lia.
Qed.

Lemma day_facts (doy : Z) :
  0 <= doy <= 365 ->
  let '(m, d) := month_day doy in
  1 <= m <= 12 /\ 1 <= d <= 31
  /\ day_code doy = (if m <=? 2 then 10000 else 0) + m * 100 + d
  /\ 301 <= day_code doy <= 10229
  /\ (doy < 365 -> day_code doy < day_code (doy + 1)).
Proof.
  intros Hdoy. pose proof (checked_at day_ok 366 doy days_checked ltac:(lia)) as Hok.
  unfold day_ok in Hok. unfold day_code at 1. destruct (month_day doy) as [m d].
  rewrite !andb_true_iff, orb_true_iff, !Z.leb_le, Z.eqb_eq, Z.ltb_lt in Hok.
  intuition lia.
Qed.

(** The date of a day of the era, as one number. *)
Lemma era_date_code (yoe doe : Z) :
  0 <= yoe < 400 -> first_day yoe <= doe <= last_day yoe ->
  date_code (era_date doe) = yoe * 10000 + day_code (doe - first_day yoe).
Proof.
  intros Hy Hdoe. destruct (first_day_bounds yoe Hy) as [Hlo Hhi].
  rewrite era_date_unfold by lia. rewrite (year_of_era_within yoe doe Hy Hdoe).
  cbv zeta. unfold day_code. destruct (month_day (doe - first_day yoe)) as [m d].
  unfold date_code. destruct (m <=? 2); lia.
Qed.

Lemma era_day_facts (doe : Z) :
  0 <= doe < 146097 ->
  let '(y, m, d) := era_date doe in
  1 <= m <= 12 /\ 1 <= d <= 31
  /\ 301 <= date_code (y, m, d) <= 4000229
  /\ (doe < 146096 -> date_code (y, m, d) < date_code (era_date (doe + 1))).
Proof.
  intros Hdoe. destruct (year_exists doe Hdoe) as (yoe & Hy & Hin).
  destruct (year_facts yoe Hy) as (_ & _ & Hlen).
  destruct (first_day_bounds yoe Hy) as [Hlo Hhi].
  pose proof (era_date_code yoe doe Hy Hin) as Hcode.
  pose proof (day_facts (doe - first_day yoe) ltac:(lia)) as Hday.
  pose proof (era_date_unfold doe Hdoe) as Hdate.
  rewrite (year_of_era_within yoe doe Hy Hin) in Hdate. cbv zeta in Hdate.
  destruct (month_day (doe - first_day yoe)) as [m d].
  rewrite Hdate in Hcode |- *.
  destruct Hday as (Hm & Hd & _ & Hrange & Hnext).
  split; [exact Hm |]. split; [exact Hd |]. split; [lia |].
  intros Hnotlast. rewrite Hcode.
  destruct (Z.eq_dec doe (last_day yoe)) as [Heq | Hne].
  - (* the first day of the next year *)
    assert (yoe < 399) as Hyoe.
    { destruct (Z.eq_dec yoe 399) as [-> | ]; [| lia].
      change (last_day 399) with 146096 in Heq. lia. }
    assert (first_day (yoe + 1) = doe + 1) as Hfirst.
    { rewrite Heq. unfold last_day. destruct (Z.eqb_spec yoe 399); lia. }
    destruct (year_facts (yoe + 1) ltac:(lia)) as (_ & _ & Hlen').
    rewrite (era_date_code (yoe + 1) (doe + 1)) by lia.
    rewrite Hfirst, Z.sub_diag. change (day_code 0) with 301. lia.
  - rewrite (era_date_code yoe (doe + 1)) by lia.
    replace (doe + 1 - first_day yoe) with (doe - first_day yoe + 1) by lia.
    specialize (Hnext ltac:(lia)). lia.
Qed.

(** Within an era a later day has a later date. *)
Lemma era_date_increasing (a b : Z) :
  0 <= a -> a < b -> b < 146097 ->
  date_code (era_date a) < date_code (era_date b).
Proof.
  intros Ha Hab Hb.
  assert (forall n : nat, a + 1 + Z.of_nat n < 146097 ->
            date_code (era_date a) < date_code (era_date (a + 1 + Z.of_nat n)))
    as Hstep.
  { induction n as [| n IH]; intros Hn.
    - pose proof (era_day_facts a ltac:(lia)) as Hfacts.
      destruct (era_date a) as [[y m] d]. replace (a + 1 + Z.of_nat 0) with (a + 1) by lia.
      apply Hfacts. lia.
    - pose proof (era_day_facts (a + 1 + Z.of_nat n) ltac:(lia)) as Hfacts.
      specialize (IH ltac:(lia)).
      destruct (era_date (a + 1 + Z.of_nat n)) as [[y m] d].
      replace (a + 1 + Z.of_nat (S n)) with (a + 1 + Z.of_nat n + 1) by lia.
      etransitivity; [exact IH | apply Hfacts; lia]. }
  specialize (Hstep (Z.to_nat (b - a - 1)) ltac:(lia)).
  replace (a + 1 + Z.of_nat (Z.to_nat (b - a - 1))) with b in Hstep by lia.
  exact Hstep.
Qed.

Lemma date_code_era (days : Z) :
  date_code (Time.date_of_days days)
  = date_code (era_date ((days + 719468) mod 146097))
    + 4000000 * ((days + 719468) / 146097).
Proof.
  rewrite date_of_days_era.
  destruct (era_date ((days + 719468) mod 146097)) as [[y m] d].
  unfold date_code. lia.
Qed.

(** A later day has a later date. *)
Lemma date_increasing (a b : Z) :
  a < b -> date_code (Time.date_of_days a) < date_code (Time.date_of_days b).
Proof.
  intros Hab. rewrite !date_code_era.
  pose proof (Z.mod_pos_bound (a + 719468) 146097 ltac:(lia)) as Hra.
  pose proof (Z.mod_pos_bound (b + 719468) 146097 ltac:(lia)) as Hrb.
  pose proof (era_day_facts _ Hra) as Hfa.
  pose proof (era_day_facts _ Hrb) as Hfb.
  pose proof (Z.div_mod (a + 719468) 146097 ltac:(lia)) as Hda.
  pose proof (Z.div_mod (b + 719468) 146097 ltac:(lia)) as Hdb.
  destruct (Z.lt_trichotomy ((a + 719468) / 146097) ((b + 719468) / 146097))
    as [Hlt | [Heq | Hgt]].
  - destruct (era_date ((a + 719468) mod 146097)) as [[ya ma] da].
    destruct (era_date ((b + 719468) mod 146097)) as [[yb mb] db]. lia.
  - rewrite Heq.
    pose proof (era_date_increasing ((a + 719468) mod 146097)
                  ((b + 719468) mod 146097) ltac:(lia) ltac:(lia) ltac:(lia)).
    lia.
  - lia.
Qed.

(** The parts of a date are in range, and in the years 0000 to 9999 the
    year has four digits. *)
Lemma date_in_range (days : Z) :
  let '(y, m, d) := Time.date_of_days days in
  1 <= m <= 12 /\ 1 <= d <= 31
  /\ (-719528 <= days <= 2932896 -> 0 <= y <= 9999).
Proof.
  pose proof (date_of_days_era days) as Hsplit.
  pose proof (Z.mod_pos_bound (days + 719468) 146097 ltac:(lia)) as Hr.
  pose proof (era_day_facts _ Hr) as Hfacts.
  destruct (era_date ((days + 719468) mod 146097)) as [[y0 m0] d0].
  rewrite Hsplit. destruct Hfacts as (Hm & Hd & _).
  split; [exact Hm |]. split; [exact Hd |]. intros Hdays.
  assert (date_code (Time.date_of_days (-719528)) <= date_code (Time.date_of_days days))
    as Hlo.
  { destruct (Z.eq_dec days (-719528)) as [-> | Hne]; [lia |].
    apply Z.lt_le_incl, date_increasing. lia. }
  assert (date_code (Time.date_of_days days) <= date_code (Time.date_of_days 2932896))
    as Hhi.
  { destruct (Z.eq_dec days 2932896) as [-> | Hne]; [lia |].
    apply Z.lt_le_incl, date_increasing. lia. }
  rewrite Hsplit in Hlo, Hhi.
  change (date_code (Time.date_of_days (-719528))) with 101 in Hlo.
  change (date_code (Time.date_of_days 2932896)) with 99991231 in Hhi.
  unfold date_code in Hlo, Hhi. lia.
Qed.

Lemma append_assoc (a b c : string) : (a +:+ b) +:+ c = a +:+ (b +:+ c).
Proof.
  induction a as [| x a IH]; [reflexivity |].
  change (String x ((a +:+ b) +:+ c) = String x (a +:+ (b +:+ c))).
  now rewrite IH.
Qed.

(** Digit characters are ordered as the digits. *)
Lemma digit_char_lt (x y : Z) :
  0 <= x -> x < y -> y <= 9 ->
  Strings.Ascii.compare (ascii_of_nat (48 + Z.to_nat x))
    (ascii_of_nat (48 + Z.to_nat y)) = Lt.
Proof.
  intros Hx Hxy Hy. unfold Strings.Ascii.compare, ascii_of_nat.
  rewrite !N_ascii_embedding by lia. apply N.compare_lt_iff. lia.
Qed.

(** Numbers written with the same number of digits compare as text the
    way they compare as numbers, whatever follows them. *)
Lemma digits_lt (width : nat) (a b : Z) (s t : string) :
  0 <= a -> a < b -> b < 10 ^ Z.of_nat width ->
  String.compare (Time.digits width a +:+ s) (Time.digits width b +:+ t) = Lt.
Proof.
  revert a b s t. induction width as [| w IH]; intros a b s t Ha Hab Hb.
  - change (10 ^ Z.of_nat 0) with 1 in Hb. lia.
  - cbn [Time.digits]. rewrite !append_assoc.
    assert (10 ^ Z.of_nat (S w) = 10 * 10 ^ Z.of_nat w) as Hpow
      by (rewrite Nat2Z.inj_succ, Z.pow_succ_r; lia).
    rewrite Hpow in Hb.
    pose proof (Z.div_mod a 10 ltac:(lia)) as Hda.
    pose proof (Z.div_mod b 10 ltac:(lia)) as Hdb.
    pose proof (Z.mod_pos_bound a 10 ltac:(lia)) as Hra.
    pose proof (Z.mod_pos_bound b 10 ltac:(lia)) as Hrb.
    destruct (Z.lt_trichotomy (a / 10) (b / 10)) as [Hlt | [Heq | Hgt]].
    + apply IH; lia.
    + rewrite Heq, compare_common_prefix.
      change (String.compare
                (String (ascii_of_nat (48 + Z.to_nat (a mod 10))) s)
                (String (ascii_of_nat (48 + Z.to_nat (b mod 10))) t) = Lt).
      cbn [String.compare]. rewrite digit_char_lt by lia. reflexivity.
    + lia.
Qed.

(** Dates written YYYY-MM-DD compare as text the way they compare as
    dates, whatever follows them. *)
Lemma date_text_lt (y m d y' m' d' : Z) (s t : string) :
  0 <= y <= 9999 -> 0 <= y' <= 9999 ->
  1 <= m <= 12 -> 1 <= m' <= 12 -> 1 <= d <= 31 -> 1 <= d' <= 31 ->
  date_code (y, m, d) < date_code (y', m', d') ->
  String.compare
    (Time.digits 4 y +:+ "-" +:+ Time.digits 2 m +:+ "-" +:+ Time.digits 2 d +:+ s)
    (Time.digits 4 y' +:+ "-" +:+ Time.digits 2 m' +:+ "-" +:+ Time.digits 2 d' +:+ t)
  = Lt.
Proof.
  intros Hy Hy' Hm Hm' Hd Hd'. unfold date_code. intros Hcode.
  destruct (Z.lt_trichotomy y y') as [Hlt | [<- | Hgt]]; [| | lia].
  { apply digits_lt; [lia | lia | change (10 ^ Z.of_nat 4) with 10000; lia]. }
  rewrite compare_common_prefix, (compare_common_prefix "-").
  destruct (Z.lt_trichotomy m m') as [Hlt | [<- | Hgt]]; [| | lia].
  { apply digits_lt; [lia | lia | change (10 ^ Z.of_nat 2) with 100; lia]. }
  rewrite compare_common_prefix, (compare_common_prefix "-").
  apply digits_lt; [lia | lia | change (10 ^ Z.of_nat 2) with 100; lia].
Qed.

(** Times of day written HH:MM:SS compare as text the way their seconds
    compare, whatever follows them. *)
Lemma clock_text_lt (r r' : Z) (s t : string) :
  0 <= r -> r' < 86400000 -> r / 1000 < r' / 1000 ->
  String.compare
    (Time.digits 2 (r / 3600000) +:+ ":" +:+ Time.digits 2 ((r / 60000) mod 60)
     +:+ ":" +:+ Time.digits 2 ((r / 1000) mod 60) +:+ s)
    (Time.digits 2 (r' / 3600000) +:+ ":" +:+ Time.digits 2 ((r' / 60000) mod 60)
     +:+ ":" +:+ Time.digits 2 ((r' / 1000) mod 60) +:+ t)
  = Lt.
Proof.
  intros Hr Hr' Hsec.
  assert (forall a b x y, 0 <= a -> a < b -> b < 100 ->
            String.compare (Time.digits 2 a +:+ x) (Time.digits 2 b +:+ y) = Lt)
    as Htwo by (intros; apply digits_lt; [lia | lia | change (10 ^ Z.of_nat 2) with 100; lia]).
  destruct (Z.lt_trichotomy (r / 3600000) (r' / 3600000)) as [Hlt | [Heq | Hgt]].
  - apply Htwo; [| exact Hlt |]; Z.div_mod_to_equations; lia.
  - rewrite Heq, !compare_common_prefix.
    destruct (Z.lt_trichotomy ((r / 60000) mod 60) ((r' / 60000) mod 60))
      as [Hlt | [Heq' | Hgt]].
    + apply Htwo; [| exact Hlt |]; Z.div_mod_to_equations; lia.
    + rewrite Heq', !compare_common_prefix.
      apply Htwo; Z.div_mod_to_equations; lia.
    + exfalso. Z.div_mod_to_equations. lia.
  - exfalso. Z.div_mod_to_equations. lia.
Qed.

Lemma clock_text_eq (r r' : Z) :
  0 <= r -> r' < 86400000 -> r / 1000 = r' / 1000 ->
  r / 3600000 = r' / 3600000
  /\ (r / 60000) mod 60 = (r' / 60000) mod 60
  /\ (r / 1000) mod 60 = (r' / 1000) mod 60.
Proof. intros. Z.div_mod_to_equations. lia. Qed.

Lemma append_empty (a : string) : a +:+ "" = a.
Proof.
  induction a as [| x a IH]; [reflexivity |].
  change (String x (a +:+ "") = String x a). now rewrite IH.
Qed.

(** The date of a clock reading, as its texts write it. *)
Lemma civil_date (t : Time.instant) :
  (Time.year (Time.civil_of t), Time.month (Time.civil_of t), Time.day (Time.civil_of t))
  = Time.date_of_days (day_number t).
Proof.
  unfold Time.civil_of, day_number.
  destruct (Time.date_of_days (t / Time.ms_per_day)) as [[y m] d]. reflexivity.
Qed.

Lemma day_number_range (t : Time.instant) :
  four_digit_year t -> -719528 <= day_number t <= 2932896.
Proof.
  unfold four_digit_year, day_number, Time.ms_per_day. intros Ht.
  Z.div_mod_to_equations. lia.
Qed.

(** The date part of both texts, for two clock readings on different
    days. *)
Lemma date_part_lt (t t' : Time.instant) (s s' : string) :
  four_digit_year t -> four_digit_year t' ->
  day_number t < day_number t' ->
  String.compare
    (Time.digits 4 (Time.year (Time.civil_of t)) +:+ "-"
     +:+ Time.digits 2 (Time.month (Time.civil_of t)) +:+ "-"
     +:+ Time.digits 2 (Time.day (Time.civil_of t)) +:+ s)
    (Time.digits 4 (Time.year (Time.civil_of t')) +:+ "-"
     +:+ Time.digits 2 (Time.month (Time.civil_of t')) +:+ "-"
     +:+ Time.digits 2 (Time.day (Time.civil_of t')) +:+ s')
  = Lt.
Proof.
  intros Ht Ht' Hdays.
  pose proof (civil_date t) as Hc. pose proof (civil_date t') as Hc'.
  pose proof (date_in_range (day_number t)) as Hr.
  pose proof (date_in_range (day_number t')) as Hr'.
  pose proof (date_increasing _ _ Hdays) as Hcode.
  rewrite <- Hc in Hr, Hcode. rewrite <- Hc' in Hr', Hcode.
  apply day_number_range in Ht, Ht'.
  apply date_text_lt; tauto.
Qed.

Lemma date_part_eq (t t' : Time.instant) :
  day_number t = day_number t' ->
  Time.year (Time.civil_of t) = Time.year (Time.civil_of t')
  /\ Time.month (Time.civil_of t) = Time.month (Time.civil_of t')
  /\ Time.day (Time.civil_of t) = Time.day (Time.civil_of t').
Proof.
  intros Hdays. pose proof (civil_date t) as Hc. pose proof (civil_date t') as Hc'.
  rewrite Hdays, <- Hc' in Hc. injection Hc as Hy Hm Hd. tauto.
Qed.

Lemma day_and_time (t : Time.instant) :
  t = day_number t * 86400000 + t mod 86400000 /\ 0 <= t mod 86400000 < 86400000.
Proof.
  unfold day_number, Time.ms_per_day.
  pose proof (Z.div_mod t 86400000 ltac:(lia)).
  pose proof (Z.mod_pos_bound t 86400000 ltac:(lia)). lia.
Qed.

(** The ISO texts of two clock readings, the earlier first. *)
Lemma toISOString_lt (t t' : Time.instant) :
  four_digit_year t -> four_digit_year t' -> t < t' ->
  String.compare (Time.toISOString t) (Time.toISOString t') = Lt.
Proof.
  intros Ht Ht' Hlt. unfold Time.toISOString.
  destruct (day_and_time t) as [Hsplit Hr], (day_and_time t') as [Hsplit' Hr'].
  destruct (Z.lt_trichotomy (day_number t) (day_number t')) as [Hd | [Hd | Hd]];
    [now apply date_part_lt | | lia].
  destruct (date_part_eq t t' Hd) as (-> & -> & ->).
  rewrite !compare_common_prefix.
  destruct (time_of_day t) as (-> & -> & -> & ->).
  destruct (time_of_day t') as (-> & -> & -> & ->).
  unfold Time.ms_per_day, Time.ms_per_hour.
  set (r := t mod 86400000) in *. set (r' := t' mod 86400000) in *.
  assert (r < r') as Hrr by lia.
  destruct (Z.lt_trichotomy (r / 1000) (r' / 1000)) as [Hs | [Hs | Hs]].
  - apply clock_text_lt; lia.
  - destruct (clock_text_eq r r' ltac:(lia) ltac:(lia) Hs) as (-> & -> & ->).
    rewrite !compare_common_prefix.
    apply digits_lt; [| | change (10 ^ Z.of_nat 3) with 1000];
      Z.div_mod_to_equations; lia.
  - exfalso. Z.div_mod_to_equations. lia.
Qed.

(** The ISO text of a clock reading against SQLite's text of another:
    the day decides, and on the same day the ISO text is the greater. *)
Lemma toISOString_datetime (t c : Time.instant) :
  four_digit_year t -> four_digit_year c ->
  String.compare (Time.toISOString t) (Time.datetime c)
  = if day_number t <? day_number c then Lt else Gt.
Proof.
  intros Ht Hc. unfold Time.toISOString, Time.datetime.
  destruct (Z.lt_trichotomy (day_number t) (day_number c)) as [Hd | [Hd | Hd]].
  - assert ((day_number t <? day_number c) = true) as -> by lia.
    now apply date_part_lt.
  - assert ((day_number t <? day_number c) = false) as -> by lia.
    destruct (date_part_eq t c Hd) as (-> & -> & ->).
    rewrite !compare_common_prefix.
    reflexivity.
  - assert ((day_number t <? day_number c) = false) as -> by lia.
    rewrite String.compare_antisym.
    assert (forall x y : comparison, x = Lt -> CompOpp x = Gt) as Hopp
      by (intros x y ->; reflexivity).
    apply (Hopp _ Lt). now apply date_part_lt.
Qed.

(** SQLite's texts of two clock readings, the earlier first. *)
Lemma datetime_le (c c' : Time.instant) :
  four_digit_year c -> four_digit_year c' -> c <= c' ->
  String.le (Time.datetime c) (Time.datetime c').
Proof.
  intros Hc Hc' Hle. unfold String.le, String.leb.
  assert (String.compare (Time.datetime c) (Time.datetime c') <> Gt) as Hne;
    [| destruct (String.compare _ _); [exact I | exact I | contradiction]].
  unfold Time.datetime.
  destruct (day_and_time c) as [Hsplit Hr], (day_and_time c') as [Hsplit' Hr'].
  destruct (Z.lt_trichotomy (day_number c) (day_number c')) as [Hd | [Hd | Hd]];
    [rewrite date_part_lt by assumption; discriminate | | lia].
  destruct (date_part_eq c c' Hd) as (-> & -> & ->).
  rewrite !compare_common_prefix.
  destruct (time_of_day c) as (-> & -> & -> & _).
  destruct (time_of_day c') as (-> & -> & -> & _).
  unfold Time.ms_per_day, Time.ms_per_hour.
  set (r := c mod 86400000) in *. set (r' := c' mod 86400000) in *.
  assert (r <= r') as Hrr by lia.
  destruct (Z.lt_trichotomy (r / 1000) (r' / 1000)) as [Hs | [Hs | Hs]].
  - pose proof (clock_text_lt r r' "" "" ltac:(lia) ltac:(lia) Hs) as Hlt.
    rewrite !append_empty in Hlt. rewrite Hlt. discriminate.
  - destruct (clock_text_eq r r' ltac:(lia) ltac:(lia) Hs) as (-> & -> & ->).
    rewrite !compare_common_prefix.
    assert (forall x, String.compare x x = Eq) as Hrefl.
    { induction x as [| a x IH]; [reflexivity |]. cbn [String.compare].
      assert (Strings.Ascii.compare a a = Eq) as ->
        by (unfold Strings.Ascii.compare; apply N.compare_refl).
      exact IH. }
    rewrite Hrefl. discriminate.
  - exfalso. Z.div_mod_to_equations. lia.
Qed.

End TimestampOrder.

(** ** Timestamps, retention and history *)

Section TimestampTheorems.
Import Calendar D1 Api Query.

Lemma compare_same (x : string) : String.compare x x = Eq.
Proof.
  induction x as [| a x IH]; [reflexivity |]. cbn [String.compare].
  assert (Strings.Ascii.compare a a = Eq) as ->
    by (unfold Strings.Ascii.compare; apply N.compare_refl).
  exact IH.
Qed.

Lemma le_of_compare (x y : string) :
  String.le x y <-> String.compare x y <> Gt.
Proof.
  unfold String.le, String.leb.
  destruct (String.compare x y); cbn; intuition discriminate.
Qed.

(** X14.  In the years 0000 to 9999 the timestamps the scraper writes
    are ordered as text the way their instants are ordered in time, and
    different instants have different texts: [MAX(timestamp)] is the
    latest capture and [ORDER BY timestamp] is the order of capture. *)
Theorem X14_timestamps_sort_by_time (t t' : Time.instant) :
  four_digit_year t -> four_digit_year t' ->
  (String.le (Time.toISOString t) (Time.toISOString t') <-> t <= t')
  /\ (Time.toISOString t = Time.toISOString t' <-> t = t').
Proof.
  intros Ht Ht'. rewrite le_of_compare.
  destruct (Z.lt_trichotomy t t') as [Hlt | [<- | Hgt]].
  - pose proof (toISOString_lt t t' Ht Ht' Hlt) as Hc. rewrite Hc.
    split; split; try lia; try discriminate.
    intros Heq. rewrite Heq, compare_same in Hc. discriminate.
  - rewrite compare_same. split; split; try lia; try discriminate; reflexivity.
  - pose proof (toISOString_lt t' t Ht' Ht Hgt) as Hc.
    rewrite String.compare_antisym, Hc. cbn.
    split; split; try lia; try congruence.
    intros Heq. rewrite Heq, compare_same in Hc. discriminate.
Qed.

Lemma X14_timestamps_sort_by_time_witness :
  String.le (Time.toISOString Sample.midnight) (Time.toISOString Sample.noon).
Proof.
  apply (X14_timestamps_sort_by_time Sample.midnight Sample.noon);
    unfold four_digit_year, Sample.midnight, Sample.noon; lia.
Defined.

(** A row written by the scraper is below the cut-off text exactly when
    it was captured on an earlier day than the cut-off's. *)
Lemma expired_iff (now t : Time.instant) (row : Row) :
  timestamp row = Time.toISOString t ->
  four_digit_year t -> four_digit_year (now - 90 * Time.ms_per_day) ->
  expired now row <-> day_number t < day_number (now - 90 * Time.ms_per_day).
Proof.
  intros Hrow Ht Hc. unfold expired, days_ago_90.
  rewrite le_of_compare, Hrow.
  pose proof (toISOString_datetime t _ Ht Hc) as Hcmp.
  destruct (Z.ltb_spec (day_number t) (day_number (now - 90 * Time.ms_per_day)))
    as [Hlt | Hge]; rewrite Hcmp.
  - split; [intros _; exact Hlt | intros _].
    split; [discriminate |]. intros Heq.
    rewrite Heq, compare_same in Hcmp. discriminate.
  - split; [intros [Hne _]; congruence | lia].
Qed.

(** X15.  What the retention keeps.  Of the rows the scraper wrote, the
    cleanup deletes those captured on a UTC day before the day of the
    instant 90 days back, and no others: a row less than 90 days old is
    never deleted, and a row more than 91 days old always is. *)
Theorem X15_retention_window (table : list Row) (rowid : Z)
    (now t : Time.instant) (row : Row) :
  let db := {| occupancy := table; last_rowid := rowid; outage := None |} in
  let cutoff := now - 90 * Time.ms_per_day in
  let kept := occupancy (Scraper.database (Scraper.cleanupOldData db now)) in
  row ∈ table ->
  timestamp row = Time.toISOString t ->
  four_digit_year t -> four_digit_year cutoff ->
  (row ∈ kept <-> day_number cutoff <= day_number t)
  /\ (cutoff <= t -> row ∈ kept)
  /\ (t < now - 91 * Time.ms_per_day -> row ∉ kept).
Proof.
  cbn zeta. intros Hin Hrow Ht Hc.
  unfold Scraper.cleanupOldData, delete_old.
  cbn [outage occupancy Scraper.database].
  rewrite list_elem_of_filter, (expired_iff now t row Hrow Ht Hc).
  unfold day_number, Time.ms_per_day in *.
  split; [| split].
  - split; [intros [Hge _]; lia | intros Hge; split; [lia | exact Hin]].
  - intros Hle. split; [| exact Hin]. Z.div_mod_to_equations. lia.
  - intros Hold [Hge _]. Z.div_mod_to_equations. lia.
Qed.

Lemma X15_retention_window_witness :
  Sample.january_row
  ∈ occupancy (Scraper.database
                 (Scraper.cleanupOldData Sample.january_db Sample.midnight)).
Proof.
  destruct (X15_retention_window [Sample.january_row] 1 Sample.midnight
              1705276801000 Sample.january_row) as (Hkept & _).
  - left.
  - reflexivity.
  - unfold four_digit_year. lia.
  - unfold four_digit_year, Sample.midnight, Time.ms_per_day. lia.
  - apply Hkept. discriminate.
Defined.

(** A row written by the scraper is within the range of a history
    request exactly when it was captured on the day of the cut-off or
    later. *)
Lemma in_range_iff (now t : Time.instant) (h : Z) (p : option string) (row : Row) :
  timestamp row = Time.toISOString t ->
  four_digit_year t -> four_digit_year (now - h * Time.ms_per_hour) ->
  in_range now h p row
  <-> day_number (now - h * Time.ms_per_hour) <= day_number t
      /\ (p = None \/ p = Some (pool_id row)).
Proof.
  intros Hrow Ht Hc. unfold in_range.
  rewrite le_of_compare, Hrow, String.compare_antisym.
  rewrite (toISOString_datetime t _ Ht Hc).
  destruct (Z.ltb_spec (day_number t) (day_number (now - h * Time.ms_per_hour)));
    cbn; intuition (try lia; try discriminate; try congruence).
Qed.

(** X16.  What a history request covers.  Of the rows the scraper wrote,
    it returns those of the pool asked for that were captured on the UTC
    day of the instant [h] hours back or later: every row of the last [h]
    hours is there, and no row more than a day older. *)
Theorem X16_history_covers_the_hours (table : list Row) (rowid : Z)
    (now t : Time.instant) (u : URL) (z : Z) (row : Row) :
  let db := {| occupancy := table; last_rowid := rowid; outage := None |} in
  let cutoff := now - Z.min (Z.max z 1) 672 * Time.ms_per_hour in
  hours u = of_Z z ->
  row ∈ table ->
  timestamp row = Time.toISOString t ->
  pool u = None \/ pool u = Some (pool_id row) ->
  four_digit_year t -> four_digit_year cutoff ->
  exists results,
    handleHistory db u now
    = Fulfilled (json_response (JArray (map row_object results)) 200)
    /\ (row ∈ results <-> day_number cutoff <= day_number t)
    /\ (cutoff <= t -> row ∈ results)
    /\ (row ∈ results -> cutoff - Time.ms_per_day < t).
Proof.
  cbn zeta. intros Hz Hin Hrow Hpool Ht Hc.
  eexists. split; [apply handleHistory_rows, Hz |].
  rewrite merge_sort_Permutation, list_elem_of_filter.
  rewrite (in_range_iff now t _ (pool u) row Hrow Ht Hc).
  unfold day_number, Time.ms_per_day, Time.ms_per_hour in *.
  split; [| split].
  - tauto.
  - intros Hle. split; [split; [| exact Hpool] | exact Hin].
    Z.div_mod_to_equations. lia.
  - intros [[Hge _] _]. Z.div_mod_to_equations. lia.
Qed.

Lemma X16_history_covers_the_hours_witness :
  exists results,
    handleHistory Sample.april_db
      (url (Sample.GET "/api/history" [("hours", "1")])) (Sample.noon + 800)
    = Fulfilled (json_response (JArray (map row_object results)) 200)
    /\ Sample.april_row ∈ results.
Proof.
  destruct (X16_history_covers_the_hours [Sample.april_row] 1 (Sample.noon + 800)
              (Sample.noon + 700)
              (url (Sample.GET "/api/history" [("hours", "1")])) 1 Sample.april_row)
    as (results & Hresponse & _ & Hcovered & _).
  - reflexivity.
  - left.
  - reflexivity.
  - left. reflexivity.
  - unfold four_digit_year, Sample.noon. lia.
  - unfold four_digit_year, Sample.noon, Time.ms_per_hour. lia.
  - exists results. split; [exact Hresponse |]. apply Hcovered.
    unfold Sample.noon, Time.ms_per_hour. lia.
Defined.

(** X17.  Asking for more hours never loses a row: with the same pool
    parameter, every row returned for fewer hours is returned for
    more. *)
Theorem X17_more_hours_more_rows (table : list Row) (rowid : Z)
    (now : Time.instant) (u u' : URL) (z z' : Z) :
  let db := {| occupancy := table; last_rowid := rowid; outage := None |} in
  hours u = of_Z z -> hours u' = of_Z z' -> z <= z' -> pool u = pool u' ->
  four_digit_year now -> four_digit_year (now - 672 * Time.ms_per_hour) ->
  exists results results',
    handleHistory db u now
    = Fulfilled (json_response (JArray (map row_object results)) 200)
    /\ handleHistory db u' now
       = Fulfilled (json_response (JArray (map row_object results')) 200)
    /\ (forall row, row ∈ results -> row ∈ results')
    /\ (length results <= length results')%nat.
Proof.
  cbn zeta. intros Hz Hz' Hle Hpool Hnow Hlow.
  set (h := Z.min (Z.max z 1) 672). set (h' := Z.min (Z.max z' 1) 672).
  assert (forall row, in_range now h (pool u) row -> in_range now h' (pool u') row)
    as Hwider.
  { intros row [Hsince Hp]. split; [| now rewrite <- Hpool].
    etransitivity; [| exact Hsince].
    unfold four_digit_year, Time.ms_per_hour in *.
    apply datetime_le; unfold four_digit_year, Time.ms_per_hour; lia. }
  do 2 eexists. split; [apply handleHistory_rows, Hz |].
  split; [apply handleHistory_rows, Hz' |].
  fold h h'. split.
  - intros row. rewrite !merge_sort_Permutation, !list_elem_of_filter.
    intros [Hrange Hin]. split; [now apply Hwider | exact Hin].
  - rewrite !merge_sort_Permutation.
    induction table as [| row rest IH]; [rewrite !filter_nil; apply Nat.le_refl |].
    rewrite !filter_cons.
    destruct (decide (in_range now h (pool u) row)) as [Hyes | Hno];
      destruct (decide (in_range now h' (pool u') row)) as [Hyes' | Hno'];
      cbn [length]; try lia.
    exfalso. now apply Hno', Hwider.
Qed.

Lemma X17_more_hours_more_rows_witness :
  exists results results',
    handleHistory Sample.april_db
      (url (Sample.GET "/api/history" [("hours", "1")])) (Sample.noon + 800)
    = Fulfilled (json_response (JArray (map row_object results)) 200)
    /\ handleHistory Sample.april_db
         (url (Sample.GET "/api/history" [("hours", "24")])) (Sample.noon + 800)
       = Fulfilled (json_response (JArray (map row_object results')) 200)
    /\ forall row, row ∈ results -> row ∈ results'.
Proof.
  destruct (X17_more_hours_more_rows [Sample.april_row] 1 (Sample.noon + 800)
              (url (Sample.GET "/api/history" [("hours", "1")]))
              (url (Sample.GET "/api/history" [("hours", "24")])) 1 24)
    as (results & results' & H1 & H24 & Hsub & _);
    try reflexivity; try lia;
    try (unfold four_digit_year, Sample.noon, Time.ms_per_hour; lia).
  exists results, results'. split; [exact H1 |]. split; [exact H24 | exact Hsub].
Defined.

End TimestampTheorems.

(** ** Rounding to doubles *)

Section Rounding.
Import Spec.
Implicit Types a b c : number.

(** Powers of two as rationals. *)
Lemma two_pow_pos (e : Z) : (0 < 2 ^ e)%Q.
Proof. apply Qpower_0_lt. reflexivity. Qed.

Lemma two_pow_plus (a b : Z) : (2 ^ (a + b) == 2 ^ a * 2 ^ b)%Q.
Proof. apply Qpower_plus. discriminate. Qed.

Lemma two_pow_le (a b : Z) : a <= b -> (2 ^ a <= 2 ^ b)%Q.
Proof. intros H. apply Qpower_le_compat_l; [exact H | discriminate]. Qed.

Lemma two_pow_Z (e : Z) : 0 <= e -> (inject_Z (2 ^ e) == 2 ^ e)%Q.
Proof. intros H. apply (Zpower_Qpower 2 e H). Qed.

Lemma pow2_pos (e : Z) : 0 < pow2 e.
Proof. apply Z.pow_pos_nonneg; lia. Qed.

Lemma pow2_Q (e : Z) : (inject_Z (pow2 e) == 2 ^ Z.max 0 e)%Q.
Proof. apply two_pow_Z. lia. Qed.

(** [pow2 (-u) / pow2 u] is [2 ^ (-u)]. *)
Lemma pow2_ratio (u : Z) :
  (inject_Z (pow2 (- u)) == 2 ^ (- u) * inject_Z (pow2 u))%Q.
Proof.
  rewrite !pow2_Q, <- two_pow_plus.
  replace (- u + Z.max 0 u) with (Z.max 0 (- u)) by lia. reflexivity.
Qed.

(** [n * pow2 (-u)] over [d * pow2 u] is [n/d] over [2^u]. *)
Lemma scaled_ratio (n d u : Z) :
  0 < d ->
  (inject_Z (n * pow2 (- u)) / inject_Z (d * pow2 u)
   == inject_Z n / inject_Z d * 2 ^ (- u))%Q.
Proof.
  intros Hd. rewrite !inject_Z_mult, pow2_ratio.
  pose proof (pow2_pos u) as Hp.
  assert (0 < inject_Z (pow2 u))%Q as HpQ
    by (change 0%Q with (inject_Z 0); now rewrite <- Zlt_Qlt).
  assert (0 < inject_Z d)%Q as HdQ
    by (change 0%Q with (inject_Z 0); now rewrite <- Zlt_Qlt).
  field. split; intros E; [rewrite E in HdQ | rewrite E in HpQ]; discriminate.
Qed.

Lemma scaled_value (m u : Z) : (scaled m u == inject_Z m * 2 ^ u)%Q.
Proof.
  unfold scaled. destruct (Z.leb_spec 0 u) as [Hu | Hu].
  - rewrite inject_Z_mult, two_pow_Z by exact Hu. reflexivity.
  - replace u with (- (- u)) at 2 by lia. rewrite Qpower_opp, <- two_pow_Z by lia.
    pose proof (Z.pow_pos_nonneg 2 (- u) ltac:(lia) ltac:(lia)) as Hp.
    rewrite (Qmake_Qdiv m). rewrite Z2Pos.id by exact Hp. reflexivity.
Qed.

Lemma inject_Z_pos (z : Z) : 0 < z -> (0 < inject_Z z)%Q.
Proof. intros H. change 0%Q with (inject_Z 0). now rewrite <- Zlt_Qlt. Qed.

(** [exponent n d] is the exponent of [n/d]. *)
Lemma exponent_spec (n d : Z) :
  0 < n -> 0 < d ->
  (2 ^ exponent n d <= inject_Z n / inject_Z d)%Q
  /\ (inject_Z n / inject_Z d < 2 ^ (exponent n d + 1))%Q.
Proof.
  intros Hn Hd.
  pose proof (inject_Z_pos n Hn) as HN. pose proof (inject_Z_pos d Hd) as HD.
  destruct (Z.log2_spec n Hn) as [Hn1 Hn2]. destruct (Z.log2_spec d Hd) as [Hd1 Hd2].
  pose proof (Z.log2_nonneg n) as Ha. pose proof (Z.log2_nonneg d) as Hb.
  rewrite Zle_Qle, two_pow_Z in Hn1, Hd1 by lia.
  rewrite Zlt_Qlt, two_pow_Z in Hn2, Hd2 by lia.
  set (a := Z.log2 n) in *. set (b := Z.log2 d) in *.
  unfold exponent. fold a b. set (e := a - b).
  (* the test compares 2^e with n/d *)
  assert ((d * pow2 e <=? n * pow2 (- e)) = true
          <-> (2 ^ e * inject_Z d <= inject_Z n)%Q) as Htest.
  { rewrite Z.leb_le, Zle_Qle, !inject_Z_mult, pow2_ratio.
    pose proof (inject_Z_pos _ (pow2_pos e)) as HW.
    pose proof (two_pow_pos e) as HP. pose proof (two_pow_pos (- e)) as HM.
    assert (2 ^ e * 2 ^ (- e) == 1)%Q as Hinv
      by (rewrite <- two_pow_plus; replace (e + - e) with 0 by lia; reflexivity).
    set (W := inject_Z (pow2 e)) in *. set (P := (2 ^ e)%Q) in *.
    set (M := (2 ^ (- e))%Q) in *. set (N := inject_Z n) in *. set (D := inject_Z d) in *.
    split; intros H.
    - assert (D <= N * M)%Q as H1 by nra. nra.
    - assert (D <= N * M)%Q as H1 by nra. nra. }
  assert (2 ^ (a + 1) == 2 ^ (e + 1) * 2 ^ b)%Q as Hup
    by (rewrite <- two_pow_plus; replace (e + 1 + b) with (a + 1) by lia; reflexivity).
  assert (2 ^ a == 2 ^ (e - 1) * 2 ^ (b + 1))%Q as Hlow
    by (rewrite <- two_pow_plus; replace (e - 1 + (b + 1)) with a by lia; reflexivity).
  pose proof (two_pow_pos (e + 1)) as Hp1. pose proof (two_pow_pos (e - 1)) as Hp2.
  destruct (d * pow2 e <=? n * pow2 (- e)) eqn:Hcase.
  - pose proof (proj1 Htest eq_refl) as Hge. split.
    + apply Qle_shift_div_l; [exact HD | exact Hge].
    + apply Qlt_shift_div_r; [exact HD |].
      eapply Qlt_le_trans; [exact Hn2 |]. rewrite Hup.
      apply Qmult_le_l; [exact Hp1 | exact Hd1].
  - assert (~ (2 ^ e * inject_Z d <= inject_Z n)%Q) as Hnot
      by (intros H; apply Htest in H; discriminate).
    apply Qnot_le_lt in Hnot. replace (e - 1 + 1) with e by lia. split.
    + apply Qle_shift_div_l; [exact HD |].
      eapply Qle_trans; [| exact Hn1]. rewrite Hlow.
      apply Qmult_le_l; [exact Hp2 | apply Qlt_le_weak, Hd2].
    + apply Qlt_shift_div_r; [exact HD | exact Hnot].
Qed.

(** [nearest_even num den] is within one half of [num/den], and is even
    when exactly one half away. *)
Lemma nearest_even_spec (num den : Z) :
  0 < den ->
  let m := nearest_even num den in
  2 * num - den <= 2 * m * den <= 2 * num + den
  /\ (2 * m * den = 2 * num + den -> Z.even m = true)
  /\ (2 * m * den = 2 * num - den -> Z.even m = true).
Proof.
  intros Hden. cbn zeta. unfold nearest_even.
  pose proof (Z.div_mod num den ltac:(lia)) as Hdiv.
  pose proof (Z.mod_pos_bound num den Hden) as Hr.
  set (k := num / den) in *. set (r := num mod den) in *.
  destruct (Z.ltb_spec (2 * r) den) as [Hlt | Hge]; cbn [orb].
  - repeat split; intros; lia.
  - destruct (Z.eqb_spec (2 * r) den) as [Htie | Hne]; cbn [andb].
    + destruct (Z.even k) eqn:Heven.
      * repeat split; intros; try lia. exact Heven.
      * repeat split; intros; try lia.
        replace (k + 1) with (Z.succ k) by lia.
        rewrite Z.even_succ, <- Z.negb_even, Heven. reflexivity.
    + repeat split; intros; lia.
Qed.

Lemma nearest_even_mono (num den num' den' : Z) :
  0 < den -> 0 < den' -> num * den' <= num' * den ->
  nearest_even num den <= nearest_even num' den'.
Proof.
  intros Hden Hden' Hle.
  destruct (nearest_even_spec num den Hden) as ([_ Hup] & Heven & _).
  destruct (nearest_even_spec num' den' Hden') as ([Hlow _] & _ & Heven').
  set (m := nearest_even num den) in *. set (m' := nearest_even num' den') in *.
  destruct (Z.le_gt_cases m m') as [| Hgt]; [assumption | exfalso].
  assert (2 * m * den * den' <= (2 * num + den) * den') as H1 by nia.
  assert ((2 * num' - den') * den <= 2 * m' * den' * den) as H2 by nia.
  assert (m = m' + 1) as Hm by nia.
  assert (2 * m * den = 2 * num + den) as E1 by nia.
  assert (2 * m' * den' = 2 * num' - den') as E2 by nia.
  specialize (Heven E1). specialize (Heven' E2).
  rewrite Hm in Heven. replace (m' + 1) with (Z.succ m') in Heven by lia.
  rewrite Z.even_succ, <- Z.negb_even, Heven' in Heven. discriminate.
Qed.

(** A whole number is its own nearest integer. *)
Lemma nearest_even_whole (k : Z) : nearest_even k 1 = k.
Proof.
  unfold nearest_even. rewrite Z.div_1_r, Z.mod_1_r. reflexivity.
Qed.

Lemma two_pow_lt_inv (a b : Z) : (2 ^ a < 2 ^ b)%Q -> a < b.
Proof.
  intros H. destruct (Z.lt_ge_cases a b) as [| Hge]; [assumption | exfalso].
  apply (Qlt_not_le _ _ H), two_pow_le, Hge.
Qed.

(** Fractions of integers compare by cross multiplication. *)
Lemma ratio_le (a b c d : Z) :
  0 < b -> 0 < d ->
  (inject_Z a / inject_Z b <= inject_Z c / inject_Z d)%Q <-> a * d <= c * b.
Proof.
  intros Hb Hd. pose proof (inject_Z_pos b Hb) as HB. pose proof (inject_Z_pos d Hd) as HD.
  rewrite Zle_Qle, !inject_Z_mult.
  assert (inject_Z b * (inject_Z a / inject_Z b) == inject_Z a)%Q as Ha
    by (apply Qmult_div_r; intros E; rewrite E in HB; discriminate).
  assert (inject_Z d * (inject_Z c / inject_Z d) == inject_Z c)%Q as Hc
    by (apply Qmult_div_r; intros E; rewrite E in HD; discriminate).
  set (X := (inject_Z a / inject_Z b)%Q) in *. set (Y := (inject_Z c / inject_Z d)%Q) in *.
  set (A := inject_Z a) in *. set (B := inject_Z b) in *.
  set (C := inject_Z c) in *. set (D := inject_Z d) in *.
  assert (0 < B * D)%Q as HBD by nra.
  split; intros H.
  - assert (X * (B * D) <= Y * (B * D))%Q
      by (apply Qmult_le_compat_r; [exact H | nra]).
    nra.
  - apply Qmult_le_r with (z := (B * D)%Q); [exact HBD | nra].
Qed.

Lemma exponent_mono (n d n' d' : Z) :
  0 < n -> 0 < d -> 0 < n' -> 0 < d' -> n * d' <= n' * d ->
  exponent n d <= exponent n' d'.
Proof.
  intros Hn Hd Hn' Hd' Hle. apply (ratio_le n d n' d') in Hle; [| assumption..].
  destruct (exponent_spec n d Hn Hd) as [Hlow _].
  destruct (exponent_spec n' d' Hn' Hd') as [_ Hup].
  enough (exponent n d < exponent n' d' + 1) by lia.
  apply two_pow_lt_inv. eapply Qle_lt_trans; [exact Hlow |].
  eapply Qle_lt_trans; [exact Hle | exact Hup].
Qed.

Lemma significand_nonneg (n d : Z) : 0 < n -> 0 < d -> 0 <= significand n d.
Proof.
  intros Hn Hd. unfold significand.
  pose proof (nearest_even_mono 0 1 (n * pow2 (- last_place n d)) (d * pow2 (last_place n d))
                ltac:(lia)) as H.
  rewrite (nearest_even_whole 0) in H. apply H.
  - pose proof (pow2_pos (last_place n d)). nia.
  - pose proof (pow2_pos (- last_place n d)). nia.
Qed.

(** Integers on each side of the scaled fraction bound the significand. *)
Lemma significand_ge (n d k : Z) :
  0 < d -> (inject_Z k <= inject_Z n / inject_Z d * 2 ^ (- last_place n d))%Q ->
  k <= significand n d.
Proof.
  intros Hd Hk. unfold significand. set (u := last_place n d) in *.
  rewrite <- (nearest_even_whole k). pose proof (pow2_pos u) as Hp.
  apply nearest_even_mono; [lia | nia |].
  rewrite <- scaled_ratio in Hk by exact Hd.
  assert (inject_Z k / inject_Z 1 == inject_Z k)%Q as Hone by (field; discriminate).
  rewrite <- Hone in Hk.
  apply (ratio_le k 1 (n * pow2 (- u)) (d * pow2 u)) in Hk; [lia | lia | nia].
Qed.

Lemma significand_le (n d k : Z) :
  0 < d -> (inject_Z n / inject_Z d * 2 ^ (- last_place n d) <= inject_Z k)%Q ->
  significand n d <= k.
Proof.
  intros Hd Hk. unfold significand. set (u := last_place n d) in *.
  rewrite <- (nearest_even_whole k). pose proof (pow2_pos u) as Hp.
  apply nearest_even_mono; [nia | lia |].
  rewrite <- scaled_ratio in Hk by exact Hd.
  assert (inject_Z k / inject_Z 1 == inject_Z k)%Q as Hone by (field; discriminate).
  rewrite <- Hone in Hk.
  apply (ratio_le (n * pow2 (- u)) (d * pow2 u) k 1) in Hk; [lia | nia | lia].
Qed.

Lemma last_place_cases (n d : Z) :
  (last_place n d = exponent n d - 52 /\ -1074 <= last_place n d)
  \/ (last_place n d = -1074 /\ exponent n d - 52 < -1074).
Proof. unfold last_place. lia. Qed.

(** A normal number is not rounded below its power of two. *)
Lemma rounded_ge (n d : Z) :
  0 < n -> 0 < d -> last_place n d = exponent n d - 52 ->
  (2 ^ exponent n d <= rounded n d)%Q.
Proof.
  intros Hn Hd Hu. destruct (exponent_spec n d Hn Hd) as [Hlow _].
  unfold rounded. set (e := exponent n d) in *. set (u := last_place n d) in *.
  assert (2 ^ 52 <= significand n d) as Hm.
  { apply significand_ge; [exact Hd |]. fold u.
    rewrite two_pow_Z by lia. replace 52 with (e + - u) by lia.
    rewrite two_pow_plus. apply Qmult_le_compat_r; [exact Hlow |].
    apply Qlt_le_weak, two_pow_pos. }
  replace e with (52 + u) by lia. rewrite two_pow_plus.
  apply Qmult_le_compat_r; [| apply Qlt_le_weak, two_pow_pos].
  rewrite <- two_pow_Z by lia. now rewrite <- Zle_Qle.
Qed.

(** No number is rounded above the next power of two, or above one unit
    of the last place when it is below that. *)
Lemma rounded_le (n d : Z) :
  0 < n -> 0 < d ->
  (rounded n d <= 2 ^ Z.max (exponent n d + 1) (last_place n d))%Q.
Proof.
  intros Hn Hd. destruct (exponent_spec n d Hn Hd) as [_ Hup].
  unfold rounded. set (e := exponent n d) in *. set (u := last_place n d) in *.
  pose proof (two_pow_pos u) as Hpu. pose proof (two_pow_pos (- u)) as Hpm.
  assert (inject_Z n / inject_Z d * 2 ^ (- u) <= 2 ^ (e + 1 - u))%Q as Hscaled.
  { replace (e + 1 - u) with (e + 1 + - u) by lia. rewrite two_pow_plus.
    apply Qmult_le_compat_r; [apply Qlt_le_weak, Hup | apply Qlt_le_weak, Hpm]. }
  destruct (Z.le_gt_cases 0 (e + 1 - u)) as [Hnormal | Htiny].
  - assert (significand n d <= 2 ^ (e + 1 - u)) as Hm.
    { apply significand_le; [exact Hd |]. fold u. now rewrite two_pow_Z. }
    rewrite Zle_Qle, two_pow_Z in Hm by exact Hnormal.
    apply Qle_trans with (2 ^ (e + 1 - u) * 2 ^ u)%Q;
      [apply Qmult_le_compat_r; [exact Hm | apply Qlt_le_weak, Hpu] |].
    rewrite <- two_pow_plus. apply two_pow_le. lia.
  - assert (significand n d <= 1) as Hm.
    { apply significand_le; [exact Hd |]. fold u.
      eapply Qle_trans; [exact Hscaled |].
      change (inject_Z 1) with (2 ^ 0)%Q. apply two_pow_le. lia. }
    rewrite Zle_Qle in Hm.
    apply Qle_trans with (inject_Z 1 * 2 ^ u)%Q;
      [apply Qmult_le_compat_r; [exact Hm | apply Qlt_le_weak, Hpu] |].
    rewrite Qmult_1_l. apply two_pow_le. lia.
Qed.

(** Rounding keeps the order of positive fractions. *)
Lemma rounded_mono (n d n' d' : Z) :
  0 < n -> 0 < d -> 0 < n' -> 0 < d' -> n * d' <= n' * d ->
  (rounded n d <= rounded n' d')%Q.
Proof.
  intros Hn Hd Hn' Hd' Hle.
  pose proof (exponent_mono n d n' d' Hn Hd Hn' Hd' Hle) as He.
  destruct (Z.eq_dec (last_place n d) (last_place n' d')) as [Hsame | Hother].
  - unfold rounded. rewrite <- Hsame.
    apply Qmult_le_compat_r; [| apply Qlt_le_weak, two_pow_pos].
    rewrite <- Zle_Qle. unfold significand. rewrite <- Hsame.
    pose proof (pow2_pos (last_place n d)). pose proof (pow2_pos (- last_place n d)).
    apply nearest_even_mono; nia.
  - eapply Qle_trans; [apply rounded_le; assumption |].
    eapply Qle_trans; [| apply rounded_ge; try assumption; unfold last_place in *; lia].
    apply two_pow_le. unfold last_place in *. lia.
Qed.

(** What [binary64] makes of a positive rational: Infinity from 2^1024
    on, and the rounded value below. *)
Lemma binary64_positive (q : Q) :
  (0 < q)%Q ->
  let v := rounded (Qnum q) (Z.pos (Qden q)) in
  ((2 ^ 1024 <= v)%Q /\ binary64 q = PosInf)
  \/ ((v < 2 ^ 1024)%Q /\ exists r, binary64 q = Fin r /\ (r == v)%Q).
Proof.
  destruct q as [n d]. unfold Qlt; cbn [Qnum Qden]. rewrite Z.mul_1_r. intros Hn.
  change (0 * Z.pos d) with 0 in Hn.
  unfold binary64; cbn [Qnum Qden]. rewrite (Z.abs_eq n) by lia.
  assert ((n =? 0) = false) as -> by lia.
  assert ((0 <? n) = true) as -> by lia.
  rewrite (Z.sgn_pos n) by exact Hn. rewrite Z.mul_1_l.
  fold (significand n (Z.pos d)).
  set (u := last_place n (Z.pos d)). set (m := significand n (Z.pos d)).
  assert (rounded n (Z.pos d) == scaled m u)%Q as Hv
    by (unfold rounded; fold u m; now rewrite scaled_value).
  cbn zeta.
  assert (inject_Z (2 ^ 1024) == 2 ^ 1024)%Q as Hbig by (apply two_pow_Z; lia).
  destruct (Qle_bool (inject_Z (2 ^ 1024)) (scaled m u)) eqn:Hover.
  - left. split; [| reflexivity].
    apply Qle_bool_iff in Hover. rewrite Hv, <- Hbig. exact Hover.
  - right. split.
    { apply Qnot_le_lt. intros H. rewrite Hv, <- Hbig in H.
      apply Qle_bool_iff in H. congruence. }
    destruct (Z.eqb_spec ((n * pow2 (- u)) mod (Z.pos d * pow2 u)) 0) as [Hexact | _];
      [| eexists; split; [reflexivity | now rewrite Hv]].
    exists (n # d). split; [reflexivity |].
    (* an exact fraction is its own rounded value *)
    pose proof (pow2_pos u) as Hp.
    assert (0 < Z.pos d * pow2 u) as Hden by nia.
    pose proof (Z.div_mod (n * pow2 (- u)) (Z.pos d * pow2 u) ltac:(lia)) as Hdiv.
    rewrite Hexact, Z.add_0_r in Hdiv.
    assert (m = n * pow2 (- u) / (Z.pos d * pow2 u)) as Hm.
    { unfold m, significand, nearest_even. fold u. rewrite Hexact.
      assert ((2 * 0 <? Z.pos d * pow2 u) = true) as -> by lia. reflexivity. }
    rewrite <- Hm in Hdiv.
    pose proof (scaled_ratio n (Z.pos d) u ltac:(lia)) as Hratio.
    rewrite Hdiv in Hratio at 1. rewrite inject_Z_mult in Hratio.
    rewrite Hv, scaled_value. rewrite (Qmake_Qdiv n d).
    pose proof (inject_Z_pos _ Hden) as HD.
    pose proof (two_pow_pos u) as Hpu. pose proof (two_pow_pos (- u)) as Hpm.
    assert (2 ^ u * 2 ^ (- u) == 1)%Q as Hinv
      by (rewrite <- two_pow_plus; replace (u + - u) with 0 by lia; reflexivity).
    assert (inject_Z (Z.pos d * pow2 u) * inject_Z m / inject_Z (Z.pos d * pow2 u)
            == inject_Z m)%Q as Hcancel
      by (field; intros E; rewrite E in HD; discriminate).
    rewrite Hcancel in Hratio.
    set (X := (inject_Z n / inject_Z (Z.pos d))%Q) in *.
    set (M := inject_Z m) in *. set (A := (2 ^ u)%Q) in *. set (B := (2 ^ (- u))%Q) in *.
    transitivity (X * (A * B))%Q; [rewrite Hinv; ring | rewrite Hratio; ring].
Qed.

Lemma binary64_zero (q : Q) : (q == 0)%Q -> binary64 q = Fin q.
Proof.
  destruct q as [n d]. unfold Qeq; cbn [Qnum Qden]. rewrite Z.mul_1_r. intros ->.
  reflexivity.
Qed.

(** Rounding to a double keeps the order of the rationals from 0 on. *)
Lemma binary64_mono (p q : Q) :
  (0 <= p)%Q -> (p <= q)%Q ->
  (0 <=? binary64 p)%js = true /\ (binary64 p <=? binary64 q)%js = true.
Proof.
  intros Hp Hpq.
  assert (forall x, (0 < x)%Q -> (0 <= rounded (Qnum x) (Z.pos (Qden x)))%Q) as Hnonneg.
  { intros [n d]. unfold Qlt; cbn [Qnum Qden]. rewrite Z.mul_1_r. intros Hn.
    unfold rounded. apply Qmult_le_0_compat; [| apply Qlt_le_weak, two_pow_pos].
    change 0%Q with (inject_Z 0). rewrite <- Zle_Qle.
    apply significand_nonneg; lia. }
  assert (forall x, (0 <= x)%Q -> (0 <=? binary64 x)%js = true) as Hsign.
  { intros x Hx. destruct (Qlt_le_dec 0 x) as [Hpos | Hzero].
    - destruct (binary64_positive x Hpos) as [[_ ->] | [_ (r & -> & Hr)]];
        [reflexivity |].
      apply Qle_bool_iff. rewrite Hr. now apply Hnonneg.
    - rewrite binary64_zero by (apply Qle_antisym; assumption).
      now apply Qle_bool_iff. }
  split; [now apply Hsign |].
  destruct (Qlt_le_dec 0 p) as [Hpos | Hzero].
  - assert (0 < q)%Q as Hqpos by (eapply Qlt_le_trans; eassumption).
    assert (rounded (Qnum p) (Z.pos (Qden p)) <= rounded (Qnum q) (Z.pos (Qden q)))%Q
      as Hmono.
    { apply rounded_mono; try lia.
      - destruct p as [n d]. unfold Qlt in Hpos; cbn in *. lia.
      - destruct q as [n d]. unfold Qlt in Hqpos; cbn in *. lia.
      - exact Hpq. }
    destruct (binary64_positive p Hpos) as [[Hover ->] | [Hfin (r & -> & Hr)]];
      destruct (binary64_positive q Hqpos) as [[Hover' ->] | [Hfin' (r' & -> & Hr')]];
      try reflexivity.
    + exfalso. apply (Qlt_not_le _ _ Hfin'). eapply Qle_trans; eassumption.
    + apply Qle_bool_iff. rewrite Hr, Hr'. exact Hmono.
  - rewrite (binary64_zero p) by (apply Qle_antisym; assumption).
    assert (0 <= q)%Q as Hq by (eapply Qle_trans; eassumption).
    specialize (Hsign q Hq).
    destruct (binary64 q) as [| | r |]; try discriminate; [| reflexivity].
    apply Qle_bool_iff. apply Qle_bool_iff in Hsign.
    eapply Qle_trans; [exact Hzero | exact Hsign].
Qed.

Lemma le_trans a b c :
  (a <=? b)%js = true -> (b <=? c)%js = true -> (a <=? c)%js = true.
Proof.
  destruct a as [| | p |], b as [| | q |], c as [| | r |]; cbn;
    try discriminate; try reflexivity.
  rewrite !Qle_bool_iff. apply Qle_trans.
Qed.

(** The numbers from 0 on: the finite ones that are not negative, and
    Infinity. *)
Lemma in_order_cases a b :
  in_order a b ->
  (exists p q, a = Fin p /\ b = Fin q /\ (0 <= p)%Q /\ (p <= q)%Q)
  \/ (exists p, a = Fin p /\ b = PosInf /\ (0 <= p)%Q)
  \/ (a = PosInf /\ b = PosInf).
Proof.
  intros [Ha Hab]. destruct a as [| | p |], b as [| | q |]; cbn in Ha, Hab;
    try discriminate.
  - left. exists p, q. apply Qle_bool_iff in Ha, Hab.
    change (inject_Z 0) with 0%Q in Ha. auto.
  - right. left. exists p. apply Qle_bool_iff in Ha.
    change (inject_Z 0) with 0%Q in Ha. auto.
  - right. right. auto.
Qed.

Lemma in_order_Fin (p q : Q) :
  (0 <= p)%Q -> (p <= q)%Q -> in_order (Fin p) (Fin q).
Proof. intros Hp Hpq. split; now apply Qle_bool_iff. Qed.

Lemma below_infinity a : (0 <=? a)%js = true -> in_order a PosInf.
Proof. intros Ha. split; [exact Ha |]. destruct a; try discriminate; reflexivity. Qed.

Lemma binary64_in_order (p q : Q) :
  (0 <= p)%Q -> (p <= q)%Q -> in_order (binary64 p) (binary64 q).
Proof. apply binary64_mono. Qed.

Lemma double_in_order a b : in_order a b -> in_order (double a) (double b).
Proof.
  intros H. destruct (in_order_cases a b H)
    as [(p & q & -> & -> & Hp & Hpq) | [(p & -> & -> & Hp) | [-> ->]]]; cbn [double].
  - now apply binary64_in_order.
  - apply below_infinity, (binary64_mono p p Hp), Qle_refl.
  - split; reflexivity.
Qed.

Lemma sgn_pos (c : Q) : (0 < c)%Q -> signed_inf (sgn c) = PosInf.
Proof.
  destruct c as [n d]. unfold Qlt, sgn; cbn [Qnum Qden]. rewrite Z.mul_1_r. intros H.
  destruct n; try discriminate H; reflexivity.
Qed.

(** Multiplying and dividing by a positive double, rounding to an
    integer and adding a double that is not negative keep the order of
    the numbers from 0 on. *)
Lemma mul_in_order a b (c : Q) :
  is_double c -> (0 < c)%Q -> in_order a b -> in_order (a * Fin c)%js (b * Fin c)%js.
Proof.
  intros Hc Hpos H. apply double_in_order in H. unfold mul. cbn [double]. rewrite Hc.
  destruct (in_order_cases _ _ H)
    as [(p & q & -> & -> & Hp & Hpq) | [(p & -> & -> & Hp) | [-> ->]]].
  - apply binary64_in_order; nra.
  - rewrite sgn_pos by exact Hpos. apply below_infinity.
    apply (binary64_mono (p * c) (p * c)); [nra | apply Qle_refl].
  - rewrite sgn_pos by exact Hpos. split; reflexivity.
Qed.

Lemma div_in_order a b (c : Q) :
  is_double c -> (0 < c)%Q -> in_order a b -> in_order (a / Fin c)%js (b / Fin c)%js.
Proof.
  intros Hc Hpos H. apply double_in_order in H. unfold div. cbn [double]. rewrite Hc.
  assert (Qeq_bool c 0 = false) as ->.
  { apply not_true_iff_false. rewrite Qeq_bool_iff. intros E.
    rewrite E in Hpos. discriminate Hpos. }
  assert (Qle_bool 0 c = true) as -> by (apply Qle_bool_iff, Qlt_le_weak, Hpos).
  assert (0 <= / c)%Q as Hinv by (apply Qinv_le_0_compat, Qlt_le_weak, Hpos).
  destruct (in_order_cases _ _ H)
    as [(p & q & -> & -> & Hp & Hpq) | [(p & -> & -> & Hp) | [-> ->]]].
  - apply binary64_in_order; unfold Qdiv; [nra |].
    apply Qmult_le_compat_r; assumption.
  - apply below_infinity.
    apply (binary64_mono (p / c) (p / c)); [unfold Qdiv; nra | apply Qle_refl].
  - split; reflexivity.
Qed.

Lemma add_in_order a b (c : Q) :
  is_double c -> (0 <= c)%Q -> in_order a b -> in_order (a + Fin c)%js (b + Fin c)%js.
Proof.
  intros Hc Hpos H. apply double_in_order in H. unfold add. cbn [double]. rewrite Hc.
  destruct (in_order_cases _ _ H)
    as [(p & q & -> & -> & Hp & Hpq) | [(p & -> & -> & Hp) | [-> ->]]].
  - apply binary64_in_order; lra.
  - apply below_infinity.
    apply (binary64_mono (p + c) (p + c)); [lra | apply Qle_refl].
  - split; reflexivity.
Qed.

Lemma of_Z_in_order (x y : Z) : 0 <= x -> x <= y -> in_order (of_Z x) (of_Z y).
Proof.
  intros Hx Hxy. apply in_order_Fin; [change 0%Q with (inject_Z 0) |];
    now rewrite <- Zle_Qle.
Qed.

Lemma Math_floor_in_order a b :
  in_order a b -> in_order (Math_floor a) (Math_floor b).
Proof.
  intros H. apply double_in_order in H. unfold Math_floor.
  destruct (in_order_cases _ _ H)
    as [(p & q & -> & -> & Hp & Hpq) | [(p & -> & -> & Hp) | [-> ->]]].
  - apply of_Z_in_order; [| now apply Qfloor_resp_le].
    change 0 with (Qfloor 0). now apply Qfloor_resp_le.
  - apply below_infinity, (of_Z_in_order (Qfloor p) (Qfloor p)); [| lia].
    change 0 with (Qfloor 0). now apply Qfloor_resp_le.
  - split; reflexivity.
Qed.

Lemma Math_round_in_order a b :
  in_order a b -> in_order (Math_round a) (Math_round b).
Proof.
  intros H. apply double_in_order in H. unfold Math_round.
  destruct (in_order_cases _ _ H)
    as [(p & q & -> & -> & Hp & Hpq) | [(p & -> & -> & Hp) | [-> ->]]].
  - apply of_Z_in_order; [| apply Qfloor_resp_le; lra].
    change 0 with (Qfloor 0). apply Qfloor_resp_le. lra.
  - apply below_infinity,
      (of_Z_in_order (Qfloor (p + (1 # 2))) (Qfloor (p + (1 # 2)))); [| lia].
    change 0 with (Qfloor 0). apply Qfloor_resp_le. lra.
  - split; reflexivity.
Qed.

Lemma Math_min_in_order (k : Z) a b :
  0 <= k -> in_order a b -> in_order (Math_min (of_Z k) a) (Math_min (of_Z k) b).
Proof.
  intros Hk H.
  assert (forall x, (0 <=? x)%js = true ->
            Math_min (of_Z k) x = if (of_Z k <=? x)%js then of_Z k else x) as Hmin
    by (intros [| | x |]; try discriminate; reflexivity).
  destruct H as [Ha Hab].
  assert ((0 <=? b)%js = true) as Hb by (eapply le_trans; eassumption).
  rewrite !Hmin by assumption.
  assert ((0 <=? of_Z k)%js = true) as Hk'
    by (apply Qle_bool_iff; change (inject_Z 0 <= inject_Z k)%Q; now rewrite <- Zle_Qle).
  assert ((of_Z k <=? of_Z k)%js = true) as Hkk by (apply Qle_bool_iff, Qle_refl).
  destruct (of_Z k <=? a)%js eqn:Hka, (of_Z k <=? b)%js eqn:Hkb;
    split; try assumption.
  - rewrite (le_trans _ _ _ Hka Hab) in Hkb. discriminate.
  - (* a < k <= b *)
    destruct a as [| | p |]; try discriminate.
    apply Qle_bool_iff, Qlt_le_weak, Qnot_le_lt. intros E.
    apply Qle_bool_iff in E. cbn in Hka. congruence.
Qed.

End Rounding.

(** ** Readings in the arithmetic of doubles *)

Section Readings.
Import Scraper Spec.
Implicit Types (timestamp : string) (entry : CrowdMonitorEntry).

Lemma whole_is_double_100 : is_double (inject_Z 100) /\ is_double (inject_Z 10000)
  /\ is_double (inject_Z 25) /\ is_double (inject_Z 1).
Proof. repeat split; vm_compute; reflexivity. Qed.

(** The percentage and the level of finite readings against a positive
    capacity, as the chains of operations they are. *)
Lemma percent_of_reading timestamp entry (f c : Q) :
  fill entry = Fin f -> capacity entry = Fin c -> (0 < c)%Q ->
  occupancy_percent (toRecord timestamp entry)
  = (Math_round ((Fin f / Fin c) * 10000) / 100)%js.
Proof.
  intros Hf Hc Hpos. rewrite percent_unfold, Hf, Hc.
  assert ((Fin c >? 0)%js = true) as ->; [| reflexivity].
  unfold gt, of_Z. apply lt_Fin, Hpos.
Qed.

Lemma level_of_reading timestamp entry (f c : Q) :
  fill entry = Fin f -> capacity entry = Fin c -> (0 < c)%Q -> (0 <= f)%Q ->
  occupancy_level (toRecord timestamp entry)
  = Math_min 4 (Math_floor (((Fin f / Fin c) * 100) / 25) + 1)%js.
Proof.
  intros Hf Hc Hpos Hfill. rewrite level_unfold, Hf, Hc.
  assert ((Fin c <=? 0)%js = false) as ->
    by (apply lt_not_le; unfold of_Z; apply lt_Fin, Hpos).
  assert ((Fin f <? 0)%js = false) as ->; [| reflexivity].
  apply le_not_lt. unfold of_Z. apply le_Fin, Hfill.
Qed.

Lemma percent_in_order (a b : number) (c : Q) :
  is_double c -> (0 < c)%Q -> in_order a b ->
  in_order (Math_round ((a / Fin c) * 10000) / 100)%js
           (Math_round ((b / Fin c) * 10000) / 100)%js.
Proof.
  intros Hc Hpos H. destruct whole_is_double_100 as (H100 & H10000 & _).
  apply (div_in_order _ _ (inject_Z 100)); [exact H100 | reflexivity |].
  apply Math_round_in_order.
  apply (mul_in_order _ _ (inject_Z 10000)); [exact H10000 | reflexivity |].
  now apply div_in_order.
Qed.

Lemma level_in_order (a b : number) (c : Q) :
  is_double c -> (0 < c)%Q -> in_order a b ->
  in_order (Math_min 4 (Math_floor (((a / Fin c) * 100) / 25) + 1))%js
           (Math_min 4 (Math_floor (((b / Fin c) * 100) / 25) + 1))%js.
Proof.
  intros Hc Hpos H. destruct whole_is_double_100 as (H100 & _ & H25 & H1).
  apply Math_min_in_order; [lia |].
  apply (add_in_order _ _ (inject_Z 1)); [exact H1 | discriminate |].
  apply Math_floor_in_order.
  apply (div_in_order _ _ (inject_Z 25)); [exact H25 | reflexivity |].
  apply (mul_in_order _ _ (inject_Z 100)); [exact H100 | reflexivity |].
  now apply div_in_order.
Qed.

(** X18.  In the arithmetic of doubles, against one positive capacity a
    larger fill never gives a smaller percentage or a lower level. *)
Theorem X18_more_visitors_never_less timestamp entry entry' (f f' c : Q) :
  fill entry = Fin f -> fill entry' = Fin f' ->
  capacity entry = Fin c -> capacity entry' = Fin c ->
  is_double c -> (0 < c)%Q -> (0 <= f)%Q -> (f <= f')%Q ->
  (occupancy_percent (toRecord timestamp entry)
   <=? occupancy_percent (toRecord timestamp entry'))%js = true
  /\ (occupancy_level (toRecord timestamp entry)
      <=? occupancy_level (toRecord timestamp entry'))%js = true.
Proof.
  intros Hf Hf' Hc Hc' Hdouble Hpos Hfill Hle.
  assert (0 <= f')%Q as Hfill' by (eapply Qle_trans; eassumption).
  rewrite (percent_of_reading timestamp entry f c Hf Hc Hpos).
  rewrite (percent_of_reading timestamp entry' f' c Hf' Hc' Hpos).
  rewrite (level_of_reading timestamp entry f c Hf Hc Hpos Hfill).
  rewrite (level_of_reading timestamp entry' f' c Hf' Hc' Hpos Hfill').
  pose proof (in_order_Fin f f' Hfill Hle) as Horder.
  split; [apply (percent_in_order _ _ c) | apply (level_in_order _ _ c)];
    assumption.
Qed.

Lemma X18_more_visitors_never_less_witness :
  (occupancy_level (toRecord "" (Sample.entry "SSD-4" 200 50))
   <=? occupancy_level (toRecord "" (Sample.entry "SSD-4" 200 120)))%js = true.
Proof.
  apply (X18_more_visitors_never_less ""
           (Sample.entry "SSD-4" 200 50) (Sample.entry "SSD-4" 200 120)
           (inject_Z 50) (inject_Z 120) (inject_Z 200)
           eq_refl eq_refl eq_refl eq_refl eq_refl eq_refl
           ltac:(discriminate) ltac:(discriminate)).
Defined.

(** The floor of a number from 0 on is a whole number from 0 on, or
    Infinity. *)
Lemma Math_floor_whole (a : number) :
  (0 <=? a)%js = true ->
  Math_floor a = PosInf \/ exists j : Z, 0 <= j /\ Math_floor a = of_Z j.
Proof.
  intros Ha.
  assert (in_order a a) as Haa.
  { split; [exact Ha |]. destruct a as [| | p |]; try discriminate; [| reflexivity].
    apply Qle_bool_iff, Qle_refl. }
  apply double_in_order in Haa. unfold Math_floor.
  destruct (in_order_cases _ _ Haa)
    as [(p & q & -> & _ & Hp & _) | [(p & -> & _ & Hp) | [-> _]]].
  - right. exists (Qfloor p). split; [| reflexivity].
    change 0 with (Qfloor 0). now apply Qfloor_resp_le.
  - right. exists (Qfloor p). split; [| reflexivity].
    change 0 with (Qfloor 0). now apply Qfloor_resp_le.
  - left. reflexivity.
Qed.

(** X19.  In the arithmetic of doubles, a finite fill that is not
    negative against a positive capacity gets one of the levels 1, 2, 3,
    4 and a percentage that is not negative; a fill up to the capacity
    gets a percentage up to 100. *)
Theorem X19_levels_and_percentages_in_range timestamp entry (f c : Q) :
  fill entry = Fin f -> capacity entry = Fin c ->
  is_double c -> (0 < c)%Q -> (0 <= f)%Q ->
  (exists k : Z, 1 <= k <= 4 /\ occupancy_level (toRecord timestamp entry) = of_Z k)
  /\ (0 <=? occupancy_percent (toRecord timestamp entry))%js = true
  /\ ((f <= c)%Q ->
      (occupancy_percent (toRecord timestamp entry) <=? 100)%js = true).
Proof.
  intros Hf Hc Hdouble Hpos Hfill.
  rewrite (percent_of_reading timestamp entry f c Hf Hc Hpos).
  rewrite (level_of_reading timestamp entry f c Hf Hc Hpos Hfill).
  destruct whole_is_double_100 as (H100 & H10000 & H25 & H1).
  pose proof (in_order_Fin f f Hfill (Qle_refl f)) as Hself.
  split; [| split].
  - (* the level *)
    assert (in_order (((Fin f / Fin c) * 100) / 25)%js (((Fin f / Fin c) * 100) / 25)%js)
      as [Hx _].
    { apply (div_in_order _ _ (inject_Z 25)); [exact H25 | reflexivity |].
      apply (mul_in_order _ _ (inject_Z 100)); [exact H100 | reflexivity |].
      now apply div_in_order. }
    destruct (Math_floor_whole _ Hx) as [-> | (j & Hj & ->)];
      [exists 4; split; [lia | reflexivity] |].
    destruct (Z.le_gt_cases 3 j) as [Hhigh | Hlow].
    + (* three quarters or more *)
      pose proof (add_in_order _ _ (inject_Z 1) H1 ltac:(discriminate)
                    (of_Z_in_order 3 j ltac:(lia) Hhigh)) as [_ Hsum].
      exists 4. split; [lia |].
      change (of_Z 3 + Fin (inject_Z 1))%js with (of_Z 4) in Hsum.
      change (Fin (inject_Z 1)) with (of_Z 1) in Hsum.
      destruct (of_Z j + of_Z 1)%js as [| | y |] eqn:Hy; try discriminate Hsum.
      * cbn in Hsum. cbn. change (Qle_bool (inject_Z 4) y) with (Qle_bool 4 y).
        change (Qle_bool 4 y = true) in Hsum. rewrite Hsum. reflexivity.
      * reflexivity.
    + assert (j = 0 \/ j = 1 \/ j = 2) as [-> | [-> | ->]] by lia;
        [exists 1 | exists 2 | exists 3]; (split; [lia | vm_compute; reflexivity]).
  - apply (percent_in_order _ _ c Hdouble Hpos Hself).
  - intros Hcap.
    pose proof (percent_in_order _ _ c Hdouble Hpos (in_order_Fin f c Hfill Hcap))
      as [_ Hle].
    eapply le_trans; [exact Hle |].
    (* the capacity over itself is 1 *)
    assert (in_order (Fin c / Fin c)%js (of_Z 1)) as Hone.
    { unfold div. cbn [double]. rewrite Hdouble.
      assert (Qeq_bool c 0 = false) as ->.
      { apply not_true_iff_false. rewrite Qeq_bool_iff. intros E.
        rewrite E in Hpos. discriminate Hpos. }
      change (of_Z 1) with (binary64 (inject_Z 1)).
      apply binary64_in_order.
      - apply Qle_shift_div_l; [exact Hpos | lra].
      - apply Qle_shift_div_r; [exact Hpos |]. change (inject_Z 1) with 1%Q. lra. }
    assert (in_order (Math_round ((Fin c / Fin c) * 10000) / 100)%js
                     (Math_round (of_Z 1 * 10000) / 100)%js) as [_ Htop].
    { apply (div_in_order _ _ (inject_Z 100)); [exact H100 | reflexivity |].
      apply Math_round_in_order.
      apply (mul_in_order _ _ (inject_Z 10000)); [exact H10000 | reflexivity |].
      exact Hone. }
    eapply le_trans; [exact Htop |]. vm_compute. reflexivity.
Qed.

Lemma X19_levels_and_percentages_in_range_witness :
  exists k : Z,
    1 <= k <= 4
    /\ occupancy_level (toRecord "" (Sample.entry "SSD-4" 800 57)) = of_Z k.
Proof.
  exact (proj1 (X19_levels_and_percentages_in_range ""
                  (Sample.entry "SSD-4" 800 57) (inject_Z 57) (inject_Z 800)
                  eq_refl eq_refl eq_refl eq_refl ltac:(discriminate))).
Defined.

End Readings.

(** ** The hours of a history request *)

Section HoursBound.
Import Api.

(** X20.  What [hours] binds to the query.  A missing or empty parameter
    is read as 24; a text that starts with a whole number binds that
    number clamped to [1, 672]; and whatever the text, the value bound is
    within [1, 672] unless [parseInt] gave NaN, which the clamp passes
    on. *)
Theorem X20_hours_default_and_bounds (u : URL) :
  (get (searchParams u) "hours" = None \/ get (searchParams u) "hours" = Some "" ->
     clampedHours u = of_Z 24)
  /\ (forall z : Z, hours u = of_Z z -> clampedHours u = of_Z (Z.min (Z.max z 1) 672))
  /\ (hours u <> NaN ->
      (1 <=? clampedHours u)%js = true /\ (clampedHours u <=? 672)%js = true)
  /\ (hours u = NaN -> clampedHours u = NaN).
Proof.
  split; [apply clampedHours_default |].
  split; [intros z; apply clampedHours_numeric |].
  destruct (clampedHours_cases u) as [[Hnan Hclamped] | [Hnumber Hbounds]]; split;
    congruence || (intros _; assumption).
Qed.

Lemma X20_hours_default_and_bounds_witness :
  clampedHours (url (Sample.GET "/api/history" [("hours", "1000")])) = of_Z 672
  /\ clampedHours (url (Sample.GET "/api/history" [("hours", "")])) = of_Z 24.
Proof.
  split.
  - apply (proj1 (proj2 (X20_hours_default_and_bounds
                          (url (Sample.GET "/api/history" [("hours", "1000")]))))
             1000 eq_refl).
  - apply (proj1 (X20_hours_default_and_bounds
                    (url (Sample.GET "/api/history" [("hours", "")])))).
    right. reflexivity.
Defined.

End HoursBound.
